(** * StreetViewScraper: the sampling-and-acquisition pipeline

    A shallow embedding of [StreetViewScraper.py]: the region-keyed geometry
    cache ([load_shapefile_for_country]), the point sampler ([generate_ll]),
    the metadata validator ([MetaParse]), the image fetcher ([GetStreetLL])
    and the acquisition driver ([download_images_from_country]).

    Conventions of the embedding.
    - A Python call either returns a value or raises: [res A].
    - Module globals that a function mutates ([gdf_cache], [image_list]) are
      threaded as explicit state; the globals it only reads are the record
      [globals].
    - The outside world (the shapefile reader, the random generator of
      [DataFrame.sample], the imagery provider) is an explicit argument: an
      oracle giving what the world answers at that call.
    - Integers are Python's: unbounded. [int(a / b)] goes through the
      binary64 float that [a / b] is, with its rounding and its
      [OverflowError].
    - Console output ([print], [tqdm]) is not modelled. *)

From Stdlib Require Import ZArith List String Ascii Lia PrimFloat.
From stdpp Require Import base option strings list gmap pretty.

Open Scope Z_scope.
Open Scope string_scope.

#[global] Set Warnings "-clear-no-such-hyp".

(** ** Exceptions and results *)

(** The exceptions the pipeline raises or lets through, by raise site. *)
Inductive exn : Type :=
| CountryNotFound (country : string)     (* ValueError, line 72 *)
| ShapefilePathNotFound (region : string) (* ValueError, line 70 *)
| ReadFailure (path : string)            (* raised by read_dataframe *)
| SampleValueError                       (* ValueError of DataFrame.sample *)
| IndexError                             (* xy[1][0] or geoms[0] out of range *)
| AttributeError                         (* geom_type of a missing geometry *)
| KeyError (k : string)                  (* dict subscript on an absent key *)
| TypeError                              (* subscript on a value that has none *)
| HTTPError                              (* urllib.error.HTTPError *)
| PoolValueError                         (* ThreadPoolExecutor, max_workers <= 0 *)
| OverflowError                          (* int / int too large for a float *)
| ZeroDivisionError                      (* int / 0 *)
| OtherError.                            (* any other Exception *)

(** The text Python builds for the two [ValueError]s of the cache. *)
Definition message (e : exn) : string :=
  match e with
  | CountryNotFound country => country ++ " not found in any region."
  | ShapefilePathNotFound region => "Shapefile path for " ++ region ++ " not found."
  | _ => ""
  end.

Inductive res (A : Type) : Type :=
| Ret (a : A)
| Raise (e : exn).
Arguments Ret {A} a.
Arguments Raise {A} e.

#[global] Instance res_ret : MRet res := fun A a => Ret a.
#[global] Instance res_bind : MBind res := fun A B k m =>
  match m with
  | Ret a => k a
  | Raise e => Raise e
  end.


(** ** Road geometries *)

(** A vertex as shapely stores it: [x] is the longitude, [y] the latitude. *)
Record vertex : Type := Vertex { vx : float; vy : float }.

(** The value of a row's [geometry] cell. [OtherGeometry] stands for every
    shapely type that is neither a line string nor a multi line string
    (Point, Polygon, ...); [MissingGeometry] is the [None] of a row without
    geometry. *)
Inductive geometry : Type :=
| LineString (coords : list vertex)
| MultiLineString (geoms : list (list vertex))
| OtherGeometry
| MissingGeometry.

(** A GeoDataFrame, as far as the pipeline reads it: its [geometry] column. *)
Definition gdf : Type := list geometry.

(** ** Geometry cache *)

(** [regions_to_countries.json] is read at start-up and is not part of the
    sources: the parsed document, in document order, is a parameter. *)
Definition region_index : Type := list (string * list string).

Definition region_shp_paths : gmap string string :=
  list_to_map
    [ ("Region 1", "./GRIP4/GRIP4_Region1_vector_shp/GRIP4_region1.shp");
      ("Region 2", "./GRIP4/GRIP4_Region2_vector_shp/GRIP4_region2.shp");
      ("Region 3", "./GRIP4/GRIP4_Region3_vector_shp/GRIP4_region3.shp");
      ("Region 4", "./GRIP4/GRIP4_Region4_vector_shp/GRIP4_region4.shp");
      ("Region 5", "./GRIP4/GRIP4_Region5_vector_shp/GRIP4_region5.shp");
      ("Region 6", "./GRIP4/GRIP4_Region6_vector_shp/GRIP4_region6.shp");
      ("Region 7", "./GRIP4/GRIP4_Region7_vector_shp/GRIP4_region7.shp") ].

(** What [read_dataframe] answers at one call: the dataset stored at a path,
    or [None] when it raises (file missing, corrupt, unreadable). *)
Definition reader : Type := string -> option gdf.

(** One invocation of [read_dataframe], kept for the accounting of loads. *)
Record load_event : Type :=
  LoadEvent { ld_region : string; ld_path : string; ld_ok : bool }.

Record cache_state : Type :=
  CacheState { gdf_cache : gmap string gdf; loads : list load_event }.

Definition cache_init : cache_state := CacheState ∅ [].

(** Truth value of a Python [str]. *)
Definition str_truthy (s : string) : bool :=
  match s with EmptyString => false | _ => true end.

(** The body of the [for] loop of [load_shapefile_for_country], for the
    region at which [country in countries] holds. *)
Definition load_region (region : string) (rd : reader) (st : cache_state)
  : res gdf * cache_state :=
  match gdf_cache st !! region with
  | Some g => (Ret g, st)
  | None =>
      match region_shp_paths !! region with
      | Some shapefile_path =>
          if str_truthy shapefile_path then
            match rd shapefile_path with
            | Some g =>
                (Ret g,
                 CacheState (<[region := g]> (gdf_cache st))
                            (loads st ++ [LoadEvent region shapefile_path true]))
            | None =>
                (Raise (ReadFailure shapefile_path),
                 CacheState (gdf_cache st)
                            (loads st ++ [LoadEvent region shapefile_path false]))
            end
          else (Raise (ShapefilePathNotFound region), st)
      | None => (Raise (ShapefilePathNotFound region), st)
      end
  end.

Fixpoint load_items (items : region_index) (country : string)
  (rd : reader) (st : cache_state) : res gdf * cache_state :=
  match items with
  | [] => (Raise (CountryNotFound country), st)
  | (region, countries) :: rest =>
      if bool_decide (country ∈ countries)
      then load_region region rd st
      else load_items rest country rd st
  end.

Definition load_shapefile_for_country (regions_to_countries_dict : region_index)
  (country : string) (rd : reader) (st : cache_state) : res gdf * cache_state :=
  load_items regions_to_countries_dict country rd st.

(** The region a country resolves to: the first one, in document order,
    whose list holds the country. *)
Fixpoint region_of (items : region_index) (country : string) : option string :=
  match items with
  | [] => None
  | (region, countries) :: rest =>
      if bool_decide (country ∈ countries) then Some region
      else region_of rest country
  end.

(** A process history of the cache: the calls made so far, each with the
    reader's behaviour at that moment. *)
Fixpoint run_calls (idx : region_index) (calls : list (string * reader))
  (st : cache_state) : cache_state :=
  match calls with
  | [] => st
  | (country, rd) :: rest =>
      run_calls idx rest (snd (load_shapefile_for_country idx country rd st))
  end.

Definition successful_loads (region : string) (st : cache_state) : nat :=
  length (filter (fun ev => ld_ok ev = true ∧ ld_region ev = region) (loads st)).

(** The errors the specification declares for the cache. *)
Inductive declared_error : Type := UnknownCountry | GeometrySourceUnavailable.

Definition classify (e : exn) : option declared_error :=
  match e with
  | CountryNotFound _ => Some UnknownCountry
  | ShapefilePathNotFound _ | ReadFailure _ => Some GeometrySourceUnavailable
  | _ => None
  end.

(** A cached region has a usable path, and was loaded with success exactly
    once; a region that is not cached never was. *)
Definition cache_inv (st : cache_state) : Prop :=
  ∀ region,
    match gdf_cache st !! region with
    | Some _ =>
        successful_loads region st = 1%nat ∧
        ∃ p, region_shp_paths !! region = Some p ∧ str_truthy p = true
    | None => successful_loads region st = 0%nat
    end.

(** ** Point sampler *)

(** A sample point [(lat, lon, heading)]. *)
Definition point : Type := float * float * Z.

(** The random generator behind [DataFrame.sample]: an unbounded supply of
    draws. *)
Definition rng : Type := nat -> nat.

(** [n] rows drawn without replacement: draw number [k] picks one of the
    rows still left, which leaves the pool. *)
Fixpoint draw_rows {A : Type} (n : nat) (r : rng) (k : nat) (rows : list A)
  : list A :=
  match n with
  | O => []
  | S n' =>
      let i := (r k `mod` length rows)%nat in
      match rows !! i with
      | Some row => row :: draw_rows n' r (S k) (delete i rows)
      | None => []
      end
  end.




(** [gdf.sample(n=n)]: pandas refuses a negative [n], and a sample larger
    than the frame when drawing without replacement. *)
Definition df_sample (g : gdf) (n : Z) (r : rng) : res gdf :=
  if (n <? 0)%Z then Raise SampleValueError
  else if (Z.of_nat (length g) <? n)%Z then Raise SampleValueError
  else Ret (draw_rows (Z.to_nat n) r 0%nat g).

(** *** [int(a / b)] on integers

    [a / b] on two [int]s is the true division: the binary64 number nearest
    to the quotient, ties going to the even mantissa, and [OverflowError]
    when that number would be [2^1024] or more. [int] then drops the
    fraction. *)

(** [n / d] rounded to the nearest integer, ties to the even one
    ([0 < d]). *)
Definition round_half_even (n d : Z) : Z :=
  let q := (n `div` d)%Z in
  let r := (n `mod` d)%Z in
  if (2 * r <? d)%Z then q
  else if (d <? 2 * r)%Z then (q + 1)%Z
  else if Z.even q then q else (q + 1)%Z.

(** Numerator and denominator of [a / (b * 2^e)]. *)
Definition scale_num (a e : Z) : Z := (a * 2 ^ Z.max 0 (- e))%Z.
Definition scale_den (b e : Z) : Z := (b * 2 ^ Z.max 0 e)%Z.

(** The binary64 number nearest to [a / b], for [0 < a] and [0 < b], as a
    mantissa [m <= 2^53] and an exponent [e]: the number is [m * 2^e]. The
    exponent is the one that puts the quotient in [[2^52, 2^53)], and not
    less than that of the subnormal numbers. *)
Definition nearest_float (a b : Z) : Z * Z :=
  let e0 := (Z.log2 a - Z.log2 b - 52)%Z in
  let e1 := if (scale_num a e0 <? 2 ^ 52 * scale_den b e0)%Z
            then (e0 - 1)%Z else e0 in
  let e := Z.max e1 (-1074) in
  (round_half_even (scale_num a e) (scale_den b e), e).

(** [int(a / b)] for [0 < a] and [0 < b]. *)
Definition int_div_pos (a b : Z) : res Z :=
  let '(m, e) := nearest_float a b in
  if (0 <=? e)%Z then
    if (2 ^ 1024 <=? m * 2 ^ e)%Z then Raise OverflowError
    else Ret (m * 2 ^ e)%Z
  else Ret (m `div` 2 ^ (- e))%Z.

(** [int(a / b)]. *)
Definition int_div (a b : Z) : res Z :=
  if (b =? 0)%Z then Raise ZeroDivisionError
  else if (a =? 0)%Z then Ret 0%Z
  else z ← int_div_pos (Z.abs a) (Z.abs b); Ret (Z.sgn a * Z.sgn b * z)%Z.

#[global] Arguments int_div : simpl never.

(** [line.xy[1][0], line.xy[0][0]]: latitude and longitude of the first
    vertex. *)
Definition first_ll (coords : list vertex) : res (float * float) :=
  match coords with
  | [] => Raise IndexError
  | v :: _ => Ret (vy v, vx v)
  end.

(** The branch on [road.geom_type]: [Some (lat, lon)] for a kept road,
    [None] for a road the loop skips with [continue]. *)
Definition road_ll (road : geometry) : res (option (float * float)) :=
  match road with
  | LineString coords => ll ← first_ll coords; Ret (Some ll)
  | MultiLineString geoms =>
      match geoms with
      | [] => Raise IndexError
      | first_line :: _ => ll ← first_ll first_line; Ret (Some ll)
      end
  | OtherGeometry => Ret None
  | MissingGeometry => Raise AttributeError
  end.

Definition four_points (ll : float * float) : list point :=
  let '(lat, lon) := ll in
  [ (lat, lon, 2); (lat, lon, 92); (lat, lon, 182); (lat, lon, 272) ].

Fixpoint roads_loop (roads : list geometry) (ll_list : list point)
  : res (list point) :=
  match roads with
  | [] => Ret ll_list
  | road :: rest =>
      o ← road_ll road;
      match o with
      | Some ll => roads_loop rest (ll_list ++ four_points ll)
      | None => roads_loop rest ll_list
      end
  end.

Definition generate_ll (g : gdf) (n2d : Z) (r : rng) : res (list point) :=
  n_roads ← int_div n2d 2;
  roads ← (if (Z.of_nat (length g) >? n_roads)%Z then df_sample g n_roads r
           else Ret g);
  roads_loop roads [].

(** The default [n2d=200]. *)
Definition generate_ll_default (g : gdf) (r : rng) : res (list point) :=
  generate_ll g 200 r.

(** ** Python values of a decoded JSON document *)

#[local] Unset Elimination Schemes.
Inductive pyval : Type :=
| PNone
| PBool (b : bool)
| PInt (z : Z)
| PFloat (f : float)
| PStr (s : string)
| PList (l : list pyval)
| PDict (d : list (string * pyval)).
#[local] Set Elimination Schemes.

(** The binding of a key in a [dict]. *)
Fixpoint assoc (k : string) (d : list (string * pyval)) : option pyval :=
  match d with
  | [] => None
  | (k', v) :: rest => if String.eqb k' k then Some v else assoc k rest
  end.

(** [v[k]] for a string key. *)
Definition subscript (v : pyval) (k : string) : res pyval :=
  match v with
  | PDict d =>
      match assoc k d with
      | Some x => Ret x
      | None => Raise (KeyError k)
      end
  | _ => Raise TypeError
  end.

(** [v.get(k, None)]. *)
Definition py_get (v : pyval) (k : string) : res pyval :=
  match v with
  | PDict d => Ret (default PNone (assoc k d))
  | _ => Raise AttributeError
  end.

(** [v == s] for a string literal [s]. *)
Definition eq_str (v : pyval) (s : string) : bool :=
  match v with
  | PStr s' => String.eqb s' s
  | _ => false
  end.

(** The truth value [if v:] tests. *)
Definition truthy (v : pyval) : bool :=
  match v with
  | PNone => false
  | PBool b => b
  | PInt z => negb (z =? 0)%Z
  | PFloat f => negb (PrimFloat.eqb f 0%float)
  | PStr s => str_truthy s
  | PList l => match l with [] => false | _ => true end
  | PDict d => match d with [] => false | _ => true end
  end.

(** ** Metadata validator *)

(** What the metadata endpoint does at one call: [urlopen] or [read] raises,
    the body is not JSON ([json.loads] raises), or the body decodes. *)
Inductive meta_reply : Type :=
| MetaTransportError (e : exn)
| MetaMalformed
| MetaJson (jsonData : pyval).

(** [(date, pano_id, lat, lng)] *)
Definition met_data : Type := pyval * pyval * pyval * pyval.

(** The [try] block of [MetaParse]. *)
Definition MetaParse_try (reply : meta_reply) : res (option met_data) :=
  match reply with
  | MetaTransportError e => Raise e
  | MetaMalformed => Raise OtherError
  | MetaJson jsonData =>
      status ← subscript jsonData "status";
      if eq_str status "OK" then
        date ← py_get jsonData "date";
        pano_id ← subscript jsonData "pano_id";
        location ← subscript jsonData "location";
        lat ← subscript location "lat";
        location' ← subscript jsonData "location";
        lng ← subscript location' "lng";
        Ret (Some (date, pano_id, lat, lng))
      else Ret None
  end.

(** [except Exception] turns every failure into [None]. *)
Definition MetaParse (reply : meta_reply) : res (option met_data) :=
  match MetaParse_try reply with
  | Ret r => Ret r
  | Raise _ => Ret None
  end.

(** ** Module globals *)

Record globals : Type := Globals {
  key : option string;
  scrape_type : Z;
  samples_per_country : Z;
  pano : bool;
  num_workers : Z
}.

(** The values the module starts with; [key] is what the environment holds. *)
Definition initial_globals (maps_api_key : option string) : globals :=
  Globals maps_api_key 0 400 true 5.

Definition set_pano (b : bool) (gl : globals) : globals :=
  Globals (key gl) (scrape_type gl) (samples_per_country gl) b (num_workers gl).

(** ** Image fetcher *)

(** What [urlretrieve] does at one call. A failure that is not an HTTP error
    can come after the target file was created. *)
Inductive retrieve_reply : Type :=
| RetrieveOk
| RetrieveHTTPError
| RetrieveFails (file_created : bool).

(** What the provider answers during one attempt. *)
Record attempt_net : Type :=
  AttemptNet { meta_of : meta_reply; retrieve_of : retrieve_reply }.

(** The provider over the attempts of one call of [GetStreetLL]. *)
Definition network : Type := nat -> attempt_net.

(** The effects of the fetcher, in the order they happen. *)
Inductive event : Type :=
| MetaRequest (url : string)
| ImageRequest (url : string) (path : string)
| FileWritten (path : string)
| Sleep (seconds : Z).

(** [(date, pano_id, lat, lon, filename)] *)
Definition image_metadata : Type := pyval * pyval * pyval * pyval * string.

(** [os.path.join(a, b)] on POSIX. *)
Definition os_path_join (a b : string) : string :=
  if String.prefix "/" b then b
  else if negb (str_truthy a) then a ++ b
  else if String.eqb (String.substring (String.length a - 1) 1 a) "/" then a ++ b
  else a ++ "/" ++ b.

Definition opt_str (o : option string) : pyval :=
  match o with
  | Some s => PStr s
  | None => PNone
  end.

(** The constant parts of the two request URLs. *)
Module Url.
Definition base : string := "https://maps.googleapis.com/maps/api/streetview".
Definition size : string := "?size=640x640&fov=120&location=".
End Url.

Section Fetcher.

(** [str(v)], as f-strings apply it. *)
Variable py_str : pyval -> string.

Definition url_end (gl : globals) (Lat Lon : float) (Head : Z) : string :=
  py_str (PFloat Lat) ++ "," ++ py_str (PFloat Lon) ++ "&heading="
    ++ py_str (PInt Head) ++ "&key=" ++ py_str (opt_str (key gl)).

Definition MyUrl (gl : globals) (Lat Lon : float) (Head : Z) : string :=
  Url.base ++ Url.size ++ url_end gl Lat Lon Head.

Definition MetaUrl (gl : globals) (Lat Lon : float) (Head : Z) : string :=
  Url.base ++ "/metadata" ++ Url.size ++ url_end gl Lat Lon Head.

Definition make_filename (lat lon : pyval) (Head : Z) : string :=
  py_str lat ++ "_" ++ py_str lon ++ "_" ++ py_str (PInt Head) ++ ".jpg".

(** [urllib.request.urlretrieve(url, path)]. *)
Definition urlretrieve (url path : string) (reply : retrieve_reply)
  : list event * res unit :=
  match reply with
  | RetrieveOk => ([ImageRequest url path; FileWritten path], Ret tt)
  | RetrieveHTTPError => ([ImageRequest url path], Raise HTTPError)
  | RetrieveFails created =>
      (ImageRequest url path :: (if created then [FileWritten path] else []),
       Raise OtherError)
  end.

(** The [try] block of one attempt: [Some r] when it returns [r], [None]
    when control falls through to the next iteration. *)
Definition attempt_try (gl : globals) (Lat Lon : float) (Head : Z)
  (SaveLoc : string) (net : attempt_net)
  : list event * res (option (option image_metadata * Z)) :=
  let ev := [MetaRequest (MetaUrl gl Lat Lon Head)] in
  match MetaParse (meta_of net) with
  | Raise e => (ev, Raise e)
  | Ret None => (ev, Ret None)
  | Ret (Some (date, pano_id, lat, lon)) =>
      if truthy pano_id then
        let filename := make_filename lat lon Head in
        let '(ev', r) := urlretrieve (MyUrl gl Lat Lon Head)
                           (os_path_join SaveLoc filename) (retrieve_of net) in
        match r with
        | Ret _ => ((ev ++ ev')%list, Ret (Some (Some (date, pano_id, lat, lon, filename), 1)))
        | Raise e => ((ev ++ ev')%list, Raise e)
        end
      else (ev, Ret None)
  end.

(** [for attempt in range(retries)], from iteration [attempt] on, with
    [remaining] iterations left. *)
Fixpoint retry_loop (remaining : nat) (attempt : nat) (gl : globals)
  (Lat Lon : float) (Head : Z) (SaveLoc : string) (net : network)
  : list event * (option image_metadata * Z) :=
  match remaining with
  | O => ([], (None, 0))
  | S k =>
      let '(ev, r) := attempt_try gl Lat Lon Head SaveLoc (net attempt) in
      match r with
      | Ret (Some out) => (ev, out)
      | Ret None =>
          let '(ev', out) :=
            retry_loop k (S attempt) gl Lat Lon Head SaveLoc net in
          ((ev ++ ev')%list, out)
      | Raise HTTPError =>
          let '(ev', out) :=
            retry_loop k (S attempt) gl Lat Lon Head SaveLoc net in
          ((ev ++ Sleep 5 :: ev')%list, out)
      | Raise _ => (ev, (None, 0))
      end
  end.

Definition GetStreetLL (gl : globals) (Lat Lon : float) (Head : Z)
  (SaveLoc : string) (retries : Z) (net : network)
  : list event * (option image_metadata * Z) :=
  retry_loop (Z.to_nat retries) 0%nat gl Lat Lon Head SaveLoc net.

(** The default [retries=3]. *)
Definition GetStreetLL_default (gl : globals) (Lat Lon : float) (Head : Z)
  (SaveLoc : string) (net : network)
  : list event * (option image_metadata * Z) :=
  GetStreetLL gl Lat Lon Head SaveLoc 3 net.

(** The file an attempt with usable metadata downloads to. *)
Definition target_of (Head : Z) (SaveLoc : string) (a : attempt_net) : string :=
  match MetaParse (meta_of a) with
  | Ret (Some (_, _, lat, lon)) =>
      os_path_join SaveLoc (make_filename lat lon Head)
  | _ => ""
  end.

End Fetcher.

(** ** Acquisition driver *)

Record driver_state : Type := DriverState {
  images_downloaded : Z;
  image_list : list image_metadata;
  trace : list event
}.

(** The provider over one round: the network met by the point submitted at
    each position of [data_list]. *)
Definition round_net : Type := nat -> network.

Inductive stop_reason : Type := QuotaReached | Exhausted.

(** What one pass through the [while] does. *)
Inductive round_result : Type :=
| Stopped (why : stop_reason)
| Continue (st : driver_state)
| Raised (e : exn).

Definition files_written (tr : list event) : gset string :=
  list_to_set (omap (fun ev => match ev with FileWritten p => Some p | _ => None end) tr).

Section Driver.

Variable py_str : pyval -> string.

(** The futures of one round and the loop over [as_completed]. The workers
    run concurrently, [num_workers] at a time; the tally is a sum and the
    files form a set, so neither depends on the order of completion. The
    model lists results and effects in the order of submission. *)
Fixpoint dispatch (gl : globals) (save_dir : string) (data_list : list point)
  (j : nat) (rn : round_net) (st : driver_state) : driver_state :=
  match data_list with
  | [] => st
  | (lat, lon, head) :: rest =>
      let '(ev, (image_metadata, images_downloaded_in_current_iteration)) :=
        GetStreetLL_default py_str gl lat lon head save_dir (rn j) in
      dispatch gl save_dir rest (S j) rn
        (DriverState
           (images_downloaded st + images_downloaded_in_current_iteration)
           (match image_metadata with
            | Some m => image_list st ++ [m]
            | None => image_list st
            end)
           (trace st ++ ev))
  end.

(** The budget the driver hands to the sampler:
    [total_images_to_download - int(images_downloaded / 4)]. *)
Definition round_budget (total_images_to_download : Z) (st : driver_state)
  : res Z :=
  q ← int_div (images_downloaded st) 4;
  Ret (total_images_to_download - q)%Z.

(** One evaluation of the loop condition and, when it holds, of the body.
    [ThreadPoolExecutor] refuses a pool without workers. *)
Definition round_step (gl : globals) (g : gdf) (total_images_to_download : Z)
  (save_dir : string) (r : rng) (rn : round_net) (st : driver_state)
  : round_result :=
  if (images_downloaded st <? total_images_to_download * 4)%Z then
    match n2d ← round_budget total_images_to_download st;
          generate_ll g n2d r with
    | Raise e => Raised e
    | Ret [] => Stopped Exhausted
    | Ret data_list =>
        if (num_workers gl <=? 0)%Z then Raised PoolValueError
        else Continue (dispatch gl save_dir data_list 0%nat rn st)
    end
  else Stopped QuotaReached.

(** The [while] loop from round number [round] on; [None] when [fuel] rounds
    did not reach a stop. *)
Fixpoint rounds (fuel : nat) (round : nat) (gl : globals) (g : gdf)
  (total_images_to_download : Z) (save_dir : string)
  (rngs : nat -> rng) (world : nat -> round_net) (st : driver_state)
  : option (res (stop_reason * driver_state)) :=
  match fuel with
  | O => None
  | S fuel' =>
      match round_step gl g total_images_to_download save_dir
              (rngs round) (world round) st with
      | Stopped why => Some (Ret (why, st))
      | Raised e => Some (Raise e)
      | Continue st' =>
          rounds fuel' (S round) gl g total_images_to_download save_dir
            rngs world st'
      end
  end.

(** [image_list] is a module global: [ledger] is what it holds on entry. *)
Definition download_images_from_country (idx : region_index) (gl : globals)
  (country_name : string) (total_images_to_download : Z) (save_dir : string)
  (rd : reader) (cache : cache_state) (ledger : list image_metadata)
  (rngs : nat -> rng) (world : nat -> round_net) (fuel : nat)
  : cache_state * option (res (stop_reason * driver_state)) :=
  match load_shapefile_for_country idx country_name rd cache with
  | (Raise e, cache') => (cache', Some (Raise e))
  | (Ret g, cache') =>
      (cache',
       rounds fuel 0%nat gl g total_images_to_download save_dir rngs world
         (DriverState 0 ledger []))
  end.

End Driver.

(** ** Example data *)

Definition idx_example : region_index :=
  [ ("Region 4", ["France"; "Spain"]); ("Region 1", ["Canada"]);
    ("Region 9", ["Atlantis"]) ].

Definition road (x y : float) : geometry :=
  LineString [Vertex x y; Vertex 0 0].

Definition gdf_europe : gdf := [road 2 48; road (-3) 40].

(** A reader that finds the Region 4 shapefile and nothing else. *)
Definition rd_europe : reader := fun path =>
  if String.eqb path "./GRIP4/GRIP4_Region4_vector_shp/GRIP4_region4.shp"
  then Some gdf_europe else None.

(** A reader for which every source is unreadable. *)
Definition rd_down : reader := fun _ => None.

(** ** The sampler, in the words of the specification *)

(** The points a selected road contributes: four headings at the first
    vertex of a polyline, or of the first component of a multi-polyline;
    nothing for any other road. *)
Definition points_of_road (road : geometry) : list point :=
  match road with
  | LineString (v :: _) | MultiLineString ((v :: _) :: _) =>
      [ (vy v, vx v, 2); (vy v, vx v, 92); (vy v, vx v, 182); (vy v, vx v, 272) ]
  | _ => []
  end.

(** A road the sampler can read: it has a geometry, and a polyline or the
    first component of a multi-polyline has a first vertex. *)
Definition road_ok (road : geometry) : bool :=
  match road with
  | LineString (_ :: _) | MultiLineString ((_ :: _) :: _) | OtherGeometry => true
  | _ => false
  end.

(** A road that yields points. *)
Definition usable (road : geometry) : bool :=
  match road with
  | LineString (_ :: _) | MultiLineString ((_ :: _) :: _) => true
  | _ => false
  end.

(** ** Reading a trace of the fetcher *)

Definition meta_requests (tr : list event) : list string :=
  omap (fun ev => match ev with MetaRequest u => Some u | _ => None end) tr.

Definition image_requests (tr : list event) : list (string * string) :=
  omap (fun ev => match ev with ImageRequest u p => Some (u, p) | _ => None end) tr.

Definition writes (tr : list event) : list string :=
  omap (fun ev => match ev with FileWritten p => Some p | _ => None end) tr.

Definition sleeps (tr : list event) : list Z :=
  omap (fun ev => match ev with Sleep s => Some s | _ => None end) tr.

(** The attempts made: each one starts with a metadata request. *)
Definition attempts_made (tr : list event) : nat := length (meta_requests tr).

(** What the provider makes of one attempt. *)
Inductive attempt_kind : Type :=
| NoMetadata    (* the validator is absent, or its panorama id is falsy *)
| Downloaded    (* usable metadata, the download succeeds *)
| HttpFailure   (* usable metadata, the download raises an HTTP error *)
| Aborted.      (* usable metadata, the download raises another exception *)

Definition kind_of (a : attempt_net) : attempt_kind :=
  match MetaParse (meta_of a) with
  | Ret (Some (_, pano_id, _, _)) =>
      if truthy pano_id then
        match retrieve_of a with
        | RetrieveOk => Downloaded
        | RetrieveHTTPError => HttpFailure
        | RetrieveFails _ => Aborted
        end
      else NoMetadata
  | _ => NoMetadata
  end.

(** An attempt after which the loop goes on. *)
Definition goes_on (a : attempt_net) : Prop :=
  kind_of a = NoMetadata ∨ kind_of a = HttpFailure.

(** A metadata document as the provider documents it. *)
Definition ok_json (pano_id : pyval) (lat lng : pyval) : pyval :=
  PDict [ ("status", PStr "OK"); ("pano_id", pano_id);
          ("location", PDict [("lat", lat); ("lng", lng)]) ].

(** A provider that always succeeds, at a fixed validated location. *)
Definition net_ok : network := fun _ =>
  AttemptNet (MetaJson (ok_json (PStr "pano") (PFloat 48) (PFloat 2))) RetrieveOk.

(** A provider without imagery. *)
Definition net_zero : network := fun _ =>
  AttemptNet (MetaJson (PDict [("status", PStr "ZERO_RESULTS")])) RetrieveOk.

(** A provider whose image endpoint answers with an HTTP error once, then
    serves the image. *)
Definition net_flaky : network := fun attempt =>
  AttemptNet (MetaJson (ok_json (PStr "pano") (PFloat 48) (PFloat 2)))
    (match attempt with O => RetrieveHTTPError | _ => RetrieveOk end).

(** A provider whose metadata endpoint answers every query with an HTTP
    error. *)
Definition net_meta_http : network := fun _ =>
  AttemptNet (MetaTransportError HTTPError) RetrieveOk.

(** A stand-in for [str] in the examples: right on [None], booleans,
    integers and strings; every float is shown as [f]. *)
Definition str_example (v : pyval) : string :=
  match v with
  | PNone => "None"
  | PBool b => if b then "True" else "False"
  | PInt z => pretty z
  | PStr s => s
  | _ => "f"
  end.

Definition gl_example : globals := initial_globals (Some "KEY").

(** A provider that serves every point of every round at the first attempt. *)
Definition always_succeeds (world : nat -> round_net) : Prop :=
  ∀ round j, kind_of (world round j 0%nat) = Downloaded.

(** The provider of the examples, over rounds. *)
Definition world_ok : nat -> round_net := fun _ _ => net_ok.

(** A provider under which no attempt ever downloads an image. *)
Definition never_succeeds (world : nat -> round_net) : Prop :=
  ∀ round j attempt, kind_of (world round j attempt) ≠ Downloaded.

(** A provider without imagery, over rounds. *)
Definition world_zero : nat -> round_net := fun _ _ => net_zero.

(** The first vertex the sampler reads off a road, if it has one. *)
Definition first_vertex (road : geometry) : option vertex :=
  match road with
  | LineString (v :: _) | MultiLineString ((v :: _) :: _) => Some v
  | _ => None
  end.

(** The file name of a ledger entry. *)
Definition md_filename (md : image_metadata) : string := md.2.

(** [st'] continues [st]: the ledger and the trace have only grown, the
    tally has grown by the number of ledger entries added, and the file of
    each entry added was written, under [save_dir], in the added part of
    the trace. *)
Definition grows_by (save_dir : string) (st st' : driver_state) : Prop :=
  ∃ added evs,
    image_list st' = (image_list st ++ added)%list ∧
    images_downloaded st' = (images_downloaded st + Z.of_nat (length added))%Z ∧
    trace st' = (trace st ++ evs)%list ∧
    Forall (fun md => FileWritten (os_path_join save_dir (md_filename md)) ∈ evs)
      added.

(** ** The console layer: settings and menus *)

(** The exceptions that leave the console layer. *)
Inductive menu_exn : Type :=
| BadInteger               (* ValueError of int() on a line that is no integer *)
| EndOfInput               (* EOFError of input() *)
| CpuCountUnknown          (* TypeError of [choice <= None] *)
| NoCountryFile            (* FileNotFoundError of open() *)
| MkdirFailed (path : string).  (* OSError of os.mkdir *)

(** How a console function ends. *)
Inductive outcome : Type :=
| Done
| Failed (e : menu_exn).

Definition set_key (k : option string) (gl : globals) : globals :=
  Globals k (scrape_type gl) (samples_per_country gl) (pano gl) (num_workers gl).

Definition set_scrape_type (t : Z) (gl : globals) : globals :=
  Globals (key gl) t (samples_per_country gl) (pano gl) (num_workers gl).

Definition set_samples (n : Z) (gl : globals) : globals :=
  Globals (key gl) (scrape_type gl) n (pano gl) (num_workers gl).

Definition set_workers (n : Z) (gl : globals) : globals :=
  Globals (key gl) (scrape_type gl) (samples_per_country gl) (pano gl) n.

(** [verify_config()] *)
Definition verify_config (gl : globals) : bool :=
  match key gl with Some _ => true | None => false end.

Section Console.

(** [int(s)] on a line of input: [None] when it raises [ValueError]. *)
Variable int_of : string -> option Z.

(** [os.cpu_count()], which may be [None]. *)
Variable cpu_count : option Z.

(** The console functions take the lines still to be read and give back,
    with their outcome, the globals as they left them and the lines left.
    [help] only prints. *)
Definition console_result : Type := outcome * globals * list string.

(** The first loop of [configureScrape]. *)
Fixpoint scrape_type_menu (gl : globals) (inp : list string) : console_result :=
  match inp with
  | [] => (Failed EndOfInput, gl, [])
  | line :: rest =>
      match int_of line with
      | None => (Failed BadInteger, gl, rest)
      | Some choice =>
          if (choice =? 1)%Z then (Done, set_scrape_type 0 gl, rest)
          else if (choice =? 2)%Z then (Done, set_scrape_type 1 gl, rest)
          else if (choice =? 3)%Z then (Done, gl, rest)
          else scrape_type_menu gl rest
      end
  end.

(** The second loop of [configureScrape]. *)
Fixpoint pano_menu (gl : globals) (inp : list string) : console_result :=
  match inp with
  | [] => (Failed EndOfInput, gl, [])
  | line :: rest =>
      match int_of line with
      | None => (Failed BadInteger, gl, rest)
      | Some choice =>
          if (choice =? 1)%Z then (Done, set_pano true gl, rest)
          else if (choice =? 2)%Z then (Done, set_pano false gl, rest)
          else if (choice =? 3)%Z then (Done, gl, rest)
          else pano_menu gl rest
      end
  end.

(** The third loop: the number of locations per country. *)
Fixpoint samples_menu (gl : globals) (inp : list string) : console_result :=
  match inp with
  | [] => (Failed EndOfInput, gl, [])
  | line :: rest =>
      match int_of line with
      | None => (Failed BadInteger, gl, rest)
      | Some n =>
          let choice := Z.abs n in
          if (choice >? 0)%Z then (Done, set_samples choice gl, rest)
          else samples_menu gl rest
      end
  end.

(** The fourth loop: the number of threads. In [1 <= choice <= cpu_count]
    the second comparison is made only when the first holds. *)
Fixpoint workers_menu (gl : globals) (inp : list string) : console_result :=
  match inp with
  | [] => (Failed EndOfInput, gl, [])
  | line :: rest =>
      match int_of line with
      | None => (Failed BadInteger, gl, rest)
      | Some n =>
          let choice := Z.abs n in
          if (1 <=? choice)%Z then
            match cpu_count with
            | None => (Failed CpuCountUnknown, gl, rest)
            | Some cpus =>
                if (choice <=? cpus)%Z then (Done, set_workers choice gl, rest)
                else workers_menu gl rest
            end
          else workers_menu gl rest
      end
  end.

(** One console function after another: the second runs only when the
    first has returned. *)
Definition and_then (r : console_result)
  (k : globals -> list string -> console_result) : console_result :=
  match r with
  | (Done, gl, inp) => k gl inp
  | (Failed e, gl, inp) => (Failed e, gl, inp)
  end.

Definition configureScrape (gl : globals) (inp : list string) : console_result :=
  and_then (scrape_type_menu gl inp) (fun gl1 inp1 =>
  and_then (pano_menu gl1 inp1) (fun gl2 inp2 =>
  and_then (samples_menu gl2 inp2) (fun gl3 inp3 =>
  workers_menu gl3 inp3))).

(** [setApiKey()] *)
Definition setApiKey (gl : globals) (inp : list string) : console_result :=
  match inp with
  | [] => (Failed EndOfInput, gl, [])
  | api_key :: rest => (Done, set_key (Some api_key) gl, rest)
  end.

(** The loop of [settings()]; [None] when [fuel] turns did not end it. *)
Fixpoint settings_loop (fuel : nat) (gl : globals) (inp : list string)
  : option console_result :=
  match fuel with
  | O => None
  | S fuel' =>
      match inp with
      | [] => Some (Failed EndOfInput, gl, [])
      | line :: rest =>
          match int_of line with
          | None => Some (Failed BadInteger, gl, rest)
          | Some choice =>
              if (choice =? 1)%Z then
                match setApiKey gl rest with
                | (Done, gl', rest') => settings_loop fuel' gl' rest'
                | r => Some r
                end
              else if (choice =? 2)%Z then
                match configureScrape gl rest with
                | (Done, gl', rest') => settings_loop fuel' gl' rest'
                | r => Some r
                end
              else if (choice =? 3)%Z then Some (Done, gl, rest)
              else settings_loop fuel' gl rest
          end
      end
  end.

(** Every turn reads a line, so one turn more than there are lines is
    enough. *)
Definition settings (gl : globals) (inp : list string) : option console_result :=
  settings_loop (S (length inp)) gl inp.

End Console.

(** ** The scrape as the menu starts it *)

(** The world of the scrape of one country: what [read_dataframe] finds,
    the random draws and the provider of each round, and the number of
    rounds waited for. *)
Record scrape_world : Type := ScrapeWorld {
  sw_rd : reader;
  sw_rngs : nat -> rng;
  sw_net : nat -> round_net;
  sw_fuel : nat
}.

(** What [main] works on besides the settings: the cache and the ledger
    (module globals), the paths that exist, and the requests and writes
    made. *)
Record main_state : Type := MainState {
  m_cache : cache_state;
  m_image_list : list image_metadata;
  m_paths : gset string;
  m_trace : list event
}.

(** [DownLoc] *)
Definition DownLoc : string := "./Downloads".

Section Main.

Variable py_str : pyval -> string.

(** [line.strip()] *)
Variable strip : string -> string.

(** [regions_to_countries_dict] *)
Variable idx : region_index.

(** Whether [os.mkdir] succeeds on a path. *)
Variable mkdir_ok : string -> bool.

(** The loop of the driver again, this time with the state in which an
    exception leaves the module globals. *)
Fixpoint rounds_state (fuel : nat) (round : nat) (gl : globals) (g : gdf)
  (total_images_to_download : Z) (save_dir : string)
  (rngs : nat -> rng) (world : nat -> round_net) (st : driver_state)
  : option (res stop_reason * driver_state) :=
  match fuel with
  | O => None
  | S fuel' =>
      match round_step py_str gl g total_images_to_download save_dir
              (rngs round) (world round) st with
      | Stopped why => Some (Ret why, st)
      | Raised e => Some (Raise e, st)
      | Continue st' =>
          rounds_state fuel' (S round) gl g total_images_to_download save_dir
            rngs world st'
      end
  end.

Definition download_state (gl : globals) (country_name : string)
  (total_images_to_download : Z) (save_dir : string) (w : scrape_world)
  (cache : cache_state) (ledger : list image_metadata)
  : cache_state * option (res stop_reason * driver_state) :=
  match load_shapefile_for_country idx country_name (sw_rd w) cache with
  | (Raise e, cache') => (cache', Some (Raise e, DriverState 0 ledger []))
  | (Ret g, cache') =>
      (cache',
       rounds_state (sw_fuel w) 0%nat gl g total_images_to_download save_dir
         (sw_rngs w) (sw_net w) (DriverState 0 ledger []))
  end.

(** The scrape of one country in [main]: the directory is made when the
    path does not exist, then the driver runs inside [try]; whatever it
    raises is printed. [None] when the driver is still running after the
    rounds waited for. *)
Definition scrape_country (gl : globals) (country_name : string)
  (w : scrape_world) (st : main_state) : option (outcome * main_state) :=
  let country_dir := os_path_join DownLoc country_name in
  if bool_decide (country_dir ∉ m_paths st) && negb (mkdir_ok country_dir)
  then Some (Failed (MkdirFailed country_dir), st)
  else
    let paths := if bool_decide (country_dir ∉ m_paths st)
                 then {[country_dir]} ∪ m_paths st else m_paths st in
    match download_state gl country_name (samples_per_country gl)
            country_dir w (m_cache st) (m_image_list st) with
    | (_, None) => None
    | (cache', Some (_, dst)) =>
        Some (Done,
              MainState cache' (image_list dst) paths
                (m_trace st ++ trace dst)%list)
    end.

(** The [for] loop over the countries of the file; [i] counts them. *)
Fixpoint scrape_batch (gl : globals) (countries_to_scrape : list string)
  (i : nat) (ws : nat -> scrape_world) (st : main_state)
  : option (outcome * main_state) :=
  match countries_to_scrape with
  | [] => Some (Done, st)
  | country_name :: rest =>
      match scrape_country gl country_name (ws i) st with
      | None => None
      | Some (Failed e, st') => Some (Failed e, st')
      | Some (Done, st') => scrape_batch gl rest (S i) ws st'
      end
  end.

(** [main()]. [file] holds the lines of [countries_to_scrape.txt], or is
    [None] when the file cannot be opened. *)
Definition main (gl : globals) (inp : list string)
  (file : option (list string)) (ws : nat -> scrape_world) (st : main_state)
  : option (outcome * main_state * list string) :=
  let st0 := MainState (m_cache st) [] (m_paths st) (m_trace st) in
  if (scrape_type gl =? 1)%Z then
    match file with
    | None => Some (Failed NoCountryFile, st0, inp)
    | Some lines =>
        r ← scrape_batch gl (strip <$> lines) 0%nat ws st0;
        Some (r, inp)
    end
  else
    match inp with
    | [] => Some (Failed EndOfInput, st0, [])
    | country_name :: rest =>
        r ← scrape_country gl country_name (ws 0%nat) st0;
        Some (r, rest)
    end.

(** [start()] *)
Definition start (gl : globals) (inp : list string)
  (file : option (list string)) (ws : nat -> scrape_world) (st : main_state)
  : option (outcome * main_state * list string) :=
  if verify_config gl then main gl inp file ws st
  else Some (Done, st, inp).

End Main.

(** ** The main menu *)

(** What a session runs against: for each call of [start], the lines of
    [countries_to_scrape.txt] (or [None] when it does not open) and the
    world of each of its scrapes. *)
Record session_world : Type := SessionWorld {
  s_file : nat -> option (list string);
  s_worlds : nat -> nat -> scrape_world
}.

Section StartMenu.

Variable int_of : string -> option Z.
Variable cpu_count : option Z.
Variable py_str : pyval -> string.
Variable strip : string -> string.
Variable idx : region_index.
Variable mkdir_ok : string -> bool.

Definition menu_result : Type := outcome * globals * main_state * list string.

(** The loop of [start_menu()]; [run] counts the calls of [start]. [None]
    when [fuel] turns did not end it, or a scrape is still running. *)
Fixpoint start_menu_loop (fuel : nat) (run : nat) (sw : session_world)
  (gl : globals) (inp : list string) (st : main_state) : option menu_result :=
  match fuel with
  | O => None
  | S fuel' =>
      match inp with
      | [] => Some (Failed EndOfInput, gl, st, [])
      | line :: rest =>
          match int_of line with
          | None => Some (Failed BadInteger, gl, st, rest)
          | Some choice =>
              if (choice =? 1)%Z then
                match settings int_of cpu_count gl rest with
                | None => None
                | Some (Done, gl', rest') =>
                    start_menu_loop fuel' run sw gl' rest' st
                | Some (Failed e, gl', rest') => Some (Failed e, gl', st, rest')
                end
              else if (choice =? 2)%Z then
                match start py_str strip idx mkdir_ok gl rest
                        (s_file sw run) (s_worlds sw run) st with
                | None => None
                | Some (Done, st', rest') =>
                    start_menu_loop fuel' (S run) sw gl rest' st'
                | Some (Failed e, st', rest') => Some (Failed e, gl, st', rest')
                end
              else if (choice =? 3)%Z then Some (Done, gl, st, rest)
              else start_menu_loop fuel' run sw gl rest st
          end
      end
  end.

(** The program: the menu on the module's initial globals, an empty cache
    and ledger, and the paths that exist. Every turn reads a line. *)
Definition start_menu (maps_api_key : option string) (paths : gset string)
  (sw : session_world) (inp : list string) : option menu_result :=
  start_menu_loop (S (length inp)) 0%nat sw (initial_globals maps_api_key) inp
    (MainState cache_init [] paths []).

End StartMenu.

(** The world of the examples: the Region 4 shapefile is found, the first
    row is always drawn, the provider serves every point. *)
Definition sw_example : scrape_world :=
  ScrapeWorld rd_europe (fun _ _ => 0%nat) world_ok 5.

(** A stand-in for [str.strip] in the examples: right on lines whose only
    white space is a line feed at the end. *)
Fixpoint strip_example (s : string) : string :=
  match s with
  | EmptyString => EmptyString
  | String c rest =>
      if Ascii.eqb c "010"%char then strip_example rest
      else String c (strip_example rest)
  end.

Definition lines_example : list string :=
  [ String.append "France" (String "010"%char EmptyString);
    String.append "Atlantis" (String "010"%char EmptyString);
    "Mordor" ].

Definition session_example : session_world :=
  SessionWorld (fun _ => Some lines_example) (fun _ _ => sw_example).


(** What a console function leaves untouched, and how far it has read. *)
Definition keeps (gl : globals) (inp : list string) (r : console_result)
  (same_type same_pano same_samples same_workers : bool) : Prop :=
  (length r.2 ≤ length inp)%nat ∧
  (r.1.1 = Done → (length r.2 < length inp)%nat) ∧
  key r.1.2 = key gl ∧
  (same_type = true → scrape_type r.1.2 = scrape_type gl) ∧
  (same_pano = true → pano r.1.2 = pano gl) ∧
  (same_samples = true → samples_per_country r.1.2 = samples_per_country gl) ∧
  (same_workers = true → num_workers r.1.2 = num_workers gl).

(** The ways a console function ends: it returns, [input] meets the end of
    the input, [int] refuses a line, or, where [os.cpu_count()] is [None],
    the comparison with it raises. *)
Definition console_ending (cpu_count : option Z) (o : outcome) : Prop :=
  o = Done ∨ o = Failed EndOfInput ∨ o = Failed BadInteger ∨
  (o = Failed CpuCountUnknown ∧ cpu_count = None).

(** The settings a scrape needs to run: a positive number of locations and
    of threads. *)
Definition config_ok (gl : globals) : Prop :=
  (0 < samples_per_country gl)%Z ∧ (0 < num_workers gl)%Z.

(** A reading of decimal integers for the examples: digits with an optional
    minus sign. *)
Fixpoint digits_value (acc : Z) (s : string) : option Z :=
  match s with
  | EmptyString => Some acc
  | String c rest =>
      let n := Ascii.nat_of_ascii c in
      if ((48 <=? n) && (n <=? 57))%nat
      then digits_value (10 * acc + Z.of_nat (n - 48)) rest
      else None
  end.

Definition int_example (s : string) : option Z :=
  match s with
  | EmptyString => None
  | String "-" (String c rest) => Z.opp <$> digits_value 0 (String c rest)
  | _ => digits_value 0 s
  end.

(** * Properties *)

Open Scope list_scope.

(** ** Geometry cache *)

Lemma load_items_region_of idx country rd st :
  load_shapefile_for_country idx country rd st =
    match region_of idx country with
    | Some region => load_region region rd st
    | None => (Raise (CountryNotFound country), st)
    end.
Proof.
  unfold load_shapefile_for_country.
  induction idx as [|[region countries] rest IH]; simpl; [done|].
  by case_bool_decide.
Qed.

Lemma region_of_present idx country :
  is_Some (region_of idx country) ↔ ∃ region countries,
    (region, countries) ∈ idx ∧ country ∈ countries.
Proof.
  induction idx as [|[region countries] rest IH]; simpl.
  - split; [by intros [? ?]|]. intros (? & ? & H & _). by apply elem_of_nil in H.
  - case_bool_decide as Hin.
    + split; [|by eauto]. intros _. exists region, countries. split; [left|done].
    + rewrite IH. split.
      * intros (r & cs & ? & ?). exists r, cs. split; [by right|done].
      * intros (r & cs & Hel & ?). apply elem_of_cons in Hel as [Heq|?].
        -- by simplify_eq.
        -- by exists r, cs.
Qed.

Lemma successful_loads_snoc region st c ev :
  successful_loads region (CacheState c (loads st ++ [ev])) =
    (successful_loads region st +
       if bool_decide (ld_ok ev = true ∧ ld_region ev = region) then 1 else 0)%nat.
Proof.
  unfold successful_loads. simpl. rewrite filter_app, length_app. f_equal.
  rewrite filter_cons, filter_nil.
  case_bool_decide; by case_decide.
Qed.

Lemma cache_inv_init : cache_inv cache_init.
Proof. intros region. unfold cache_init. simpl. by rewrite lookup_empty. Qed.

Lemma load_region_inv region rd st :
  cache_inv st → cache_inv (snd (load_region region rd st)).
Proof.
  intros Hinv. unfold load_region.
  destruct (gdf_cache st !! region) as [g|] eqn:Hc; [done|].
  destruct (region_shp_paths !! region) as [p|] eqn:Hp; [|done].
  destruct (str_truthy p) eqn:Ht; [|done].
  destruct (rd p) as [g|]; simpl; intros r; specialize (Hinv r);
    rewrite successful_loads_snoc; cbn [gdf_cache ld_ok ld_region].
  - destruct (decide (region = r)) as [->|Hne].
    + rewrite lookup_insert_eq. rewrite Hc in Hinv.
      case_bool_decide; [|naive_solver]. split; [lia|eauto].
    + rewrite lookup_insert_ne by done.
      case_bool_decide; [naive_solver|].
      rewrite Nat.add_0_r. done.
  - case_bool_decide; [naive_solver|].
    rewrite Nat.add_0_r. done.
Qed.

Lemma load_inv idx country rd st :
  cache_inv st → cache_inv (snd (load_shapefile_for_country idx country rd st)).
Proof.
  intros Hinv. rewrite load_items_region_of.
  destruct (region_of idx country); [by apply load_region_inv|done].
Qed.

Lemma run_calls_inv idx calls st :
  cache_inv st → cache_inv (run_calls idx calls st).
Proof.
  revert st. induction calls as [|[country rd] rest IH]; intros st Hinv; simpl.
  - done.
  - by apply IH, load_inv.
Qed.




Lemma region_shp_paths_truthy region p :
  region_shp_paths !! region = Some p → str_truthy p = true.
Proof.
  intros H. apply elem_of_list_to_map_2 in H.
  repeat (apply elem_of_cons in H as [H|H]; [by simplify_eq|]).
  by apply elem_of_nil in H.
Qed.

(** On any process history the invariant of the cache holds. *)
Lemma history_inv idx calls : cache_inv (run_calls idx calls cache_init).
Proof. apply run_calls_inv, cache_inv_init. Qed.

Lemma cache_inv_loads_le st region :
  cache_inv st → (successful_loads region st ≤ 1)%nat.
Proof.
  intros Hinv. specialize (Hinv region).
  destruct (gdf_cache st !! region); [destruct Hinv as [-> _]|rewrite Hinv]; lia.
Qed.

(** What a call does at the region the country resolves to. *)
Lemma load_region_cases region rd st :
  let out := load_region region rd st in
  (∃ g, fst out = Ret g ∧ gdf_cache (snd out) !! region = Some g) ∨
  (∃ e, fst out = Raise e ∧ classify e = Some GeometrySourceUnavailable ∧
        gdf_cache (snd out) = gdf_cache st ∧ gdf_cache st !! region = None).
Proof.
  unfold load_region.
  destruct (gdf_cache st !! region) as [g|] eqn:Hc; simpl; [left; eauto|].
  destruct (region_shp_paths !! region) as [p|]; simpl; [|right; eauto].
  destruct (str_truthy p); simpl; [|right; eauto].
  destruct (rd p) as [g|]; simpl; [left|right; eauto].
  exists g. by rewrite lookup_insert_eq.
Qed.




(** C8: on every process history, a call raises the unknown-country error
    exactly when no region of the index lists the country; for a country of
    the index it raises a source error when its region has no path in the
    table, and when the region is not cached and the reader fails on its
    path; every error is one of the two declared ones and leaves the cached
    datasets as they were. *)
Theorem resolve_errors idx calls country rd :
  let st := run_calls idx calls cache_init in
  let out := load_shapefile_for_country idx country rd st in
  ((∃ e, fst out = Raise e ∧ classify e = Some UnknownCountry) ↔
   ¬ ∃ region countries, (region, countries) ∈ idx ∧ country ∈ countries) ∧
  (∀ region, region_of idx country = Some region →
     (region_shp_paths !! region = None →
      fst out = Raise (ShapefilePathNotFound region) ∧ snd out = st) ∧
     (∀ p, gdf_cache st !! region = None →
           region_shp_paths !! region = Some p → rd p = None →
           fst out = Raise (ReadFailure p) ∧
           gdf_cache (snd out) = gdf_cache st)) ∧
  (∀ e, fst out = Raise e →
     is_Some (classify e) ∧ gdf_cache (snd out) = gdf_cache st).
Proof.
  intros st out. subst out. rewrite load_items_region_of.
  pose proof (region_of_present idx country) as Hpres.
  destruct (region_of idx country) as [region|] eqn:Hreg.
  - assert (Hin : ∃ region0 countries,
               (region0, countries) ∈ idx ∧ country ∈ countries)
      by (apply Hpres; eauto).
    split; [|split].
    + split; [|tauto]. intros (e & Hf & Hcl).
      destruct (load_region_cases region rd st)
        as [(g & Hg & _)|(e' & He' & Hcl' & _)]; congruence.
    + intros r [= <-]. split.
      * intros Hp. pose proof (history_inv idx calls region) as Hinv.
        fold st in Hinv. unfold load_region.
        destruct (gdf_cache st !! region) eqn:Hc.
        -- destruct Hinv as [_ (p & Hp' & _)]. congruence.
        -- by rewrite Hp.
      * intros p Hc Hp Hrd. unfold load_region.
        rewrite Hc, Hp, (region_shp_paths_truthy _ _ Hp), Hrd. done.
    + intros e He.
      destruct (load_region_cases region rd st)
        as [(g & Hg & _)|(e' & He' & Hcl' & Hsame & _)]; [congruence|].
      rewrite He in He'. injection He' as ->. rewrite Hcl'. eauto.
  - split; [|split].
    + split; [|simpl; eauto].
      intros _ Hex. apply Hpres in Hex. by destruct Hex.
    + intros r [=].
    + simpl. intros e [= <-]. eauto.
Qed.

(** ** Point sampler *)

Lemma draw_rows_submseteq {A} n (r : rng) k (rows : list A) :
  draw_rows n r k rows ⊆+ rows.
Proof.
  revert k rows. induction n as [|n IH]; intros k rows; simpl.
  - apply submseteq_nil_l.
  - destruct (rows !! _) as [row|] eqn:Hrow; [|apply submseteq_nil_l].
    trans (row :: delete (r k `mod` length rows)%nat rows).
    + apply submseteq_skip, IH.
    + apply Permutation_submseteq. symmetry. by apply delete_Permutation.
Qed.

Lemma draw_rows_length {A} n (r : rng) k (rows : list A) :
  (n ≤ length rows)%nat → length (draw_rows n r k rows) = n.
Proof.
  revert k rows. induction n as [|n IH]; intros k rows Hn; simpl; [done|].
  assert (Hlt : (r k `mod` length rows < length rows)%nat)
    by (apply Nat.mod_upper_bound; lia).
  destruct (lookup_lt_is_Some_2 rows _ Hlt) as [row Hrow].
  rewrite Hrow. simpl. f_equal. apply IH.
  rewrite length_delete by eauto. lia.
Qed.

Lemma draw_rows_length_le {A} n (r : rng) k (rows : list A) :
  (length (draw_rows n r k rows) ≤ n)%nat.
Proof.
  revert k rows. induction n as [|n IH]; intros k rows; simpl; [done|].
  destruct (rows !! _); simpl; [|lia]. specialize (IH (S k) (delete (r k `mod` length rows)%nat rows)). lia.
Qed.

Lemma draw_rows_ext {A} n (r r' : rng) k (rows : list A) :
  (∀ j, (k ≤ j)%nat → r j = r' j) →
  draw_rows n r k rows = draw_rows n r' k rows.
Proof.
  revert k rows. induction n as [|n IH]; intros k rows Heq; [done|].
  simpl. rewrite (Heq k) by lia.
  destruct (rows !! _); [|done]. f_equal. apply IH. intros j Hj. apply Heq. lia.
Qed.

(** The model does not narrow the draw: every arrangement of rows taken
    without replacement is the draw of some generator. *)
Lemma draw_rows_any {A} (roads rows : list A) k :
  roads ⊆+ rows → ∃ r : rng, draw_rows (length roads) r k rows = roads.
Proof.
  revert rows k. induction roads as [|x l IH]; intros rows k Hsub.
  - by exists (fun _ => 0%nat).
  - apply submseteq_cons_l in Hsub as (rest & Hperm & Hl).
    assert (Hin : x ∈ rows) by (rewrite Hperm; left).
    apply list_elem_of_lookup in Hin as [i Hi].
    assert (Hdel : l ⊆+ delete i rows).
    { rewrite Hl. apply Permutation_submseteq.
      apply (Permutation_cons_inv (a := x)).
      rewrite <- Hperm. by apply delete_Permutation. }
    destruct (IH _ (S k) Hdel) as [r' Hr'].
    exists (fun j => if decide (j = k) then i else r' j).
    simpl. rewrite decide_True by done.
    assert (Hlt : (i < length rows)%nat) by (eapply lookup_lt_Some; eauto).
    rewrite Nat.mod_small by done. rewrite Hi. f_equal.
    etrans; [|exact Hr']. apply draw_rows_ext. intros j Hj.
    by rewrite decide_False by lia.
Qed.

Lemma road_ll_ok road :
  road_ok road = true →
  road_ll road = Ret (if usable road then
                        match points_of_road road with
                        | (lat, lon, _) :: _ => Some (lat, lon)
                        | [] => None
                        end
                      else None).
Proof.
  destruct road as [[|v coords]|[|[|v line] geoms]| |]; simpl; done.
Qed.

Lemma roads_loop_ok roads acc :
  Forall (fun road => road_ok road = true) roads →
  roads_loop roads acc = Ret (acc ++ mjoin (points_of_road <$> roads)).
Proof.
  revert acc. induction roads as [|road rest IH]; intros acc Hok; simpl.
  - by rewrite app_nil_r.
  - apply Forall_cons in Hok as [Hroad Hrest].
    rewrite (road_ll_ok road Hroad). simpl.
    destruct road as [[|v coords]|[|[|v line] geoms]| |]; simpl in *;
      try done; rewrite (IH _ Hrest); try done;
      by rewrite <- app_assoc.
Qed.

(** Whatever the roads are, a sampling that returns has added four points
    for each road it kept. *)
Lemma roads_loop_length roads acc pts :
  roads_loop roads acc = Ret pts →
  ∃ k, (k ≤ length roads)%nat ∧ length pts = (length acc + 4 * k)%nat.
Proof.
  revert acc. induction roads as [|road rest IH]; intros acc; simpl.
  - intros [= <-]. exists 0%nat. lia.
  - destruct (road_ll road) as [[[lat lon]|]|] eqn:Hll; simpl; [| |done].
    + intros H. apply IH in H as (k & Hk & ->). exists (S k).
      rewrite length_app. simpl. lia.
    + intros H. apply IH in H as (k & Hk & ->). exists k. lia.
Qed.

Lemma points_of_road_length roads :
  length (mjoin (points_of_road <$> roads)) =
    (4 * length (filter (fun road => usable road = true) roads))%nat.
Proof.
  induction roads as [|road rest IH]; [done|].
  rewrite fmap_cons, filter_cons. simpl. rewrite length_app, IH.
  destruct road as [[|v coords]|[|[|v line] geoms]| |]; simpl; lia.
Qed.

Lemma round_half_even_exact q d : (0 < d)%Z → round_half_even (q * d) d = q.
Proof.
  intros Hd. unfold round_half_even.
  rewrite Z.mod_mul, Z.div_mul by lia.
  by destruct (Z.ltb_spec (2 * 0) d); [|lia].
Qed.

Lemma int_div_pos_pow2 a k :
  (0 < a < 2 ^ 53)%Z → (1 ≤ k ≤ 2)%Z →
  int_div_pos a (2 ^ k) = Ret (a `div` 2 ^ k)%Z.
Proof.
  intros Ha Hk. unfold int_div_pos, nearest_float.
  rewrite Z.log2_pow2 by lia.
  pose proof (Z.log2_spec a ltac:(lia)) as [Hlo Hhi].
  assert (Hla : (0 ≤ Z.log2 a < 53)%Z).
  { split; [apply Z.log2_nonneg|]. apply Z.log2_lt_pow2; lia. }
  set (la := Z.log2 a) in *.
  set (c := (2 ^ (52 - la))%Z).
  assert (Hc : (0 < c)%Z) by (apply Z.pow_pos_nonneg; lia).
  assert (Hk2 : (0 < 2 ^ k)%Z) by (apply Z.pow_pos_nonneg; lia).
  assert (Hnum : scale_num a (la - k - 52) = (a * c * 2 ^ k)%Z).
  { unfold scale_num. rewrite Z.max_r by lia.
    replace (- (la - k - 52))%Z with (52 - la + k)%Z by lia.
    rewrite Z.pow_add_r by lia. fold c. lia. }
  assert (Hden : scale_den (2 ^ k) (la - k - 52) = (2 ^ k)%Z).
  { unfold scale_den. rewrite Z.max_l by lia. simpl. lia. }
  assert (Hcl : (c * 2 ^ la = 2 ^ 52)%Z).
  { unfold c. rewrite <- Z.pow_add_r by lia. f_equal. lia. }
  rewrite Hnum, Hden.
  destruct (Z.ltb_spec (a * c * 2 ^ k) (2 ^ 52 * 2 ^ k)) as [Hlt|_].
  { exfalso. rewrite <- Hcl in Hlt. nia. }
  rewrite Z.max_l by lia. rewrite Hnum, Hden.
  rewrite round_half_even_exact by done.
  destruct (Z.leb_spec 0 (la - k - 52)); [lia|].
  f_equal.
  replace (- (la - k - 52))%Z with (52 - la + k)%Z by lia.
  rewrite Z.pow_add_r by lia. fold c.
  rewrite (Z.mul_comm a c). apply Z.div_mul_cancel_l; lia.
Qed.

(** On a count below [2^53] the true division by 2 or by 4 is exact:
    [int(a / 2)] and [int(a / 4)] are the floor of the quotient. *)
Lemma int_div_small a b :
  (0 ≤ a < 2 ^ 53)%Z → b = 2%Z ∨ b = 4%Z →
  int_div a b = Ret (a `div` b)%Z.
Proof.
  intros Ha Hb. unfold int_div.
  destruct (Z.eqb_spec b 0) as [|_]; [lia|].
  destruct (Z.eqb_spec a 0) as [->|Hne]; [by rewrite Z.div_0_l by lia|].
  rewrite (Z.abs_eq a), (Z.abs_eq b), (Z.sgn_pos a), (Z.sgn_pos b) by lia.
  destruct Hb as [-> | ->].
  - change (int_div_pos a 2) with (int_div_pos a (2 ^ 1)).
    rewrite int_div_pos_pow2 by lia.
    change (2 ^ 1)%Z with 2%Z. simpl. f_equal. lia.
  - change (int_div_pos a 4) with (int_div_pos a (2 ^ 2)).
    rewrite int_div_pos_pow2 by lia.
    change (2 ^ 2)%Z with 4%Z. simpl. f_equal. lia.
Qed.

Lemma int_div_pos_multiple q k :
  (0 < q < 2 ^ 53)%Z → (1 ≤ k ≤ 2)%Z →
  int_div_pos (q * 2 ^ k) (2 ^ k) = Ret q.
Proof.
  intros Hq Hk. unfold int_div_pos, nearest_float.
  rewrite Z.log2_pow2, Z.log2_mul_pow2 by lia.
  pose proof (Z.log2_spec q ltac:(lia)) as [Hlo Hhi].
  assert (Hlq : (0 ≤ Z.log2 q < 53)%Z).
  { split; [apply Z.log2_nonneg|]. apply Z.log2_lt_pow2; lia. }
  set (lq := Z.log2 q) in *.
  set (c := (2 ^ (52 - lq))%Z).
  assert (Hc : (0 < c)%Z) by (apply Z.pow_pos_nonneg; lia).
  assert (Hk2 : (0 < 2 ^ k)%Z) by (apply Z.pow_pos_nonneg; lia).
  replace (k + lq - k - 52)%Z with (lq - 52)%Z by lia.
  assert (Hnum : scale_num (q * 2 ^ k) (lq - 52) = (q * c * 2 ^ k)%Z).
  { unfold scale_num. rewrite Z.max_r by lia.
    replace (- (lq - 52))%Z with (52 - lq)%Z by lia. fold c. lia. }
  assert (Hden : scale_den (2 ^ k) (lq - 52) = (2 ^ k)%Z).
  { unfold scale_den. rewrite Z.max_l by lia. simpl. lia. }
  assert (Hcl : (c * 2 ^ lq = 2 ^ 52)%Z).
  { unfold c. rewrite <- Z.pow_add_r by lia. f_equal. lia. }
  rewrite Hnum, Hden.
  destruct (Z.ltb_spec (q * c * 2 ^ k) (2 ^ 52 * 2 ^ k)) as [Hlt|_].
  { exfalso. rewrite <- Hcl in Hlt. nia. }
  rewrite Z.max_l by lia. rewrite Hnum, Hden.
  rewrite round_half_even_exact by done.
  destruct (Z.leb_spec 0 (lq - 52)).
  - assert (lq = 52) as Hl52 by lia.
    assert (c = 1%Z) as -> by (unfold c; rewrite Hl52; reflexivity).
    replace (lq - 52)%Z with 0%Z by lia. rewrite Z.pow_0_r, !Z.mul_1_r.
    destruct (Z.leb_spec (2 ^ 1024) q) as [Hov|_]; [|done].
    exfalso. assert (2 ^ 53 < 2 ^ 1024)%Z by (apply Z.pow_lt_mono_r; lia). lia.
  - f_equal. replace (- (lq - 52))%Z with (52 - lq)%Z by lia. fold c.
    apply Z.div_mul. lia.
Qed.

(** A multiple of 2 or of 4 is divided exactly as long as the quotient is
    below [2^53]. *)
Lemma int_div_multiple q b :
  (0 ≤ q < 2 ^ 53)%Z → b = 2%Z ∨ b = 4%Z → int_div (q * b) b = Ret q.
Proof.
  intros Hq Hb. unfold int_div.
  destruct (Z.eqb_spec b 0) as [|_]; [lia|].
  destruct (Z.eqb_spec (q * b) 0) as [H0|Hne]; [f_equal; lia|].
  rewrite (Z.abs_eq (q * b)), (Z.abs_eq b), (Z.sgn_pos (q * b)), (Z.sgn_pos b)
    by lia.
  destruct Hb as [-> | ->].
  - change (int_div_pos (q * 2) 2) with (int_div_pos (q * 2 ^ 1) (2 ^ 1)).
    rewrite int_div_pos_multiple by lia. simpl. f_equal. lia.
  - change (int_div_pos (q * 4) 4) with (int_div_pos (q * 2 ^ 2) (2 ^ 2)).
    rewrite int_div_pos_multiple by lia. simpl. f_equal. lia.
Qed.

Lemma int_div_2 a : (0 ≤ a < 2 ^ 53)%Z → int_div a 2 = Ret (a `div` 2)%Z.
Proof. intros. apply int_div_small; auto. Qed.

Lemma int_div_4 a : (0 ≤ a < 2 ^ 53)%Z → int_div a 4 = Ret (a `div` 4)%Z.
Proof. intros. apply int_div_small; auto. Qed.

(** The roads the sampler walks over, for a budget that is not negative. *)
Lemma generate_ll_roads g (n2d : Z) r :
  (0 ≤ n2d < 2 ^ 53)%Z →
  ∃ roads,
    generate_ll g n2d r = roads_loop roads [] ∧
    (if bool_decide (Z.of_nat (length g) > n2d `div` 2)%Z
     then roads ⊆+ g ∧ Z.of_nat (length roads) = (n2d `div` 2)%Z
     else roads = g).
Proof.
  intros Hn. unfold generate_ll. rewrite int_div_2 by done.
  cbn [mbind res_bind].
  assert (0 ≤ n2d `div` 2)%Z by (apply Z.div_pos; lia).
  destruct (Z.gtb_spec (Z.of_nat (length g)) (n2d `div` 2)) as [Hgt|Hle].
  - rewrite bool_decide_eq_true_2 by lia.
    exists (draw_rows (Z.to_nat (n2d `div` 2)) r 0%nat g).
    unfold df_sample.
    destruct (Z.ltb_spec (n2d `div` 2) 0); [lia|].
    destruct (Z.ltb_spec (Z.of_nat (length g)) (n2d `div` 2)); [lia|].
    simpl. split; [done|]. split; [apply draw_rows_submseteq|].
    rewrite draw_rows_length by lia. lia.
  - rewrite bool_decide_eq_false_2 by lia. by exists g.
Qed.

(** A sampling that returns gives a multiple of four points, at most four
    for each road of the budget. *)
Lemma generate_ll_length g (n2d : Z) r pts :
  generate_ll g n2d r = Ret pts →
  ∃ (k : nat) (n_roads : Z),
    int_div n2d 2 = Ret n_roads ∧
    length pts = (4 * k)%nat ∧
    (Z.of_nat k ≤ Z.max 0 n_roads)%Z.
Proof.
  unfold generate_ll.
  destruct (int_div n2d 2) as [n_roads|e]; [|done]. cbn [mbind res_bind].
  destruct (Z.gtb_spec (Z.of_nat (length g)) n_roads) as [Hgt|Hle].
  - unfold df_sample.
    destruct (Z.ltb_spec n_roads 0); [done|].
    destruct (Z.ltb_spec (Z.of_nat (length g)) n_roads); [done|].
    simpl. intros Hloop. apply roads_loop_length in Hloop as (k & Hk & Hlen).
    exists k, n_roads. split; [done|]. split; [done|].
    pose proof (draw_rows_length_le (Z.to_nat n_roads) r 0 g). lia.
  - simpl. intros Hloop. apply roads_loop_length in Hloop as (k & Hk & Hlen).
    exists k, n_roads. split; [done|]. split; [done|]. lia.
Qed.










(** ** Metadata validator *)

Lemma eq_str_true v s : eq_str v s = true ↔ v = PStr s.
Proof.
  destruct v; simpl; try (split; [done|congruence]).
  rewrite String.eqb_eq. split; congruence.
Qed.

Lemma MetaParse_returns reply : ∃ o, MetaParse reply = Ret o.
Proof. unfold MetaParse. destruct (MetaParse_try reply); eauto. Qed.

(** C9, as written, fails on the code: a document with status OK and a
    panorama id but no location is absent, and a document whose panorama id
    is null or empty is returned, not absent. *)
Lemma validate_counterexample :
  MetaParse (MetaJson (PDict [("status", PStr "OK"); ("pano_id", PStr "pano")]))
    = Ret None ∧
  MetaParse (MetaJson (ok_json PNone (PFloat 48) (PFloat 2)))
    = Ret (Some (PNone, PNone, PFloat 48, PFloat 2)) ∧
  MetaParse (MetaJson (ok_json (PStr "") (PFloat 48) (PFloat 2)))
    = Ret (Some (PNone, PStr "", PFloat 48, PFloat 2)).
Proof. repeat split; reflexivity. Qed.

(** C9, amended: the validator never raises. It returns
    [(date, pano_id, lat, lng)] exactly when the reply decodes to an object
    whose status is "OK" and which holds a [pano_id] and a [location] object
    with [lat] and [lng]; [date] is [None] when the object has none, and the
    panorama id is handed over as it is, null or empty included. In every
    other case, any other status, a transport failure and a body that is not
    JSON among them, it returns [None]. *)
Theorem validate_total reply :
  (∃ o, MetaParse reply = Ret o) ∧
  (∀ date pano_id lat lng,
     MetaParse reply = Ret (Some (date, pano_id, lat, lng)) ↔
     ∃ d loc,
       reply = MetaJson (PDict d) ∧
       assoc "status" d = Some (PStr "OK") ∧
       date = default PNone (assoc "date" d) ∧
       assoc "pano_id" d = Some pano_id ∧
       assoc "location" d = Some (PDict loc) ∧
       assoc "lat" loc = Some lat ∧ assoc "lng" loc = Some lng) ∧
  (∀ e, MetaParse (MetaTransportError e) = Ret None) ∧
  MetaParse MetaMalformed = Ret None ∧
  (∀ d status, assoc "status" d = Some status → status ≠ PStr "OK" →
     MetaParse (MetaJson (PDict d)) = Ret None).
Proof.
  split; [apply MetaParse_returns|]. split; [|split; [done|split; [done|]]].
  - intros date pano_id lat lng. split.
    + unfold MetaParse.
      destruct reply as [e| |jsonData]; simpl; [done|done|].
      destruct jsonData as [| | | | | |d]; simpl; try done.
      destruct (assoc "status" d) as [status|] eqn:Hst; simpl; [|done].
      destruct (eq_str status "OK") eqn:Hok; simpl; [|done].
      apply eq_str_true in Hok as ->.
      destruct (assoc "pano_id" d) as [p|] eqn:Hp; simpl; [|done].
      destruct (assoc "location" d) as [location|] eqn:Hl; simpl; [|done].
      destruct location as [| | | | | |loc]; simpl; try done.
      destruct (assoc "lat" loc) as [la|] eqn:Hla; simpl; [|done].
      destruct (assoc "lng" loc) as [ln|] eqn:Hln; simpl; [|done].
      intros [= <- <- <- <-]. exists d, loc. by rewrite Hp, Hl, Hla, Hln.
    + intros (d & loc & -> & Hst & -> & Hp & Hl & Hla & Hln).
      unfold MetaParse. simpl. rewrite Hst. simpl. rewrite Hp. simpl.
      rewrite Hl. simpl. rewrite Hla. simpl. rewrite Hln. done.
  - intros d status Hst Hne. unfold MetaParse. simpl. rewrite Hst. simpl.
    destruct (eq_str status "OK") eqn:Hok; [|done].
    by apply eq_str_true in Hok.
Qed.

(** ** Image fetcher *)

Section FetcherProps.

Variable py_str : pyval -> string.
Variables (gl : globals) (Lat Lon : float) (Head : Z) (SaveLoc : string).

#[local] Abbreviation meta := (MetaRequest (MetaUrl py_str gl Lat Lon Head)).
#[local] Abbreviation image p := (ImageRequest (MyUrl py_str gl Lat Lon Head) p).
#[local] Abbreviation attempt := (attempt_try py_str gl Lat Lon Head SaveLoc).
#[local] Abbreviation loop k a net :=
  (retry_loop py_str k a gl Lat Lon Head SaveLoc net).
#[local] Abbreviation tgt a := (target_of py_str Head SaveLoc a).

Lemma attempt_no_metadata a :
  kind_of a = NoMetadata → attempt a = ([meta], Ret None).
Proof.
  unfold kind_of, attempt_try.
  destruct (MetaParse_returns (meta_of a)) as [o ->].
  destruct o as [[[[date pano_id] lat] lon]|]; [|done].
  destruct (truthy pano_id); [|done].
  by destruct (retrieve_of a).
Qed.

Lemma attempt_http_failure a :
  kind_of a = HttpFailure →
  attempt a = ([meta; image (tgt a)], Raise HTTPError).
Proof.
  unfold kind_of, attempt_try, target_of.
  destruct (MetaParse_returns (meta_of a)) as [o ->].
  destruct o as [[[[date pano_id] lat] lon]|]; [|done].
  destruct (truthy pano_id); [|done].
  by destruct (retrieve_of a).
Qed.

Lemma attempt_aborted a :
  kind_of a = Aborted →
  ∃ created : bool,
    attempt a = (meta :: image (tgt a) ::
                   (if created then [FileWritten (tgt a)] else []),
                 Raise OtherError).
Proof.
  unfold kind_of, attempt_try, target_of.
  destruct (MetaParse_returns (meta_of a)) as [o ->].
  destruct o as [[[[date pano_id] lat] lon]|]; [|done].
  destruct (truthy pano_id); [|done].
  destruct (retrieve_of a) as [| |created]; try done. intros _. by exists created.
Qed.

Lemma attempt_downloaded a :
  kind_of a = Downloaded →
  ∃ date pano_id lat lon,
    MetaParse (meta_of a) = Ret (Some (date, pano_id, lat, lon)) ∧
    truthy pano_id = true ∧
    attempt a =
      ([meta; image (tgt a); FileWritten (tgt a)],
       Ret (Some (Some (date, pano_id, lat, lon,
                        make_filename py_str lat lon Head), 1))).
Proof.
  unfold kind_of, attempt_try, target_of.
  destruct (MetaParse_returns (meta_of a)) as [o Ho]. rewrite Ho.
  destruct o as [[[[date pano_id] lat] lon]|]; [|done].
  destruct (truthy pano_id) eqn:Hp; [|done].
  destruct (retrieve_of a); try done. intros _.
  by exists date, pano_id, lat, lon.
Qed.

(** One turn of the loop, by the kind of the attempt. *)
Lemma loop_no_metadata k a net :
  kind_of (net a) = NoMetadata →
  loop (S k) a net = (meta :: fst (loop k (S a) net), snd (loop k (S a) net)).
Proof.
  intros Hk. simpl. rewrite (attempt_no_metadata _ Hk).
  by destruct (retry_loop _ _ _ _ _ _ _ _ _).
Qed.

Lemma loop_http_failure k a net :
  kind_of (net a) = HttpFailure →
  loop (S k) a net =
    (meta :: image (tgt (net a)) :: Sleep 5 :: fst (loop k (S a) net),
     snd (loop k (S a) net)).
Proof.
  intros Hk. simpl. rewrite (attempt_http_failure _ Hk).
  by destruct (retry_loop _ _ _ _ _ _ _ _ _).
Qed.

Lemma loop_aborted k a net :
  kind_of (net a) = Aborted →
  ∃ created : bool,
    loop (S k) a net =
      (meta :: image (tgt (net a)) ::
         (if created then [FileWritten (tgt (net a))] else []),
       (None, 0%Z)).
Proof.
  intros Hk. destruct (attempt_aborted _ Hk) as [created Hc].
  exists created. simpl. by rewrite Hc.
Qed.

Lemma loop_downloaded k a net :
  kind_of (net a) = Downloaded →
  ∃ date pano_id lat lon,
    MetaParse (meta_of (net a)) = Ret (Some (date, pano_id, lat, lon)) ∧
    truthy pano_id = true ∧
    loop (S k) a net =
      ([meta; image (tgt (net a)); FileWritten (tgt (net a))],
       (Some (date, pano_id, lat, lon, make_filename py_str lat lon Head), 1%Z)).
Proof.
  intros Hk.
  destruct (attempt_downloaded _ Hk) as (date & pano_id & lat & lon & Hm & Hp & Ha).
  exists date, pano_id, lat, lon. split; [done|]. split; [done|].
  simpl. by rewrite Ha.
Qed.

(** What every trace of the loop looks like: no more attempts than turns,
    every request for the point asked for, every pause of 5 seconds. *)
Lemma loop_trace k a net :
  (attempts_made (fst (loop k a net)) ≤ k)%nat ∧
  Forall (fun u => u = MetaUrl py_str gl Lat Lon Head)
    (meta_requests (fst (loop k a net))) ∧
  Forall (fun up => up.1 = MyUrl py_str gl Lat Lon Head)
    (image_requests (fst (loop k a net))) ∧
  Forall (fun s => s = 5%Z) (sleeps (fst (loop k a net))).
Proof.
  revert a. induction k as [|k IH]; intros a.
  - simpl. repeat split; (lia || constructor).
  - destruct (IH (S a)) as (Hn & Hm & Hi & Hs). unfold attempts_made in *.
    destruct (kind_of (net a)) eqn:Hk.
    + rewrite (loop_no_metadata _ _ _ Hk). simpl.
      repeat split; [lia|by constructor|done|done].
    + destruct (loop_downloaded k _ _ Hk) as (? & ? & ? & ? & _ & _ & ->).
      simpl. repeat split; [lia|by repeat constructor..].
    + rewrite (loop_http_failure _ _ _ Hk). simpl.
      repeat split; [lia|by constructor..].
    + destruct (loop_aborted k _ _ Hk) as [created ->].
      destruct created; simpl; repeat split; (lia || by repeat constructor).
Qed.

(** The turns the loop passes through without a decision. *)
Lemma loop_skip net i k a :
  (∀ j, (j < i)%nat → goes_on (net (a + j)%nat)) →
  ∃ pre,
    fst (loop (i + k) a net) = pre ++ fst (loop k (a + i) net) ∧
    snd (loop (i + k) a net) = snd (loop k (a + i) net) ∧
    attempts_made pre = i ∧ writes pre = [].
Proof.
  revert a. induction i as [|i IH]; intros a Hgo.
  - exists []. by rewrite Nat.add_0_r.
  - destruct (IH (S a)) as (pre & Hev & Hout & Hn & Hw).
    { intros j Hj. replace (S a + j)%nat with (a + S j)%nat by lia.
      apply Hgo. lia. }
    replace (S a + i)%nat with (a + S i)%nat in * by lia.
    specialize (Hgo 0%nat ltac:(lia)). rewrite Nat.add_0_r in Hgo.
    unfold attempts_made in *.
    destruct Hgo as [Hk|Hk].
    + exists (meta :: pre). simpl Nat.add.
      rewrite (loop_no_metadata _ _ _ Hk). simpl. rewrite Hev, Hout, Hn, Hw. done.
    + exists (meta :: image (tgt (net a)) :: Sleep 5 :: pre). simpl Nat.add.
      rewrite (loop_http_failure _ _ _ Hk). simpl. rewrite Hev, Hout, Hn, Hw. done.
Qed.

(** A loop with a turn left starts with a metadata request for the point. *)
Lemma loop_head k a net :
  ∃ rest, fst (loop (S k) a net) = meta :: rest.
Proof.
  destruct (kind_of (net a)) eqn:Hk.
  - rewrite (loop_no_metadata _ _ _ Hk). eauto.
  - destruct (loop_downloaded k _ _ Hk) as (? & ? & ? & ? & _ & _ & ->). eauto.
  - rewrite (loop_http_failure _ _ _ Hk). eauto.
  - destruct (loop_aborted k _ _ Hk) as [created ->]. eauto.
Qed.

(** Without usable metadata at any turn the loop only asks. *)
Lemma loop_all_absent net k a :
  (∀ j, (j < k)%nat → kind_of (net (a + j)%nat) = NoMetadata) →
  loop k a net = (replicate k meta, (None, 0%Z)).
Proof.
  revert a. induction k as [|k IH]; intros a Hno; [done|].
  rewrite loop_no_metadata.
  - rewrite IH; [done|]. intros j Hj.
    replace (S a + j)%nat with (a + S j)%nat by lia. apply Hno. lia.
  - specialize (Hno 0%nat ltac:(lia)). by rewrite Nat.add_0_r in Hno.
Qed.

Lemma writes_replicate_meta k : writes (replicate k meta) = [].
Proof. induction k; [done|]. simpl. done. Qed.

(** A success is decided at a turn that downloads, after turns that all
    went on. *)
Lemma loop_success_inv net k a md flag :
  snd (loop k a net) = (Some md, flag) →
  ∃ i, (i < k)%nat ∧ (∀ j, (j < i)%nat → goes_on (net (a + j)%nat)) ∧
       kind_of (net (a + i)%nat) = Downloaded.
Proof.
  revert a. induction k as [|k IH]; intros a; [done|].
  destruct (kind_of (net a)) eqn:Hk.
  - rewrite (loop_no_metadata _ _ _ Hk). simpl. intros H.
    destruct (IH _ H) as (i & Hi & Hgo & Hd). exists (S i).
    split; [lia|]. split.
    + intros [|j] Hj; [rewrite Nat.add_0_r; by left|].
      replace (a + S j)%nat with (S a + j)%nat by lia. apply Hgo. lia.
    + by replace (a + S i)%nat with (S a + i)%nat by lia.
  - intros _. exists 0%nat. rewrite Nat.add_0_r.
    split; [lia|]. split; [intros; lia|done].
  - rewrite (loop_http_failure _ _ _ Hk). simpl. intros H.
    destruct (IH _ H) as (i & Hi & Hgo & Hd). exists (S i).
    split; [lia|]. split.
    + intros [|j] Hj; [rewrite Nat.add_0_r; by right|].
      replace (a + S j)%nat with (S a + j)%nat by lia. apply Hgo. lia.
    + by replace (a + S i)%nat with (S a + i)%nat by lia.
  - destruct (loop_aborted k _ _ Hk) as [created ->]. done.
Qed.

(** A metadata request that fails, with an HTTP error or any other, gives
    no usable metadata: the validator swallows the exception. *)
Lemma kind_of_transport_error a e :
  meta_of a = MetaTransportError e → kind_of a = NoMetadata.
Proof. unfold kind_of. by intros ->. Qed.

(** C5, amended: the fetcher makes at most [retries] attempts, 3 by
    default, and exactly that many when no attempt settles the call; all of
    them are for the point it was asked for, and every pause lasts 5
    seconds. An attempt whose download raises an HTTP error is followed by
    a pause of 5 seconds and, while attempts are left, by a new attempt for
    the same point; when none is left the call fails. An attempt without
    usable metadata, the one whose metadata request fails with an HTTP
    error included, is followed by the next attempt without a pause. An
    attempt whose download raises another exception ends the call at once
    with [(None, 0)]. When no attempt gets usable metadata, the call
    returns [(None, 0)] after [retries] attempts that only queried the
    metadata, and no file was written. *)
Theorem fetch_retries (retries : Z) (net : network) :
  let n := Z.to_nat retries in
  let ev := fst (GetStreetLL py_str gl Lat Lon Head SaveLoc retries net) in
  let out := snd (GetStreetLL py_str gl Lat Lon Head SaveLoc retries net) in
  ((attempts_made ev ≤ n)%nat ∧
   GetStreetLL_default py_str gl Lat Lon Head SaveLoc net
     = GetStreetLL py_str gl Lat Lon Head SaveLoc 3 net ∧
   Forall (fun u => u = MetaUrl py_str gl Lat Lon Head) (meta_requests ev) ∧
   Forall (fun up => up.1 = MyUrl py_str gl Lat Lon Head) (image_requests ev) ∧
   Forall (fun s => s = 5%Z) (sleeps ev)) ∧
  ((∀ i, (i < n)%nat → goes_on (net i)) →
   attempts_made ev = n ∧ out = (None, 0%Z) ∧ writes ev = []) ∧
  (∀ i, (i < n)%nat → (∀ j, (j < i)%nat → goes_on (net j)) →
     (kind_of (net i) = HttpFailure →
      ∃ pre post,
        ev = pre ++ [meta; image (tgt (net i)); Sleep 5] ++ post ∧
        attempts_made pre = i ∧
        ((S i < n)%nat → ∃ post', post = meta :: post') ∧
        (S i = n → post = [] ∧ out = (None, 0%Z))) ∧
     (kind_of (net i) = NoMetadata →
      ∃ pre post,
        ev = pre ++ [meta] ++ post ∧
        attempts_made pre = i ∧
        ((S i < n)%nat → ∃ post', post = meta :: post') ∧
        (S i = n → post = [] ∧ out = (None, 0%Z))) ∧
     (∀ e, meta_of (net i) = MetaTransportError e →
           kind_of (net i) = NoMetadata) ∧
     (kind_of (net i) = Aborted →
      out = (None, 0%Z) ∧ attempts_made ev = S i)) ∧
  ((∀ i, (i < n)%nat → kind_of (net i) = NoMetadata) →
   out = (None, 0%Z) ∧ ev = replicate n meta ∧ writes ev = []).
Proof.
  intros n ev out. subst ev out. unfold GetStreetLL_default, GetStreetLL.
  fold n. split; [|split; [|split]].
  - destruct (loop_trace n 0 net) as (? & ? & ? & ?).
    repeat split; done.
  - intros Hgo.
    destruct (loop_skip net n 0 0) as (pre & Hev & Hout & Hn & Hw);
      [by intros j Hj; apply Hgo|].
    rewrite Nat.add_0_r in Hev, Hout. simpl in Hev, Hout.
    rewrite app_nil_r in Hev. rewrite Hev, Hout. done.
  - intros i Hi Hgo.
    destruct (loop_skip net i (n - i) 0) as (pre & Hev & Hout & Hn & Hw);
      [done|].
    replace (i + (n - i))%nat with n in * by lia. simpl in Hev, Hout.
    destruct (n - i)%nat as [|k] eqn:Hk; [lia|].
    split; [|split; [|split]].
    + intros Hkind. rewrite (loop_http_failure _ _ _ Hkind) in Hev, Hout.
      simpl in Hev, Hout.
      exists pre, (fst (loop k (S i) net)). split; [done|]. split; [done|].
      split.
      * intros Hlt. destruct k as [|k]; [lia|]. apply loop_head.
      * intros Hlast. assert (k = 0%nat) as -> by lia. by rewrite Hout.
    + intros Hkind. rewrite (loop_no_metadata _ _ _ Hkind) in Hev, Hout.
      simpl in Hev, Hout.
      exists pre, (fst (loop k (S i) net)). split; [done|]. split; [done|].
      split.
      * intros Hlt. destruct k as [|k]; [lia|]. apply loop_head.
      * intros Hlast. assert (k = 0%nat) as -> by lia. by rewrite Hout.
    + intros e. apply kind_of_transport_error.
    + intros Hkind. destruct (loop_aborted k _ _ Hkind) as [created Hl].
      rewrite Hl in Hev, Hout. simpl in Hev, Hout. split; [done|].
      rewrite Hev. unfold attempts_made in *. unfold meta_requests in *.
      rewrite omap_app, length_app, Hn. destruct created; simpl; lia.
  - intros Hno. rewrite loop_all_absent by done. simpl.
    split; [done|]. split; [done|]. apply writes_replicate_meta.
Qed.




(** The first attempt suffices when the provider serves the point. *)
Lemma fetch_first_attempt (retries : Z) (net : network) :
  (0 < retries)%Z → kind_of (net 0%nat) = Downloaded →
  ∃ md, snd (GetStreetLL py_str gl Lat Lon Head SaveLoc retries net)
          = (Some md, 1%Z).
Proof.
  intros Hr Hk. unfold GetStreetLL.
  destruct (Z.to_nat retries) as [|k] eqn:Hn; [lia|].
  destruct (loop_downloaded k _ _ Hk) as (? & ? & ? & ? & _ & _ & ->). eauto.
Qed.

(** The flag is 1 with metadata and 0 without. *)
Lemma loop_flag k a net :
  snd (loop k a net) = (None, 0%Z) ∨ ∃ md, snd (loop k a net) = (Some md, 1%Z).
Proof.
  revert a. induction k as [|k IH]; intros a; [by left|].
  destruct (kind_of (net a)) eqn:Hk.
  - rewrite (loop_no_metadata _ _ _ Hk). apply IH.
  - destruct (loop_downloaded k _ _ Hk) as (? & ? & ? & ? & _ & _ & ->). eauto.
  - rewrite (loop_http_failure _ _ _ Hk). apply IH.
  - destruct (loop_aborted k _ _ Hk) as [created ->]. by left.
Qed.

End FetcherProps.


(** C5, as written, fails on the code: here every attempt fails with an
    HTTP error, that of the metadata request, and the fetcher makes its
    three attempts without a single pause. *)
Lemma fetch_retries_counterexample :
  let call :=
    GetStreetLL_default str_example gl_example 48 2 92 "./out" net_meta_http in
  (∀ i, meta_of (net_meta_http i) = MetaTransportError HTTPError) ∧
  attempts_made (fst call) = 3%nat ∧
  sleeps (fst call) = [] ∧
  snd call = (None, 0%Z).
Proof. vm_compute. done. Qed.

(** ** Acquisition driver *)

Section DriverProps.

Variable py_str : pyval -> string.
Variables (gl : globals) (g : gdf) (total : Z) (save_dir : string).

#[local] Abbreviation step r rn st :=
  (round_step py_str gl g total save_dir r rn st).
#[local] Abbreviation loop fuel round rngs world st :=
  (rounds py_str fuel round gl g total save_dir rngs world st).

(** A round adds at most one image for each point it dispatches, and only
    appends to the ledger and to the trace. *)
Lemma dispatch_images data_list j rn st :
  (images_downloaded st
     ≤ images_downloaded (dispatch py_str gl save_dir data_list j rn st)
     ≤ images_downloaded st + Z.of_nat (length data_list))%Z.
Proof.
  revert j st. induction data_list as [|[[lat lon] head] rest IH];
    intros j st; simpl; [lia|].
  unfold GetStreetLL_default, GetStreetLL.
  destruct (loop_flag py_str gl lat lon head save_dir (Z.to_nat 3) 0 (rn j))
    as [Hf|[md Hf]];
    destruct (retry_loop _ _ _ _ _ _ _ _ _) as [ev [m n]];
    simpl in Hf; injection Hf as -> ->;
    match goal with |- context [dispatch _ _ _ _ _ _ ?s] =>
      specialize (IH (S j) s) end; simpl in IH; lia.
Qed.

(** Below [2^53] the budget is the target less the floor of a quarter of
    the tally. *)
Lemma round_budget_small st :
  (0 ≤ images_downloaded st < 2 ^ 53)%Z →
  round_budget total st = Ret (total - images_downloaded st `div` 4)%Z.
Proof. intros Hst. unfold round_budget. by rewrite int_div_4 by done. Qed.

(** What a pass that goes on has done. *)
Lemma step_continue r rn st st' :
  step r rn st = Continue st' →
  (images_downloaded st < total * 4)%Z ∧
  (0 < num_workers gl)%Z ∧
  ∃ n2d p pts,
    round_budget total st = Ret n2d ∧
    generate_ll g n2d r = Ret (p :: pts) ∧
    st' = dispatch py_str gl save_dir (p :: pts) 0 rn st.
Proof.
  unfold round_step.
  destruct (Z.ltb_spec (images_downloaded st) (total * 4)); [|done].
  destruct (round_budget total st) as [n2d|e]; [|done]. cbn [mbind res_bind].
  destruct (generate_ll g n2d r) as [[|p pts]|e] eqn:Hgen; try done.
  destruct (Z.leb_spec (num_workers gl) 0); [done|].
  intros [= <-]. split; [done|]. split; [done|]. by exists n2d, p, pts.
Qed.

(** A pass below the quota for which the sampler returns points, with a
    pool that can be made, goes on. *)
Lemma step_goes_on r rn st n2d p pts :
  (images_downloaded st < total * 4)%Z →
  round_budget total st = Ret n2d →
  generate_ll g n2d r = Ret (p :: pts) →
  (0 < num_workers gl)%Z →
  step r rn st = Continue (dispatch py_str gl save_dir (p :: pts) 0 rn st).
Proof.
  intros Hlt Hb Hgen Hw. unfold round_step.
  destruct (Z.ltb_spec (images_downloaded st) (total * 4)); [|lia].
  rewrite Hb. cbn [mbind res_bind]. rewrite Hgen.
  by destruct (Z.leb_spec (num_workers gl) 0); [lia|].
Qed.

(** The tally never reaches the quota: a round adds at most four images for
    each road of half the budget, which is too few. *)
Lemma step_below_quota r rn st st' :
  (total ≤ 2 ^ 51)%Z →
  (0 ≤ images_downloaded st < total * 4)%Z →
  step r rn st = Continue st' →
  (0 ≤ images_downloaded st' < total * 4)%Z.
Proof.
  intros Hsmall Hst Hstep.
  destruct (step_continue _ _ _ _ Hstep)
    as (_ & _ & n2d & p & pts & Hb & Hgen & ->).
  rewrite round_budget_small in Hb by lia. injection Hb as <-.
  destruct (generate_ll_length _ _ _ _ Hgen) as (k & n_roads & Hq & Hlen & Hk).
  rewrite int_div_2 in Hq by (Z.div_mod_to_equations; lia).
  injection Hq as <-.
  pose proof (dispatch_images (p :: pts) 0 rn st) as Hd.
  rewrite Hlen in Hd. Z.div_mod_to_equations. lia.
Qed.

Lemma step_keeps_nonneg r rn st st' :
  (0 ≤ images_downloaded st)%Z → step r rn st = Continue st' →
  (0 ≤ images_downloaded st')%Z.
Proof.
  intros Hst Hstep.
  destruct (step_continue _ _ _ _ Hstep) as (_ & _ & n2d & p & pts & _ & _ & ->).
  pose proof (dispatch_images (p :: pts) 0 rn st). lia.
Qed.

Lemma step_quota r rn st :
  step r rn st = Stopped QuotaReached ↔ (total * 4 ≤ images_downloaded st)%Z.
Proof.
  unfold round_step.
  destruct (Z.ltb_spec (images_downloaded st) (total * 4)).
  - split; [|lia].
    destruct (round_budget total st) as [n2d|e]; [|done].
    cbn [mbind res_bind].
    destruct (generate_ll g _ r) as [[|p pts]|e]; try done.
    by destruct (num_workers gl <=? 0)%Z.
  - split; [lia|done].
Qed.

Lemma step_exhausted r rn st :
  step r rn st = Stopped Exhausted ↔
  (images_downloaded st < total * 4)%Z ∧
  ∃ n2d, round_budget total st = Ret n2d ∧ generate_ll g n2d r = Ret [].
Proof.
  unfold round_step.
  destruct (Z.ltb_spec (images_downloaded st) (total * 4)).
  - destruct (round_budget total st) as [n2d|e]; cbn [mbind res_bind].
    2:{ split; [done|]. by intros (_ & n & ? & _). }
    destruct (generate_ll g n2d r) as [[|p pts]|e] eqn:Hgen.
    + split; [|done]. intros _. split; [done|]. by exists n2d.
    + destruct (num_workers gl <=? 0)%Z; (split; [done|]);
        intros (_ & n & [= <-] & Hg); congruence.
    + split; [done|]. intros (_ & n & [= <-] & Hg). congruence.
  - split; [done|]. intros [? _]. lia.
Qed.

(** The passes that end the call with an exception. *)
Lemma step_raised r rn st e :
  step r rn st = Raised e ↔
  (images_downloaded st < total * 4)%Z ∧
  (round_budget total st = Raise e ∨
   ∃ n2d, round_budget total st = Ret n2d ∧
     (generate_ll g n2d r = Raise e ∨
      (∃ p pts, generate_ll g n2d r = Ret (p :: pts)) ∧
      (num_workers gl ≤ 0)%Z ∧ e = PoolValueError)).
Proof.
  unfold round_step.
  destruct (Z.ltb_spec (images_downloaded st) (total * 4)).
  - destruct (round_budget total st) as [n2d|e']; cbn [mbind res_bind].
    2:{ split.
        - intros [= ->]. split; [done|]. by left.
        - intros (_ & [[= ->]|(n & ? & _)]); done. }
    destruct (generate_ll g n2d r) as [[|p pts]|e'] eqn:Hgen.
    + split; [done|].
      intros (_ & [?|(n & [= <-] & [Hg|((? & ? & Hg) & _)])]); congruence.
    + destruct (Z.leb_spec (num_workers gl) 0).
      * split.
        -- intros [= <-]. split; [done|]. right. exists n2d.
           split; [done|]. right. eauto.
        -- intros (_ & [?|(n & [= <-] & [Hg|(_ & _ & ->)])]);
             [done|congruence|done].
      * split; [done|].
        intros (_ & [?|(n & [= <-] & [Hg|(_ & ? & _)])]);
          [done|congruence|lia].
    + split.
      * intros [= ->]. split; [done|]. right. exists n2d. split; [done|].
        by left.
      * intros (_ & [?|(n & [= <-] & [Hg|((? & ? & Hg) & _)])]);
          congruence.
  - split; [done|]. intros [? _]. lia.
Qed.

(** Where the loop stops, the stop condition holds. *)
Lemma loop_stop rngs world fuel round st why st' :
  (0 ≤ images_downloaded st)%Z →
  loop fuel round rngs world st = Some (Ret (why, st')) →
  (0 ≤ images_downloaded st')%Z ∧
  ∃ round', step (rngs round') (world round') st' = Stopped why.
Proof.
  revert round st. induction fuel as [|fuel IH]; intros round st Hst; [done|].
  simpl. destruct (step (rngs round) (world round) st) as [w|st1|e] eqn:Hstep.
  - intros [= <- <-]. eauto.
  - apply IH. by eapply step_keeps_nonneg.
  - done.
Qed.

(** C3, as written, fails on the code: the acquisition also ends when
    neither stop condition holds. Here the tally is 0, below [4 * 10], and
    the sampler does not return an empty sequence: it raises on a row
    without geometry, and the exception ends the call. *)
Lemma driver_rounds_counterexample :
  let g := [road 2 48; MissingGeometry] in
  let st := DriverState 0 [] [] in
  rounds str_example 3 0 gl_example g 10 "./out" (fun _ _ => 0%nat) world_ok st
    = Some (Raise AttributeError) ∧
  (images_downloaded st < 4 * 10)%Z ∧
  round_budget 10 st = Ret 10%Z ∧
  generate_ll g 10 (fun _ => 0%nat) ≠ Ret [].
Proof. vm_compute. split_and!; done. Qed.

(** C3, amended: in a state with a tally from 0 to below [2^53], a pass
    through the loop asks the sampler for [total - floor(images / 4)]
    points. A pass ends in one of four ways, each met exactly under its
    condition. It stops the acquisition on the quota when the tally has
    reached [4 * total]. It stops it as exhausted when the tally is below
    [4 * total] and the sampler returns no point. It goes on, to a next
    pass on the state in which the points were dispatched, when the tally
    is below [4 * total], the sampler returns points and the pool of
    workers can be made. It ends the call with an exception when the tally
    is below [4 * total] and the sampler raises, or it returns points and
    the number of workers is not positive. Either stop makes the driver
    return normally with the state as it is; and whenever the driver
    returns normally, one of the two stop conditions holds in the state it
    returns. *)
Theorem driver_rounds rngs world round st :
  (0 ≤ images_downloaded st < 2 ^ 53)%Z →
  let r := rngs round in
  let rn := world round in
  let budget := (total - images_downloaded st `div` 4)%Z in
  round_budget total st = Ret budget ∧
  (step r rn st = Stopped QuotaReached ↔
   (total * 4 ≤ images_downloaded st)%Z) ∧
  (step r rn st = Stopped Exhausted ↔
   (images_downloaded st < total * 4)%Z ∧ generate_ll g budget r = Ret []) ∧
  (∀ st', step r rn st = Continue st' ↔
     (images_downloaded st < total * 4)%Z ∧
     (0 < num_workers gl)%Z ∧
     ∃ p pts, generate_ll g budget r = Ret (p :: pts) ∧
              st' = dispatch py_str gl save_dir (p :: pts) 0 rn st) ∧
  (∀ e, step r rn st = Raised e ↔
     (images_downloaded st < total * 4)%Z ∧
     (generate_ll g budget r = Raise e ∨
      (∃ p pts, generate_ll g budget r = Ret (p :: pts)) ∧
      (num_workers gl ≤ 0)%Z ∧ e = PoolValueError)) ∧
  (∀ fuel,
     loop (S fuel) round rngs world st =
     match step r rn st with
     | Stopped why => Some (Ret (why, st))
     | Continue st' => loop fuel (S round) rngs world st'
     | Raised e => Some (Raise e)
     end) ∧
  (∀ fuel why st',
     loop fuel round rngs world st = Some (Ret (why, st')) →
     match why with
     | QuotaReached => (total * 4 ≤ images_downloaded st')%Z
     | Exhausted =>
         (images_downloaded st' < total * 4)%Z ∧
         ∃ round' n2d,
           round_budget total st' = Ret n2d ∧
           generate_ll g n2d (rngs round') = Ret []
     end).
Proof.
  intros Hst r rn budget.
  assert (Hb : round_budget total st = Ret budget)
    by (by apply round_budget_small).
  split; [done|]. split; [apply step_quota|]. split; [|split; [|split; [|split]]].
  - rewrite step_exhausted. split.
    + intros (Hlt & n2d & Hn & Hgen). rewrite Hb in Hn. injection Hn as <-.
      done.
    + intros (Hlt & Hgen). split; [done|]. by exists budget.
  - intros st'. split.
    + intros Hstep.
      destruct (step_continue _ _ _ _ Hstep)
        as (Hlt & Hw & n2d & p & pts & Hn & Hgen & ->).
      rewrite Hb in Hn. injection Hn as <-. eauto 8.
    + intros (Hlt & Hw & p & pts & Hgen & ->). by eapply step_goes_on.
  - intros e. rewrite step_raised, Hb. split.
    + intros (Hlt & [?|(n2d & [= <-] & H)]); [done|]. done.
    + intros (Hlt & H). split; [done|]. right. by exists budget.
  - intros fuel. done.
  - intros fuel why st' Hloop.
    destruct (loop_stop _ _ _ _ _ _ _ (proj1 Hst) Hloop)
      as (Hst' & round' & Hstep).
    destruct why.
    + by apply step_quota in Hstep.
    + apply step_exhausted in Hstep as (Hlt & n2d & Hn & Hgen).
      split; [done|]. by exists round', n2d.
Qed.

(** A budget of 0 or 1 yields no point. *)
Lemma generate_ll_half_zero (n2d : Z) r :
  (n2d `div` 2 = 0)%Z → generate_ll g n2d r = Ret [].
Proof.
  intros Hn.
  assert (n2d = 0 ∨ n2d = 1)%Z as Hcase by (Z.div_mod_to_equations; lia).
  unfold generate_ll.
  assert (Hq : int_div n2d 2 = Ret 0%Z) by (by destruct Hcase as [-> | ->]).
  rewrite Hq. cbn [mbind res_bind]. unfold df_sample.
  destruct (Z.gtb_spec (Z.of_nat (length g)) 0) as [Hlen|Hlen].
  - destruct (Z.ltb_spec 0 0); [lia|].
    destruct (Z.ltb_spec (Z.of_nat (length g)) 0); [lia|done].
  - destruct g; [done|simpl in Hlen; lia].
Qed.

(** A pass whose budget is 1 stops the loop as exhausted. *)
Lemma step_budget_one r rn st :
  (0 ≤ images_downloaded st < 2 ^ 53)%Z →
  round_budget total st = Ret 1%Z →
  (images_downloaded st < total * 4)%Z ∧ step r rn st = Stopped Exhausted.
Proof.
  intros Hst Hb.
  assert (Hlt : (images_downloaded st < total * 4)%Z).
  { rewrite round_budget_small in Hb by done. injection Hb as Hb.
    Z.div_mod_to_equations. lia. }
  split; [done|]. apply step_exhausted. split; [done|].
  exists 1%Z. split; [done|]. by apply generate_ll_half_zero.
Qed.

(** C2: a budget whose half rounds down to zero, that is 0 or 1, makes the
    sampler return no point from any dataset, non-empty ones included; and
    when the budget of a round is 1 (the tally being below [2^53]) the
    driver stops as exhausted, with the tally still below [4 * total]. *)
Theorem budget_one_exhausts (n2d : Z) r rngs world round st fuel :
  ((n2d `div` 2 = 0)%Z ↔ n2d = 0%Z ∨ n2d = 1%Z) ∧
  ((n2d `div` 2 = 0)%Z → generate_ll g n2d r = Ret []) ∧
  ((0 ≤ images_downloaded st < 2 ^ 53)%Z → round_budget total st = Ret 1%Z →
   (images_downloaded st < total * 4)%Z ∧
   step (rngs round) (world round) st = Stopped Exhausted ∧
   loop (S fuel) round rngs world st = Some (Ret (Exhausted, st))).
Proof.
  split; [Z.div_mod_to_equations; lia|].
  split; [apply generate_ll_half_zero|].
  intros Hst Hb.
  destruct (step_budget_one (rngs round) (world round) st Hst Hb)
    as [Hlt Hstep].
  split; [done|]. split; [done|]. simpl. by rewrite Hstep.
Qed.

(** Whatever the provider does, the loop returns only as exhausted, with
    the tally below the quota. *)
Lemma loop_below_quota rngs world fuel round st why st' :
  (total ≤ 2 ^ 51)%Z →
  (0 ≤ images_downloaded st < total * 4)%Z →
  loop fuel round rngs world st = Some (Ret (why, st')) →
  why = Exhausted ∧ (0 ≤ images_downloaded st' < total * 4)%Z.
Proof.
  intros Hsmall.
  revert round st. induction fuel as [|fuel IH]; intros round st Hst; [done|].
  simpl. destruct (step (rngs round) (world round) st) as [w|st1|e] eqn:Hstep.
  - intros [= <- <-]. split; [|done].
    destruct w; [|done]. apply step_quota in Hstep. lia.
  - apply IH. by eapply step_below_quota.
  - done.
Qed.

(** More fuel does not change a result. *)
Lemma loop_more_fuel rngs world fuel extra round st out :
  loop fuel round rngs world st = Some out →
  loop (fuel + extra) round rngs world st = Some out.
Proof.
  revert round st. induction fuel as [|fuel IH]; intros round st; [done|].
  simpl. destruct (step (rngs round) (world round) st); try done. apply IH.
Qed.

Lemma loop_deterministic rngs world fuel fuel' round st out out' :
  loop fuel round rngs world st = Some out →
  loop fuel' round rngs world st = Some out' →
  out = out'.
Proof.
  intros H H'. apply (loop_more_fuel _ _ _ fuel') in H.
  apply (loop_more_fuel _ _ _ fuel) in H'.
  rewrite (Nat.add_comm fuel' fuel) in H'. congruence.
Qed.

(** A point the provider serves at the first attempt counts for one image
    and one file written. *)
Lemma dispatch_all_ok data_list j rn st :
  (∀ i, kind_of (rn i 0%nat) = Downloaded) →
  images_downloaded (dispatch py_str gl save_dir data_list j rn st)
    = (images_downloaded st + Z.of_nat (length data_list))%Z ∧
  length (writes (trace (dispatch py_str gl save_dir data_list j rn st)))
    = (length (writes (trace st)) + length data_list)%nat.
Proof.
  intros Hok. revert j st.
  induction data_list as [|[[lat lon] head] rest IH]; intros j st; simpl;
    [split; lia|].
  unfold GetStreetLL_default, GetStreetLL.
  destruct (loop_downloaded py_str gl lat lon head save_dir 2 0 (rn j) (Hok j))
    as (? & ? & ? & ? & _ & _ & Hl).
  change (Z.to_nat 3) with 3%nat. rewrite Hl.
  match goal with |- context [dispatch _ _ _ _ _ _ ?s] =>
    destruct (IH (S j) s) as [-> ->] end.
  simpl. unfold writes. rewrite omap_app, length_app. simpl. split; lia.
Qed.

Lemma filter_usable_all (roads : list geometry) :
  Forall (fun road => usable road = true) roads →
  filter (fun road => usable road = true) roads = roads.
Proof.
  induction 1 as [|road rest Hroad _ IH]; [done|].
  rewrite filter_cons. case_decide; [|done]. by rewrite IH.
Qed.

Lemma usable_road_ok road : usable road = true → road_ok road = true.
Proof. by destruct road as [[|? ?]|[|[|? ?] ?]| |]. Qed.

(** On usable roads every selected road gives its four points. *)
Lemma generate_ll_usable (n2d : Z) r :
  (0 ≤ n2d < 2 ^ 53)%Z →
  Forall (fun road => usable road = true) g →
  ∃ pts, generate_ll g n2d r = Ret pts ∧
         length pts = (4 * Nat.min (length g) (Z.to_nat (n2d `div` 2)))%nat.
Proof.
  intros Hn Hg.
  destruct (generate_ll_roads g n2d r Hn) as (roads & Hgen & Hsel).
  assert (Hroads : Forall (fun road => usable road = true) roads).
  { case_bool_decide; [|by subst].
    destruct Hsel as [Hsub _]. rewrite Forall_forall in Hg |- *.
    intros road Hin. apply Hg. by eapply elem_of_submseteq. }
  exists (mjoin (points_of_road <$> roads)). split.
  - rewrite Hgen. apply roads_loop_ok.
    eapply Forall_impl; [exact Hroads|]. apply usable_road_ok.
  - rewrite points_of_road_length, filter_usable_all by done.
    assert (0 ≤ n2d `div` 2)%Z by (apply Z.div_pos; lia).
    case_bool_decide; [|subst; lia]. destruct Hsel as [_ Hlen]. lia.
Qed.

(** With a provider that serves every point and a dataset of usable roads,
    the driver climbs to [4 * (total - 1)] images and stops there: the next
    budget is 1. *)
Lemma loop_all_ok rngs world :
  (total ≤ 2 ^ 51)%Z →
  always_succeeds world →
  (0 < num_workers gl)%Z →
  g ≠ [] →
  Forall (fun road => usable road = true) g →
  ∀ d round st k,
    Z.to_nat (total - 1 - k) = d →
    (0 ≤ k ≤ total - 1)%Z →
    images_downloaded st = (4 * k)%Z →
    ∃ fuel st',
      loop fuel round rngs world st = Some (Ret (Exhausted, st')) ∧
      images_downloaded st' = (4 * (total - 1))%Z ∧
      Z.of_nat (length (writes (trace st')))
        = (Z.of_nat (length (writes (trace st))) + 4 * (total - 1 - k))%Z.
Proof.
  intros Hsmall Hworld Hworkers Hne Hg d.
  induction d as [d IH] using lt_wf_ind. intros round st k Hd Hk Himg.
  assert (Hbudget : round_budget total st = Ret (total - k)%Z).
  { rewrite round_budget_small by lia. rewrite Himg.
    f_equal. Z.div_mod_to_equations. lia. }
  destruct (decide (k = total - 1)%Z) as [->|Hlt].
  - exists 1%nat, st.
    destruct (step_budget_one (rngs round) (world round) st) as [_ Hstop];
      [lia|rewrite Hbudget; f_equal; lia|].
    simpl. rewrite Hstop. split; [done|]. split; lia.
  - destruct (generate_ll_usable (total - k) (rngs round) ltac:(lia) Hg)
      as (pts & Hgen & Hlen).
    set (c := Nat.min (length g) (Z.to_nat ((total - k) `div` 2))) in *.
    assert (Hc : (1 ≤ c)%nat ∧ (Z.of_nat c ≤ total - 1 - k)%Z).
    { assert (1 ≤ length g)%nat by (destruct g; [done|simpl; lia]).
      subst c. split.
      - apply Nat.min_glb; [done|]. Z.div_mod_to_equations. lia.
      - pose proof (Nat.le_min_r (length g) (Z.to_nat ((total - k) `div` 2))).
        Z.div_mod_to_equations. lia. }
    destruct pts as [|p pts]; [simpl in Hlen; lia|].
    set (st1 := dispatch py_str gl save_dir (p :: pts) 0 (world round) st).
    assert (Hstep : step (rngs round) (world round) st = Continue st1).
    { eapply step_goes_on; [lia|exact Hbudget|exact Hgen|done]. }
    destruct (dispatch_all_ok (p :: pts) 0 (world round) st (Hworld round))
      as [Himg1 Hw1].
    fold st1 in Himg1, Hw1. rewrite Hlen in Himg1, Hw1.
    destruct (IH (Z.to_nat (total - 1 - (k + Z.of_nat c))) ltac:(lia)
                (S round) st1 (k + Z.of_nat c)%Z eq_refl ltac:(lia) ltac:(lia))
      as (fuel & st' & Hloop & Himg' & Hw').
    exists (S fuel), st'. simpl. rewrite Hstep.
    split; [done|]. split; [done|]. lia.
Qed.

Lemma size_files_written tr :
  (size (files_written tr) ≤ length (writes tr))%nat.
Proof.
  unfold files_written. change (omap _ tr) with (writes tr).
  induction (writes tr) as [|x l IH].
  - rewrite list_to_set_nil, size_empty. done.
  - rewrite list_to_set_cons, size_union_alt, size_singleton.
    pose proof (subseteq_size (list_to_set l ∖ {[x]})
                  (list_to_set l : gset string) ltac:(set_solver)).
    simpl. lia.
Qed.

End DriverProps.

(** Whatever the dataset and the provider, from an empty tally the driver
    never returns with the quota met when a positive number of images is
    asked for. *)
Lemma acquire_never_meets_quota py_str idx gl country total save_dir rd cache
    ledger rngs world fuel cache' why st :
  (0 < total ≤ 2 ^ 51)%Z →
  download_images_from_country py_str idx gl country total save_dir rd cache
    ledger rngs world fuel = (cache', Some (Ret (why, st))) →
  why = Exhausted ∧ (images_downloaded st < 4 * total)%Z.
Proof.
  intros Htotal. unfold download_images_from_country.
  destruct (load_shapefile_for_country idx country rd cache) as [[g|e] c];
    [|done].
  intros [= _ Hloop].
  apply loop_below_quota in Hloop as [-> ?]; [split; [done|lia]|lia|simpl; lia].
Qed.

(** C1, on the code: asked for a target count of 10, with a provider
    that serves every point and a non-empty dataset of usable roads, the
    driver returns as exhausted with 36 images, after 36 file writes, and
    with no other result however much fuel it is given: at 36 images the
    budget of the next round is 1, for which the sampler selects no road. *)
Theorem acquire_ten_falls_short py_str idx gl country save_dir rd cache ledger
    rngs world g cache' :
  load_shapefile_for_country idx country rd cache = (Ret g, cache') →
  g ≠ [] →
  Forall (fun road => usable road = true) g →
  (0 < num_workers gl)%Z →
  always_succeeds world →
  ∃ fuel st,
    download_images_from_country py_str idx gl country 10 save_dir rd cache
      ledger rngs world fuel = (cache', Some (Ret (Exhausted, st))) ∧
    images_downloaded st = 36%Z ∧
    length (writes (trace st)) = 36%nat ∧
    (size (files_written (trace st)) ≤ 36)%nat ∧
    ∀ fuel' out,
      download_images_from_country py_str idx gl country 10 save_dir rd cache
        ledger rngs world fuel' = (cache', Some out) →
      out = Ret (Exhausted, st).
Proof.
  intros Hload Hne Hg Hworkers Hworld.
  destruct (loop_all_ok py_str gl g 10 save_dir rngs world ltac:(lia) Hworld
              Hworkers Hne Hg 9 0%nat (DriverState 0 ledger []) 0%Z)
    as (fuel & st & Hloop & Himg & Hw); [done|lia|done|].
  exists fuel, st. unfold download_images_from_country. rewrite Hload.
  split; [by rewrite Hloop|]. split; [lia|].
  assert (Hlen : length (writes (trace st)) = 36%nat) by (simpl in Hw; lia).
  split; [done|]. split.
  - rewrite <- Hlen. apply size_files_written.
  - intros fuel' out [= Hloop'].
    by eapply loop_deterministic.
Qed.

Lemma acquire_ten_falls_short_witness :
  ∃ fuel st,
    download_images_from_country str_example idx_example gl_example "France"
      10 "./out" rd_europe cache_init [] (fun _ _ => 0%nat) world_ok fuel
      = (snd (load_shapefile_for_country idx_example "France" rd_europe
                cache_init),
         Some (Ret (Exhausted, st))) ∧
    images_downloaded st = 36%Z.
Proof.
  destruct (acquire_ten_falls_short str_example idx_example gl_example
              "France" "./out" rd_europe cache_init [] (fun _ _ => 0%nat)
              world_ok gdf_europe
              (snd (load_shapefile_for_country idx_example "France" rd_europe
                      cache_init)))
    as (fuel & st & H & Himg & _).
  - vm_compute. reflexivity.
  - discriminate.
  - repeat constructor.
  - reflexivity.
  - intros round j. reflexivity.
  - exists fuel, st. split; [exact H|exact Himg].
Defined.

(** A first pass on two roads and a target of 10: the budget is 10, the
    sampler returns the eight points of the two roads, and the pass goes on
    to the state in which they were dispatched. *)
Lemma driver_rounds_witness :
  let st := DriverState 0 [] [] in
  let pts := four_points (48, 2)%float ++ four_points (40, -3)%float in
  round_budget 10 st = Ret 10%Z ∧
  round_step str_example gl_example gdf_europe 10 "./out" (fun _ => 0%nat)
    (world_ok 0%nat) st
  = Continue (dispatch str_example gl_example "./out" pts 0 (world_ok 0%nat) st).
Proof.
  intros st pts.
  destruct (driver_rounds str_example gl_example gdf_europe 10 "./out"
              (fun _ _ => 0%nat) world_ok 0%nat st)
    as (Hb & _ & _ & Hgo & _).
  - split; [simpl; lia|reflexivity].
  - split; [exact Hb|]. apply Hgo.
    split; [simpl; lia|]. split; [reflexivity|].
    eexists _, _. split; reflexivity.
Defined.

(** ** The panorama setting *)

Section Pano.

Variable py_str : pyval -> string.
Variables (b : bool) (gl : globals).

Lemma attempt_try_pano Lat Lon Head SaveLoc a :
  attempt_try py_str (set_pano b gl) Lat Lon Head SaveLoc a
  = attempt_try py_str gl Lat Lon Head SaveLoc a.
Proof. reflexivity. Qed.

Lemma retry_loop_pano k a Lat Lon Head SaveLoc net :
  retry_loop py_str k a (set_pano b gl) Lat Lon Head SaveLoc net
  = retry_loop py_str k a gl Lat Lon Head SaveLoc net.
Proof.
  revert a. induction k as [|k IH]; intros a; [done|].
  simpl. rewrite attempt_try_pano, IH. done.
Qed.

Lemma dispatch_pano save_dir data_list j rn st :
  dispatch py_str (set_pano b gl) save_dir data_list j rn st
  = dispatch py_str gl save_dir data_list j rn st.
Proof.
  revert j st. induction data_list as [|[[lat lon] head] rest IH];
    intros j st; [done|].
  simpl. unfold GetStreetLL_default, GetStreetLL.
  rewrite retry_loop_pano.
  destruct (retry_loop _ _ _ _ _ _ _ _ _) as [ev [m n]]. apply IH.
Qed.

Lemma round_step_pano g total save_dir r rn st :
  round_step py_str (set_pano b gl) g total save_dir r rn st
  = round_step py_str gl g total save_dir r rn st.
Proof.
  unfold round_step.
  destruct (images_downloaded st <? total * 4)%Z; [|done].
  destruct (round_budget total st) as [n2d|e]; [|done]. cbn [mbind res_bind].
  destruct (generate_ll g n2d r) as [[|p pts]|e]; try done.
  change (num_workers (set_pano b gl)) with (num_workers gl).
  destruct (num_workers gl <=? 0)%Z; [done|]. by rewrite dispatch_pano.
Qed.

Lemma rounds_pano fuel round g total save_dir rngs world st :
  rounds py_str fuel round (set_pano b gl) g total save_dir rngs world st
  = rounds py_str fuel round gl g total save_dir rngs world st.
Proof.
  revert round st. induction fuel as [|fuel IH]; intros round st; [done|].
  cbn [rounds]. rewrite round_step_pano.
  destruct (round_step _ _ _ _ _ _ _ _); [done|apply IH|done].
Qed.

(** C10: a run under a changed panorama setting, everything else alike, is
    the same run. The fetcher returns the same result with the same trace
    of requests, pauses and file writes, and the driver returns the same
    cache, tally, ledger and trace; the sampler has no access to the
    settings at all, and whatever the setting a sampling that returns gives
    a multiple of four points, four for each road it kept. *)
Theorem pano_never_read :
  (∀ Lat Lon Head SaveLoc retries net,
     GetStreetLL py_str (set_pano b gl) Lat Lon Head SaveLoc retries net
     = GetStreetLL py_str gl Lat Lon Head SaveLoc retries net) ∧
  (∀ idx country total save_dir rd cache ledger rngs world fuel,
     download_images_from_country py_str idx (set_pano b gl) country total
       save_dir rd cache ledger rngs world fuel
     = download_images_from_country py_str idx gl country total
         save_dir rd cache ledger rngs world fuel) ∧
  (pano (set_pano b gl) = b ∧
   ∀ g n2d r pts, generate_ll g n2d r = Ret pts →
                  ∃ k : nat, length pts = (4 * k)%nat).
Proof.
  split; [|split].
  - intros. unfold GetStreetLL. apply retry_loop_pano.
  - intros. unfold download_images_from_country.
    destruct (load_shapefile_for_country idx country rd cache) as [[g|e] c];
      [|done].
    by rewrite rounds_pano.
  - split; [done|]. intros g n2d r pts Hgen.
    destruct (generate_ll_length _ _ _ _ Hgen) as (k & n & _ & Hk & _). eauto.
Qed.

End Pano.

(** ** Worked examples *)

(** Two roads and a budget of 4: both roads, four headings each. *)
Example generate_ll_europe :
  generate_ll gdf_europe 4 (fun _ => 0%nat)
  = Ret (four_points (48, 2)%float ++ four_points (40, -3)%float).
Proof. reflexivity. Qed.

(** A budget of 2 draws one of the two roads: here the second. *)
Example generate_ll_draws_one :
  generate_ll gdf_europe 2 (fun _ => 1%nat)
  = Ret (four_points (40, -3)%float).
Proof. reflexivity. Qed.

(** Without imagery the fetcher asks three times and gives up. *)
Example fetch_no_imagery :
  GetStreetLL_default str_example gl_example 48 2 92 "./out" net_zero
  = (replicate 3 (MetaRequest (MetaUrl str_example gl_example 48 2 92)),
     (None, 0%Z)).
Proof. reflexivity. Qed.

(** An HTTP error at the first download: a pause, then the second attempt
    writes the file. *)
Example fetch_after_http_error :
  let meta := MetaRequest (MetaUrl str_example gl_example 48 2 92) in
  let image := ImageRequest (MyUrl str_example gl_example 48 2 92)
                 "./out/f_f_92.jpg" in
  GetStreetLL_default str_example gl_example 48 2 92 "./out" net_flaky
  = ([meta; image; Sleep 5; meta; image; FileWritten "./out/f_f_92.jpg"],
     (Some (PNone, PStr "pano", PFloat 48, PFloat 2, "f_f_92.jpg"), 1%Z)).
Proof. reflexivity. Qed.

(** Asked for 10, served at every point, the driver stops at 36 images. *)
Example acquire_france :
  match download_images_from_country str_example idx_example gl_example
          "France" 10 "./out" rd_europe cache_init [] (fun _ _ => 0%nat)
          world_ok 12 with
  | (_, Some (Ret (why, st))) =>
      Some (why, images_downloaded st, length (image_list st))
  | _ => None
  end = Some (Exhausted, 36%Z, 36%nat).
Proof. vm_compute. reflexivity. Qed.

(** Asked for 1, the driver stops at once: the first budget is already 1. *)
Example acquire_one :
  match download_images_from_country str_example idx_example gl_example
          "France" 1 "./out" rd_europe cache_init [] (fun _ _ => 0%nat)
          world_ok 3 with
  | (_, Some (Ret (why, st))) => Some (why, images_downloaded st)
  | _ => None
  end = Some (Exhausted, 0%Z).
Proof. vm_compute. reflexivity. Qed.

(** * Further properties of the pipeline *)

(** ** Image fetcher *)

Section FetcherMore.

Variable py_str : pyval -> string.
Variables (gl : globals) (Lat Lon : float) (Head : Z) (SaveLoc : string).

#[local] Abbreviation meta' := (MetaRequest (MetaUrl py_str gl Lat Lon Head)).
#[local] Abbreviation loop' k a net :=
  (retry_loop py_str k a gl Lat Lon Head SaveLoc net).

(** The requests, pauses and writes of the loop, counted together. *)
Lemma loop_counts k a net :
  (length (sleeps (fst (loop' k a net)))
     ≤ length (image_requests (fst (loop' k a net))))%nat ∧
  (length (image_requests (fst (loop' k a net)))
     ≤ attempts_made (fst (loop' k a net)))%nat ∧
  (length (writes (fst (loop' k a net))) ≤ 1)%nat ∧
  (length (writes (fst (loop' k a net)))
   + length (sleeps (fst (loop' k a net)))
     ≤ length (image_requests (fst (loop' k a net))))%nat.
Proof.
  revert a. induction k as [|k IH]; intros a; [simpl; lia|].
  destruct (IH (S a)) as (H1 & H2 & H3 & H4). unfold attempts_made in *.
  destruct (kind_of (net a)) eqn:Hk.
  - rewrite (loop_no_metadata _ _ _ _ _ _ _ _ _ Hk). simpl. lia.
  - destruct (loop_downloaded py_str gl Lat Lon Head SaveLoc k _ _ Hk)
      as (? & ? & ? & ? & _ & _ & ->). simpl. lia.
  - rewrite (loop_http_failure _ _ _ _ _ _ _ _ _ Hk). simpl. lia.
  - destruct (loop_aborted py_str gl Lat Lon Head SaveLoc k _ _ Hk)
      as [created ->]. destruct created; simpl; lia.
Qed.

(** A failure that left a file behind was an aborted download. *)
Lemma loop_failure_with_file k a net :
  snd (loop' k a net) = (None, 0%Z) →
  writes (fst (loop' k a net)) ≠ [] →
  ∃ i, (i < k)%nat ∧ kind_of (net (a + i)%nat) = Aborted.
Proof.
  revert a. induction k as [|k IH]; intros a; [done|].
  destruct (kind_of (net a)) eqn:Hk.
  - rewrite (loop_no_metadata _ _ _ _ _ _ _ _ _ Hk). simpl. intros Ho Hw.
    destruct (IH _ Ho Hw) as (i & Hi & Ha). exists (S i). split; [lia|].
    by replace (a + S i)%nat with (S a + i)%nat by lia.
  - destruct (loop_downloaded py_str gl Lat Lon Head SaveLoc k _ _ Hk)
      as (? & ? & ? & ? & _ & _ & ->). done.
  - rewrite (loop_http_failure _ _ _ _ _ _ _ _ _ Hk). simpl. intros Ho Hw.
    destruct (IH _ Ho Hw) as (i & Hi & Ha). exists (S i). split; [lia|].
    by replace (a + S i)%nat with (S a + i)%nat by lia.
  - intros _ _. exists 0%nat. rewrite Nat.add_0_r. split; [lia|done].
Qed.

Lemma sum_all_five (l : list Z) :
  Forall (fun s => s = 5%Z) l → foldr Z.add 0%Z l = (5 * Z.of_nat (length l))%Z.
Proof. induction 1 as [|s l -> _ IH]; simpl; [done|]. rewrite IH. lia. Qed.

(** X1: one call of the fetcher writes at most one file, whatever the
    provider does; and when it fails and yet a file was written, one of its
    downloads was cut short by an exception that is not an HTTP error. *)
Theorem fetch_writes_at_most_one (retries : Z) (net : network) :
  let ev := fst (GetStreetLL py_str gl Lat Lon Head SaveLoc retries net) in
  let out := snd (GetStreetLL py_str gl Lat Lon Head SaveLoc retries net) in
  (length (writes ev) ≤ 1)%nat ∧
  (out = (None, 0%Z) → writes ev ≠ [] →
   ∃ i, (i < Z.to_nat retries)%nat ∧ kind_of (net i) = Aborted).
Proof.
  unfold GetStreetLL. simpl. split.
  - apply loop_counts.
  - intros Ho Hw. destruct (loop_failure_with_file _ _ _ Ho Hw) as (i & ? & ?).
    by exists i.
Qed.

(** Every pause comes right after a request for the image. *)
Lemma loop_pause_after_image k a net pre s post :
  fst (loop' k a net) = pre ++ Sleep s :: post →
  ∃ pre' path,
    pre = pre' ++ [ImageRequest (MyUrl py_str gl Lat Lon Head) path] ∧
    s = 5%Z.
Proof.
  revert a pre. induction k as [|k IH]; intros a pre.
  { simpl. by destruct pre. }
  destruct (kind_of (net a)) eqn:Hk.
  - rewrite (loop_no_metadata _ _ _ _ _ _ _ _ _ Hk). simpl.
    destruct pre as [|e1 pre]; simpl; [done|]. intros [= <- Hev].
    destruct (IH _ _ Hev) as (pre' & path & -> & ->).
    by exists (meta' :: pre'), path.
  - destruct (loop_downloaded py_str gl Lat Lon Head SaveLoc k _ _ Hk)
      as (? & ? & ? & ? & _ & _ & ->). simpl.
    destruct pre as [|e1 [|e2 [|e3 [|e4 pre]]]]; simpl; done.
  - rewrite (loop_http_failure _ _ _ _ _ _ _ _ _ Hk). simpl.
    destruct pre as [|e1 [|e2 [|e3 pre]]]; simpl; [done|done| |].
    + intros [= <- <- <- _]. by exists [meta'], (target_of py_str Head SaveLoc (net a)).
    + intros [= <- <- <- Hev].
      destruct (IH _ _ Hev) as (pre' & path & -> & ->).
      by exists (meta' :: ImageRequest (MyUrl py_str gl Lat Lon Head)
                         (target_of py_str Head SaveLoc (net a))
                 :: Sleep 5 :: pre'), path.
  - destruct (loop_aborted py_str gl Lat Lon Head SaveLoc k _ _ Hk)
      as [created ->].
    destruct created; simpl;
      destruct pre as [|e1 [|e2 [|e3 [|e4 pre]]]]; simpl; done.
Qed.

(** X2: within a call the fetcher never downloads more often than it has
    queried the metadata; it pauses only right after a request for the
    image of the point, each time for 5 seconds; and it spends at most
    [5 * retries] seconds pausing. *)
Theorem fetch_pauses_bounded (retries : Z) (net : network) :
  let ev := fst (GetStreetLL py_str gl Lat Lon Head SaveLoc retries net) in
  (length (image_requests ev) ≤ attempts_made ev)%nat ∧
  (∀ pre s post,
     ev = pre ++ Sleep s :: post →
     ∃ pre' path,
       pre = pre' ++ [ImageRequest (MyUrl py_str gl Lat Lon Head) path] ∧
       s = 5%Z) ∧
  (foldr Z.add 0%Z (sleeps ev) ≤ 5 * Z.max 0 retries)%Z.
Proof.
  unfold GetStreetLL. simpl.
  destruct (loop_counts (Z.to_nat retries) 0 net) as (H1 & H2 & _).
  destruct (loop_trace py_str gl Lat Lon Head SaveLoc (Z.to_nat retries) 0 net)
    as (H3 & _ & _ & H4).
  split; [done|]. split; [apply loop_pause_after_image|].
  rewrite sum_all_five by done. lia.
Qed.

End FetcherMore.

(** ** Point sampler *)

Lemma generate_ll_selects g (n2d : Z) r pts :
  generate_ll g n2d r = Ret pts →
  ∃ roads, roads ⊆+ g ∧ roads_loop roads [] = Ret pts.
Proof.
  unfold generate_ll.
  destruct (int_div n2d 2) as [n_roads|e]; [|done]. cbn [mbind res_bind].
  destruct (Z.of_nat (length g) >? n_roads)%Z.
  - unfold df_sample. destruct (n_roads <? 0)%Z; [done|].
    destruct (Z.of_nat (length g) <? n_roads)%Z; [done|].
    simpl. intros H. eexists. split; [apply draw_rows_submseteq|exact H].
  - simpl. intros H. by exists g.
Qed.

Lemma roads_loop_points roads acc pts :
  roads_loop roads acc = Ret pts →
  ∀ p, p ∈ pts →
    p ∈ acc ∨
    ∃ road v, road ∈ roads ∧ first_vertex road = Some v ∧
      p.1 = (vy v, vx v) ∧ p.2 ∈ [2; 92; 182; 272]%Z.
Proof.
  revert acc. induction roads as [|road rest IH]; intros acc; simpl.
  - intros [= <-] p Hp. by left.
  - destruct (road_ll road) as [[[lat lon]|]|] eqn:Hll; simpl; [| |done].
    + intros Hloop p Hp. destruct (IH _ Hloop p Hp) as [Hin|Hin].
      * apply elem_of_app in Hin as [Hin|Hin]; [by left|]. right.
        assert (∃ v, first_vertex road = Some v ∧ (lat, lon) = (vy v, vx v))
          as (v & Hv & Heq).
        { destruct road as [[|v coords]|[|[|v line] geoms]| |];
            simpl in Hll; try done; injection Hll as <- <-; by exists v. }
        exists road, v. split; [left|]. split; [done|].
        simpl in Hin. rewrite <- Heq.
        repeat (apply elem_of_cons in Hin as [->|Hin];
                [split; [done|set_solver]|]).
        by apply elem_of_nil in Hin.
      * right. destruct Hin as (road' & v & Hin & ?).
        exists road', v. split; [by right|done].
    + intros Hloop p Hp. destruct (IH _ Hloop p Hp) as [Hin|Hin]; [by left|].
      right. destruct Hin as (road' & v & Hin & ?).
      exists road', v. split; [by right|done].
Qed.

(** X3: whenever the sampler returns, every point it returns sits at the
    first vertex of a polyline, or of the first component of a
    multi-polyline, of the dataset, with the vertex's [y] as latitude and
    its [x] as longitude, and carries one of the headings 2, 92, 182, 272:
    the sampler invents no coordinate and no heading. *)
Theorem sample_points_come_from_roads g (n2d : Z) r pts :
  generate_ll g n2d r = Ret pts →
  ∀ lat lon head, (lat, lon, head) ∈ pts →
    head ∈ [2; 92; 182; 272]%Z ∧
    ∃ road v, road ∈ g ∧ first_vertex road = Some v ∧
              lat = vy v ∧ lon = vx v.
Proof.
  intros Hgen lat lon head Hp.
  destruct (generate_ll_selects _ _ _ _ Hgen) as (roads & Hsub & Hloop).
  destruct (roads_loop_points _ _ _ Hloop _ Hp) as [Hin|Hin].
  - by apply elem_of_nil in Hin.
  - destruct Hin as (road & v & Hroad & Hv & Heq & Hh). simpl in Heq, Hh.
    injection Heq as -> ->. split; [done|].
    exists road, v. split; [by eapply elem_of_submseteq|done].
Qed.

Lemma sample_points_come_from_roads_witness :
  ∃ road v, road ∈ gdf_europe ∧ first_vertex road = Some v ∧
            48%float = vy v ∧ 2%float = vx v.
Proof.
  apply (sample_points_come_from_roads gdf_europe 4 (fun _ => 0%nat)
           _ eq_refl 48%float 2%float 92%Z).
  vm_compute. apply list_elem_of_further, list_elem_of_here.
Defined.

(** ** Geometry cache *)

(** X4: one call for a country invokes the reader at most once, and only
    for the region the country resolves to; it leaves the cache entry of
    every other region as it was, and for a country outside the index it
    leaves the whole state untouched. *)
Theorem resolve_touches_one_region idx country rd st :
  let out := load_shapefile_for_country idx country rd st in
  (∀ region, region_of idx country ≠ Some region →
     gdf_cache (snd out) !! region = gdf_cache st !! region) ∧
  (region_of idx country = None → snd out = st) ∧
  (∃ new, loads (snd out) = loads st ++ new ∧ (length new ≤ 1)%nat ∧
     ∀ ev, ev ∈ new →
       region_of idx country = Some (ld_region ev) ∧
       region_shp_paths !! ld_region ev = Some (ld_path ev) ∧
       ld_ok ev = bool_decide (is_Some (rd (ld_path ev)))).
Proof.
  intros out. subst out. rewrite load_items_region_of.
  destruct (region_of idx country) as [region|]; simpl.
  - unfold load_region.
    destruct (gdf_cache st !! region) as [g|] eqn:Hc; simpl.
    { split; [done|]. split; [done|]. exists []. rewrite app_nil_r.
      split; [done|]. split; [simpl; lia|]. intros ev Hev.
      by apply elem_of_nil in Hev. }
    destruct (region_shp_paths !! region) as [p|] eqn:Hp; simpl.
    2:{ split; [done|]. split; [done|]. exists []. rewrite app_nil_r.
        split; [done|]. split; [simpl; lia|]. intros ev Hev.
        by apply elem_of_nil in Hev. }
    rewrite (region_shp_paths_truthy _ _ Hp).
    destruct (rd p) as [g|] eqn:Hrd; simpl.
    + split.
      { intros r Hr. rewrite lookup_insert_ne; [done|]. congruence. }
      split; [done|]. eexists. split; [done|]. split; [simpl; lia|].
      intros ev Hev. apply list_elem_of_singleton in Hev as ->. simpl.
      rewrite Hrd. split; [done|]. split; [done|].
      by rewrite bool_decide_eq_true_2 by eauto.
    + split; [done|]. split; [done|]. eexists. split; [done|].
      split; [simpl; lia|].
      intros ev Hev. apply list_elem_of_singleton in Hev as ->. simpl.
      rewrite Hrd. split; [done|]. split; [done|].
      rewrite bool_decide_eq_false_2; [done|]. by intros [? ?].
  - split; [done|]. split; [done|]. exists []. rewrite app_nil_r.
    split; [done|]. split; [simpl; lia|]. intros ev Hev.
    by apply elem_of_nil in Hev.
Qed.

(** ** Acquisition driver *)

(** X5: for a positive target of at most [2^51] locations the driver never
    returns with the quota met, whatever the dataset, the random draws and
    the provider: when it returns, it does so as exhausted with fewer than
    [4 * total] images. (Up to that target every tally stays below [2^53],
    where the divisions of the driver are exact.) *)
Theorem quota_out_of_reach py_str idx gl country total save_dir rd cache
    ledger rngs world fuel cache' why st :
  (0 < total ≤ 2 ^ 51)%Z →
  download_images_from_country py_str idx gl country total save_dir rd cache
    ledger rngs world fuel = (cache', Some (Ret (why, st))) →
  why = Exhausted ∧ (0 ≤ images_downloaded st < 4 * total)%Z.
Proof.
  intros Htotal. unfold download_images_from_country.
  destruct (load_shapefile_for_country idx country rd cache) as [[g|e] c];
    [|done].
  intros [= _ Hloop].
  apply loop_below_quota in Hloop as [-> ?]; [split; [done|lia]|lia|simpl; lia].
Qed.

Lemma quota_out_of_reach_witness :
  ∃ st,
    download_images_from_country str_example idx_example gl_example "France"
      10 "./out" rd_europe cache_init [] (fun _ _ => 0%nat) world_ok 12
    = (snd (load_shapefile_for_country idx_example "France" rd_europe
              cache_init), Some (Ret (Exhausted, st))) ∧
    (0 ≤ images_downloaded st < 4 * 10)%Z.
Proof.
  eexists. split; [vm_compute; reflexivity|].
  eapply (quota_out_of_reach str_example idx_example gl_example "France" 10
            "./out" rd_europe cache_init [] (fun _ _ => 0%nat) world_ok 12).
  - split; [lia|discriminate].
  - vm_compute. reflexivity.
Defined.

(** *** Beyond [2^53]

    The bound on the target is needed. With a target of [2^53 + 2], one
    road and a provider that serves every point, every round adds four
    images. At a tally of [2^55 + 4] a quarter of the tally is [2^53 + 1]:
    no float, it is rounded to [2^53]. The budget is then 2 instead of 1,
    one road is sampled, and its four images meet the quota. *)

Section LargeTarget.

Variable py_str : pyval -> string.
Variables (gl : globals) (save_dir : string) (v : vertex).

#[local] Abbreviation big := (2 ^ 53 + 2)%Z.
#[local] Abbreviation one_road := ([LineString [v]] : gdf).

Lemma half_at_least_one (n2d : Z) :
  (2 ≤ n2d ≤ big)%Z → ∃ k, int_div n2d 2 = Ret k ∧ (1 ≤ k)%Z.
Proof.
  intros Hn. destruct (decide (n2d < 2 ^ 53)%Z) as [Hlt|Hge].
  - exists (n2d `div` 2)%Z. split; [apply int_div_2; lia|].
    Z.div_mod_to_equations. lia.
  - assert (n2d = 2 ^ 53 ∨ n2d = 2 ^ 53 + 1 ∨ n2d = 2 ^ 53 + 2)%Z
      as [-> | [-> | ->]] by lia.
    + exists (2 ^ 52)%Z. split; [vm_compute; reflexivity|done].
    + exists (2 ^ 52)%Z. split; [vm_compute; reflexivity|done].
    + exists (2 ^ 52 + 1)%Z. split; [vm_compute; reflexivity|done].
Qed.

Lemma sample_one_road (n2d : Z) r :
  (2 ≤ n2d ≤ big)%Z →
  generate_ll one_road n2d r = Ret (four_points (vy v, vx v)).
Proof.
  intros Hn. destruct (half_at_least_one n2d Hn) as (k & Hk & Hk1).
  unfold generate_ll. rewrite Hk. cbn [mbind res_bind].
  by destruct (Z.gtb_spec (Z.of_nat (length one_road)) k);
    [simpl in *; lia|].
Qed.

Lemma quarter_of_tally (j : Z) :
  (0 ≤ j ≤ 2 ^ 53 + 1)%Z → int_div (4 * j) 4 = Ret (Z.min j (2 ^ 53)).
Proof.
  intros Hj. destruct (decide (j < 2 ^ 53)%Z) as [Hlt|Hge].
  - rewrite Z.min_l by lia. rewrite (Z.mul_comm 4 j).
    apply int_div_multiple; [lia|auto].
  - assert (j = 2 ^ 53 ∨ j = 2 ^ 53 + 1)%Z as [-> | ->] by lia;
      vm_compute; reflexivity.
Qed.

Lemma loop_one_road rngs world :
  always_succeeds world →
  (0 < num_workers gl)%Z →
  ∀ (d : nat) round st (j : Z),
    Z.to_nat (2 ^ 53 + 1 - j) = d →
    (0 ≤ j ≤ 2 ^ 53 + 1)%Z →
    images_downloaded st = (4 * j)%Z →
    ∃ fuel st',
      rounds py_str fuel round gl one_road big save_dir rngs world st
        = Some (Ret (QuotaReached, st')) ∧
      images_downloaded st' = (4 * big)%Z.
Proof.
  intros Hworld Hworkers d.
  induction d as [d IH] using lt_wf_ind. intros round st j Hd Hj Himg.
  assert (Hb : round_budget big st = Ret (big - Z.min j (2 ^ 53))%Z).
  { unfold round_budget. rewrite Himg, quarter_of_tally by done. done. }
  pose proof (sample_one_road (big - Z.min j (2 ^ 53)) (rngs round)
                ltac:(lia)) as Hgen.
  set (st1 := dispatch py_str gl save_dir (four_points (vy v, vx v)) 0
                (world round) st).
  assert (Hstep : round_step py_str gl one_road big save_dir (rngs round)
                    (world round) st = Continue st1).
  { eapply step_goes_on; [lia|exact Hb|exact Hgen|done]. }
  destruct (dispatch_all_ok py_str gl save_dir (four_points (vy v, vx v)) 0
              (world round) st (Hworld round)) as [Himg1 _].
  fold st1 in Himg1. simpl in Himg1.
  destruct (decide (j = 2 ^ 53 + 1)%Z) as [->|Hne].
  - exists 2%nat, st1. cbn [rounds]. rewrite Hstep.
    assert (Hq : round_step py_str gl one_road big save_dir
                   (rngs (S round)) (world (S round)) st1
                 = Stopped QuotaReached) by (apply step_quota; lia).
    rewrite Hq. split; [done|]. lia.
  - destruct (IH (Z.to_nat (2 ^ 53 + 1 - (j + 1))) ltac:(lia)
                (S round) st1 (j + 1)%Z eq_refl ltac:(lia) ltac:(lia))
      as (fuel & st' & Hloop & Himg').
    exists (S fuel), st'. cbn [rounds]. rewrite Hstep. done.
Qed.

End LargeTarget.

(** The driver, asked for [2^53 + 2] locations on a one-road region and
    served at every point, returns with the quota met. *)
Lemma quota_met_at_large_target :
  let rd : reader := fun _ => Some [LineString [Vertex 2 48]] in
  ∃ fuel st,
    download_images_from_country str_example idx_example gl_example "France"
      (2 ^ 53 + 2) "./out" rd cache_init [] (fun _ _ => 0%nat) world_ok fuel
    = (snd (load_shapefile_for_country idx_example "France" rd cache_init),
       Some (Ret (QuotaReached, st))) ∧
    images_downloaded st = (4 * (2 ^ 53 + 2))%Z.
Proof.
  intros rd.
  destruct (loop_one_road str_example gl_example "./out" (Vertex 2 48)
              (fun _ _ => 0%nat) world_ok)
    with (d := Z.to_nat (2 ^ 53 + 1 - 0)) (round := 0%nat)
         (st := DriverState 0 [] []) (j := 0%Z)
    as (fuel & st & Hloop & Himg).
  - intros round j. reflexivity.
  - reflexivity.
  - reflexivity.
  - lia.
  - reflexivity.
  - exists fuel, st. split; [|exact Himg].
    set (c := snd (load_shapefile_for_country idx_example "France" rd
                     cache_init)).
    assert (Hload : load_shapefile_for_country idx_example "France" rd
                      cache_init
                    = (Ret [LineString [Vertex 2 48]], c)) by reflexivity.
    unfold download_images_from_country. rewrite Hload. by rewrite Hloop.
Qed.

(** Likewise a budget of 1 does not tell that the quota is unmet once the
    tally is beyond [2^53]: here a quarter of the tally, [2^60 + 50], is
    rounded to [2^60]. *)
Example budget_one_beyond_2_53 :
  let total := (2 ^ 60 + 1)%Z in
  let st := DriverState (2 ^ 62 + 200) [] [] in
  round_budget total st = Ret 1%Z ∧
  (total * 4 ≤ images_downloaded st)%Z.
Proof. vm_compute. split; [done|discriminate]. Qed.

(** X6: a target that is not positive resolves the country and then stops
    at once on the quota: no sampling, no request, nothing added to the
    ledger. *)
Theorem nonpositive_target_stops_at_once py_str idx gl country total save_dir
    rd cache ledger rngs world fuel g cache' :
  load_shapefile_for_country idx country rd cache = (Ret g, cache') →
  (total ≤ 0)%Z →
  download_images_from_country py_str idx gl country total save_dir rd cache
    ledger rngs world (S fuel)
  = (cache', Some (Ret (QuotaReached, DriverState 0 ledger []))).
Proof.
  intros Hload Htotal. unfold download_images_from_country. rewrite Hload.
  simpl. unfold round_step. simpl.
  by destruct (Z.ltb_spec 0 (total * 4)); [lia|].
Qed.

Lemma nonpositive_target_stops_at_once_witness :
  download_images_from_country str_example idx_example gl_example "France"
    0 "./out" rd_europe cache_init [] (fun _ _ => 0%nat) world_ok 1
  = (snd (load_shapefile_for_country idx_example "France" rd_europe
            cache_init),
     Some (Ret (QuotaReached, DriverState 0 [] []))).
Proof.
  apply (nonpositive_target_stops_at_once str_example idx_example gl_example
           "France" 0 "./out" rd_europe cache_init [] (fun _ _ => 0%nat)
           world_ok 0 gdf_europe).
  - vm_compute. reflexivity.
  - lia.
Defined.

(** Nothing can be sampled from a dataset without roads. *)
Lemma generate_ll_empty (n2d : Z) r :
  (0 ≤ n2d < 2 ^ 53)%Z → generate_ll [] n2d r = Ret [].
Proof.
  intros Hn. unfold generate_ll. rewrite int_div_2 by done.
  cbn [mbind res_bind].
  assert (0 ≤ n2d `div` 2)%Z by (apply Z.div_pos; lia).
  by destruct (Z.gtb_spec (Z.of_nat (length (@nil geometry))) (n2d `div` 2));
    [simpl in *; lia|].
Qed.

(** X7: on a region whose dataset has no road, a positive target below
    [2^53] makes the driver stop at once as exhausted, with no image, no
    request and no error. *)
Theorem empty_dataset_exhausts_at_once py_str idx gl country total save_dir
    rd cache ledger rngs world fuel cache' :
  load_shapefile_for_country idx country rd cache = (Ret [], cache') →
  (0 < total < 2 ^ 53)%Z →
  download_images_from_country py_str idx gl country total save_dir rd cache
    ledger rngs world (S fuel)
  = (cache', Some (Ret (Exhausted, DriverState 0 ledger []))).
Proof.
  intros Hload Htotal. unfold download_images_from_country. rewrite Hload.
  cbn [rounds].
  assert (Hstep : round_step py_str gl [] total save_dir (rngs 0%nat)
                    (world 0%nat) (DriverState 0 ledger [])
                  = Stopped Exhausted).
  { apply step_exhausted. split; [simpl; lia|].
    exists total. split; [|apply generate_ll_empty; lia].
    rewrite round_budget_small by (simpl; lia). simpl. f_equal.
    change (0 `div` 4)%Z with 0%Z. lia. }
  by rewrite Hstep.
Qed.

(** Beyond the floats the same call ends with an exception: the half of
    the first budget is too large for a float. *)
Example empty_dataset_overflow :
  download_images_from_country str_example idx_example gl_example "Canada"
    (2 ^ 1025) "./out" (fun _ => Some []) cache_init [] (fun _ _ => 0%nat)
    world_ok 1
  = (snd (load_shapefile_for_country idx_example "Canada" (fun _ => Some [])
            cache_init),
     Some (Raise OverflowError)).
Proof. vm_compute. reflexivity. Qed.

Lemma empty_dataset_exhausts_at_once_witness :
  download_images_from_country str_example idx_example gl_example "Canada"
    10 "./out" (fun _ => Some []) cache_init [] (fun _ _ => 0%nat) world_ok 1
  = (snd (load_shapefile_for_country idx_example "Canada" (fun _ => Some [])
            cache_init),
     Some (Ret (Exhausted, DriverState 0 [] []))).
Proof.
  apply (empty_dataset_exhausts_at_once str_example idx_example gl_example
           "Canada" 10 "./out" (fun _ => Some []) cache_init []
           (fun _ _ => 0%nat) world_ok 0).
  - vm_compute. reflexivity.
  - split; [lia|reflexivity].
Defined.

Section DriverMore.

Variable py_str : pyval -> string.
Variables (gl : globals) (g : gdf) (total : Z) (save_dir : string).

Lemma grows_by_refl st : grows_by save_dir st st.
Proof. exists [], []. rewrite !app_nil_r. simpl. split_and!; [done|lia|done|done]. Qed.

Lemma grows_by_trans st1 st2 st3 :
  grows_by save_dir st1 st2 → grows_by save_dir st2 st3 →
  grows_by save_dir st1 st3.
Proof.
  intros (a1 & e1 & Hl1 & Hi1 & Ht1 & Hw1) (a2 & e2 & Hl2 & Hi2 & Ht2 & Hw2).
  exists (a1 ++ a2), (e1 ++ e2).
  rewrite Hl2, Hl1, Hi2, Hi1, Ht2, Ht1, !app_assoc, length_app.
  split_and!; [done|lia|done|].
  apply Forall_app. split.
  - eapply Forall_impl; [exact Hw1|]. intros md Hmd. apply elem_of_app. by left.
  - eapply Forall_impl; [exact Hw2|]. intros md Hmd. apply elem_of_app. by right.
Qed.

(** A success of the fetcher wrote the file its metadata name. *)
Lemma loop_success_written lat lon head k a net md flag :
  snd (retry_loop py_str k a gl lat lon head save_dir net) = (Some md, flag) →
  FileWritten (os_path_join save_dir (md_filename md))
    ∈ fst (retry_loop py_str k a gl lat lon head save_dir net).
Proof.
  revert a. induction k as [|k IH]; intros a; [done|].
  destruct (kind_of (net a)) eqn:Hk.
  - rewrite (loop_no_metadata _ _ _ _ _ _ _ _ _ Hk). simpl. intros H.
    right. by apply IH.
  - destruct (loop_downloaded py_str gl lat lon head save_dir k _ _ Hk)
      as (date & pano_id & la & lo & Hm & _ & ->).
    simpl. intros [= <- _]. unfold target_of. rewrite Hm. simpl.
    do 2 right. left.
  - rewrite (loop_http_failure _ _ _ _ _ _ _ _ _ Hk). simpl. intros H.
    do 3 right. by apply IH.
  - destruct (loop_aborted py_str gl lat lon head save_dir k _ _ Hk)
      as [created ->]. done.
Qed.

Lemma dispatch_grows data_list j rn st :
  grows_by save_dir st (dispatch py_str gl save_dir data_list j rn st).
Proof.
  revert j st. induction data_list as [|[[lat lon] head] rest IH];
    intros j st; [apply grows_by_refl|].
  simpl. unfold GetStreetLL_default, GetStreetLL.
  pose proof (loop_flag py_str gl lat lon head save_dir (Z.to_nat 3) 0 (rn j))
    as Hflag.
  pose proof (loop_success_written lat lon head (Z.to_nat 3) 0 (rn j)) as Hw.
  destruct (retry_loop _ _ _ _ _ _ _ _ _) as [ev [m n]]. simpl in Hflag, Hw.
  eapply grows_by_trans; [|apply IH].
  destruct Hflag as [[= -> ->]|[md [= -> ->]]].
  - exists [], ev. simpl. rewrite app_nil_r. split_and!; [done|lia|done|done].
  - exists [md], ev. simpl. split_and!; [done|lia|done|].
    constructor; [|done]. by eapply Hw.
Qed.

Lemma rounds_grow rngs world fuel round st why st' :
  rounds py_str fuel round gl g total save_dir rngs world st
    = Some (Ret (why, st')) →
  grows_by save_dir st st'.
Proof.
  revert round st. induction fuel as [|fuel IH]; intros round st; [done|].
  simpl.
  destruct (round_step _ _ _ _ _ _ _ st) as [w|st1|e] eqn:Hstep; [| |done].
  - intros [= <- <-]. apply grows_by_refl.
  - intros Hloop. eapply grows_by_trans; [|by eapply IH].
    destruct (step_continue _ _ _ _ _ _ _ _ _ Hstep)
      as (_ & _ & n2d & p & pts & _ & _ & ->).
    apply dispatch_grows.
Qed.

End DriverMore.

(** X8: when the driver returns, the ledger is the ledger it found followed
    by one entry for each image counted, the tally is the number of entries
    added, and for every entry added the trace holds the write of its file
    under the output directory. *)
Theorem tally_matches_ledger py_str idx gl country total save_dir rd cache
    ledger rngs world fuel cache' why st :
  download_images_from_country py_str idx gl country total save_dir rd cache
    ledger rngs world fuel = (cache', Some (Ret (why, st))) →
  ∃ added,
    image_list st = ledger ++ added ∧
    images_downloaded st = Z.of_nat (length added) ∧
    Forall (fun md =>
              FileWritten (os_path_join save_dir (md_filename md)) ∈ trace st)
      added.
Proof.
  unfold download_images_from_country.
  destruct (load_shapefile_for_country idx country rd cache) as [[g|e] c];
    [|done].
  intros [= _ Hloop].
  destruct (rounds_grow _ _ _ _ _ _ _ _ _ _ _ _ Hloop)
    as (added & evs & Hl & Hi & Ht & Hw).
  simpl in Hl, Hi, Ht. exists added. rewrite Ht. split_and!; [done|lia|done].
Qed.

Lemma tally_matches_ledger_witness :
  ∃ st added,
    download_images_from_country str_example idx_example gl_example "France"
      2 "./out" rd_europe cache_init [] (fun _ _ => 0%nat) world_ok 5
    = (snd (load_shapefile_for_country idx_example "France" rd_europe
              cache_init), Some (Ret (Exhausted, st))) ∧
    image_list st = [] ++ added ∧
    images_downloaded st = Z.of_nat (length added).
Proof.
  eexists.
  pose proof (tally_matches_ledger str_example idx_example gl_example "France"
                2 "./out" rd_europe cache_init [] (fun _ _ => 0%nat) world_ok 5
                _ _ _ ltac:(vm_compute; reflexivity))
    as (added & Hl & Hi & _).
  exists added. split; [vm_compute; reflexivity|]. split; [exact Hl|exact Hi].
Defined.

Section NeverServed.

Variable py_str : pyval -> string.
Variables (gl : globals) (g : gdf) (total : Z) (save_dir : string).

(** A call none of whose attempts downloads fails. *)
Lemma fetch_never_served lat lon head retries net :
  (∀ attempt, kind_of (net attempt) ≠ Downloaded) →
  snd (GetStreetLL py_str gl lat lon head save_dir retries net) = (None, 0%Z).
Proof.
  intros Hnet. unfold GetStreetLL.
  destruct (loop_flag py_str gl lat lon head save_dir (Z.to_nat retries) 0 net)
    as [H|[md H]]; [done|].
  destruct (loop_success_inv _ _ _ _ _ _ _ _ _ _ _ H) as (i & _ & _ & Hd).
  by destruct (Hnet _ Hd).
Qed.

Lemma dispatch_never_served data_list j rn st :
  (∀ i attempt, kind_of (rn i attempt) ≠ Downloaded) →
  images_downloaded (dispatch py_str gl save_dir data_list j rn st)
  = images_downloaded st.
Proof.
  intros Hrn. revert j st.
  induction data_list as [|[[lat lon] head] rest IH]; intros j st; [done|].
  simpl.
  pose proof (fetch_never_served lat lon head 3 (rn j) (Hrn j)) as Hf.
  unfold GetStreetLL_default.
  destruct (GetStreetLL _ _ _ _ _ _ _ _) as [ev [m n]].
  simpl in Hf. injection Hf as -> ->. rewrite IH. simpl. lia.
Qed.

(** With roads to sample, a target from 2 to below [2^53] and a provider
    that never serves an image, the tally stays 0 and no number of rounds
    brings the loop to a stop. *)
Lemma rounds_never_stop rngs world :
  never_succeeds world →
  (0 < num_workers gl)%Z →
  g ≠ [] →
  Forall (fun road => usable road = true) g →
  (2 ≤ total < 2 ^ 53)%Z →
  ∀ fuel round st,
    images_downloaded st = 0%Z →
    rounds py_str fuel round gl g total save_dir rngs world st = None.
Proof.
  intros Hworld Hworkers Hne Hg Htotal fuel.
  induction fuel as [|fuel IH]; intros round st Hst; [done|].
  assert (Hb : round_budget total st = Ret total).
  { unfold round_budget. rewrite Hst. change (int_div 0 4) with (Ret 0%Z).
    simpl. f_equal. lia. }
  destruct (generate_ll_usable g total (rngs round) ltac:(lia) Hg)
    as (pts & Hgen & Hlen).
  assert (1 ≤ length g)%nat by (destruct g; [done|simpl; lia]).
  assert (1 ≤ Z.to_nat (total `div` 2))%nat
    by (Z.div_mod_to_equations; lia).
  destruct pts as [|p pts]; [simpl in Hlen; lia|].
  cbn [rounds].
  rewrite (step_goes_on py_str gl g total save_dir (rngs round) (world round)
             st total p pts ltac:(lia) Hb Hgen Hworkers).
  apply IH.
  rewrite (dispatch_never_served (p :: pts) 0 (world round) st (Hworld round)).
  done.
Qed.

End NeverServed.

(** X9: with a target from 2 to below [2^53], a non-empty dataset of usable
    roads and a provider under which no download ever succeeds, the driver
    never returns: every round samples and dispatches anew, the tally stays
    0 and neither stop is met, however many rounds are run. *)
Theorem acquire_never_returns py_str idx gl country total save_dir rd cache
    ledger rngs world g cache' :
  load_shapefile_for_country idx country rd cache = (Ret g, cache') →
  g ≠ [] →
  Forall (fun road => usable road = true) g →
  (0 < num_workers gl)%Z →
  (2 ≤ total < 2 ^ 53)%Z →
  never_succeeds world →
  ∀ fuel,
    download_images_from_country py_str idx gl country total save_dir rd cache
      ledger rngs world fuel = (cache', None).
Proof.
  intros Hload Hne Hg Hworkers Htotal Hworld fuel.
  unfold download_images_from_country. rewrite Hload. f_equal.
  by apply rounds_never_stop.
Qed.

Lemma acquire_never_returns_witness :
  download_images_from_country str_example idx_example gl_example "France"
    10 "./out" rd_europe cache_init [] (fun _ _ => 0%nat) world_zero 1000
  = (snd (load_shapefile_for_country idx_example "France" rd_europe
            cache_init), None).
Proof.
  generalize 1000%nat.
  apply (acquire_never_returns str_example idx_example gl_example "France" 10
           "./out" rd_europe cache_init [] (fun _ _ => 0%nat) world_zero
           gdf_europe).
  - vm_compute. reflexivity.
  - discriminate.
  - repeat constructor.
  - reflexivity.
  - split; [lia|reflexivity].
  - intros round j attempt. discriminate.
Defined.

(** ** The console layer *)

Section ConsoleProps.

Variable int_of : string -> option Z.
Variable cpu_count : option Z.

#[local] Ltac menu_induction gl inp :=
  unfold keeps; induction inp as [|line rest IH]; simpl;
  [split_and!; (done || lia)|];
  destruct (int_of line) as [n|]; simpl;
  [|split_and!; (done || lia)];
  repeat (match goal with
          | |- context [if ?b then _ else _] => destruct b eqn:?
          | |- context [match cpu_count with _ => _ end] =>
              destruct cpu_count eqn:?
          end; simpl);
  try (split_and!; (done || lia));
  destruct IH as (? & ? & ? & ? & ? & ? & ?);
  split_and!; (done || lia || (intros; lia) || auto).

Lemma scrape_type_menu_keeps gl inp :
  keeps gl inp (scrape_type_menu int_of gl inp) false true true true.
Proof. menu_induction gl inp. Qed.

Lemma pano_menu_keeps gl inp :
  keeps gl inp (pano_menu int_of gl inp) true false true true.
Proof. menu_induction gl inp. Qed.

Lemma samples_menu_keeps gl inp :
  keeps gl inp (samples_menu int_of gl inp) true true false true.
Proof. menu_induction gl inp. Qed.

Lemma workers_menu_keeps gl inp :
  keeps gl inp (workers_menu int_of cpu_count gl inp) true true true false.
Proof. menu_induction gl inp. Qed.

Lemma scrape_type_menu_value gl inp :
  let r := scrape_type_menu int_of gl inp in
  scrape_type r.1.2 = 0%Z ∨ scrape_type r.1.2 = 1%Z ∨
  scrape_type r.1.2 = scrape_type gl.
Proof.
  induction inp as [|line rest IH]; simpl; [auto|].
  destruct (int_of line) as [n|]; simpl; [|auto].
  destruct (n =? 1)%Z; simpl; [auto|].
  destruct (n =? 2)%Z; simpl; [auto|].
  destruct (n =? 3)%Z; simpl; auto.
Qed.

Lemma samples_menu_value gl inp :
  let r := samples_menu int_of gl inp in
  (r.1.1 = Done → (0 < samples_per_country r.1.2)%Z) ∧
  (r.1.1 ≠ Done → samples_per_country r.1.2 = samples_per_country gl).
Proof.
  induction inp as [|line rest IH]; simpl; [done|].
  destruct (int_of line) as [n|]; simpl; [|done].
  destruct (Z.gtb_spec (Z.abs n) 0); simpl; [|done]. split; [lia|done].
Qed.

Lemma workers_menu_value gl inp :
  let r := workers_menu int_of cpu_count gl inp in
  (r.1.1 = Done →
   ∃ cpus, cpu_count = Some cpus ∧ (1 ≤ num_workers r.1.2 ≤ cpus)%Z) ∧
  (r.1.1 ≠ Done → num_workers r.1.2 = num_workers gl).
Proof.
  induction inp as [|line rest IH]; simpl; [done|].
  destruct (int_of line) as [n|]; simpl; [|done].
  destruct (Z.leb_spec 1 (Z.abs n)); simpl; [|done].
  destruct cpu_count as [cpus|] eqn:Hcpu; simpl; [|done].
  destruct (Z.leb_spec (Z.abs n) cpus); simpl; [|done].
  split; [|done]. intros _. exists cpus. split; [done|lia].
Qed.

(** X10: when [configureScrape] returns, the number of locations is
    positive, the number of threads lies between 1 and the number of
    processors, the scrape type is 0, 1 or what it was, the API key is
    what it was, and at least four lines of input were read. *)
Theorem configureScrape_returns_valid gl inp gl' rest :
  configureScrape int_of cpu_count gl inp = (Done, gl', rest) →
  (0 < samples_per_country gl')%Z ∧
  (∃ cpus, cpu_count = Some cpus ∧ (1 ≤ num_workers gl' ≤ cpus)%Z) ∧
  (scrape_type gl' = 0%Z ∨ scrape_type gl' = 1%Z ∨
   scrape_type gl' = scrape_type gl) ∧
  key gl' = key gl ∧
  (length rest + 4 ≤ length inp)%nat.
Proof.
  unfold configureScrape.
  pose proof (scrape_type_menu_keeps gl inp) as K1.
  pose proof (scrape_type_menu_value gl inp) as V1.
  destruct (scrape_type_menu int_of gl inp) as [[[|e1] gl1] inp1];
    cbn [and_then]; [|done].
  pose proof (pano_menu_keeps gl1 inp1) as K2.
  destruct (pano_menu int_of gl1 inp1) as [[[|e2] gl2] inp2];
    cbn [and_then]; [|done].
  pose proof (samples_menu_keeps gl2 inp2) as K3.
  pose proof (samples_menu_value gl2 inp2) as V3.
  destruct (samples_menu int_of gl2 inp2) as [[[|e3] gl3] inp3];
    cbn [and_then]; [|done].
  pose proof (workers_menu_keeps gl3 inp3) as K4.
  pose proof (workers_menu_value gl3 inp3) as V4.
  simpl. intros Hw. rewrite Hw in K4, V4.
  unfold keeps in *. simpl in *.
  destruct K1 as (? & L1 & Hk1 & _ & ? & ? & ?).
  destruct K2 as (? & L2 & Hk2 & Ht2 & _ & ? & ?).
  destruct K3 as (? & L3 & Hk3 & Ht3 & ? & _ & ?).
  destruct K4 as (? & L4 & Hk4 & Ht4 & ? & Hs4 & _).
  destruct V3 as [V3 _]. destruct V4 as [V4 _].
  specialize (L1 eq_refl). specialize (L2 eq_refl).
  specialize (L3 eq_refl). specialize (L4 eq_refl).
  split_and!.
  - rewrite Hs4 by done. by apply V3.
  - by apply V4.
  - rewrite Ht4, Ht3, Ht2 by done. exact V1.
  - congruence.
  - lia.
Qed.

Lemma outcome_done_dec (o : outcome) : o = Done ∨ o ≠ Done.
Proof. destruct o; [by left|by right]. Qed.

(** Completed or not, [configureScrape] leaves settings a scrape can run
    with, and the API key as it was. *)
Lemma configureScrape_keeps_ok gl inp :
  config_ok gl →
  let r := configureScrape int_of cpu_count gl inp in
  config_ok r.1.2 ∧ key r.1.2 = key gl ∧
  (length r.2 ≤ length inp)%nat ∧
  (r.1.1 = Done → (length r.2 < length inp)%nat).
Proof.
  intros [Hs Hw]. unfold configureScrape, config_ok.
  pose proof (scrape_type_menu_keeps gl inp) as K1.
  destruct (scrape_type_menu int_of gl inp) as [[o1 gl1] inp1].
  unfold keeps in K1. simpl in K1.
  destruct K1 as (? & L1 & Hk1 & _ & ? & Hs1 & Hw1).
  destruct o1 as [|e1]; cbn [and_then];
    [|simpl; rewrite Hs1, Hw1 by done; split_and!; (done || lia)].
  pose proof (pano_menu_keeps gl1 inp1) as K2.
  destruct (pano_menu int_of gl1 inp1) as [[o2 gl2] inp2].
  unfold keeps in K2. simpl in K2.
  destruct K2 as (? & L2 & Hk2 & _ & _ & Hs2 & Hw2).
  specialize (L1 eq_refl).
  destruct o2 as [|e2]; cbn [and_then];
    [|simpl; rewrite Hs2, Hw2, Hs1, Hw1 by done;
      split_and!; (done || lia || congruence)].
  pose proof (samples_menu_keeps gl2 inp2) as K3.
  pose proof (samples_menu_value gl2 inp2) as V3.
  destruct (samples_menu int_of gl2 inp2) as [[o3 gl3] inp3].
  unfold keeps in K3. simpl in K3, V3.
  destruct K3 as (? & L3 & Hk3 & _ & _ & _ & Hw3).
  destruct V3 as [V3d V3f]. specialize (L2 eq_refl).
  destruct o3 as [|e3]; cbn [and_then].
  2:{ simpl. rewrite V3f, Hw3, Hs2, Hw2, Hs1, Hw1 by done.
      split_and!; (done || lia || congruence). }
  pose proof (workers_menu_keeps gl3 inp3) as K4.
  pose proof (workers_menu_value gl3 inp3) as V4.
  destruct (workers_menu int_of cpu_count gl3 inp3) as [[o4 gl4] inp4].
  unfold keeps in K4. simpl in K4, V4. simpl.
  destruct K4 as (? & L4 & Hk4 & _ & _ & Hs4 & _).
  destruct V4 as [V4d V4f]. specialize (L3 eq_refl).
  rewrite Hs4 by done. specialize (V3d eq_refl).
  split_and!; [done| |congruence|lia|intros Hd; specialize (L4 Hd); lia].
  destruct (outcome_done_dec o4) as [Hd|Hd].
  - destruct (V4d Hd) as (cpus & _ & ?). lia.
  - rewrite (V4f Hd), Hw3, Hw2, Hw1 by done. done.
Qed.

Lemma settings_loop_ends fuel gl inp :
  (length inp < fuel)%nat →
  config_ok gl →
  ∃ o gl' rest,
    settings_loop int_of cpu_count fuel gl inp = Some (o, gl', rest) ∧
    config_ok gl' ∧ (length rest ≤ length inp)%nat ∧
    (o = Done → (length rest < length inp)%nat).
Proof.
  revert gl inp. induction fuel as [|fuel IH]; intros gl inp Hlen Hok; [lia|].
  destruct inp as [|line rest]; simpl.
  { exists (Failed EndOfInput), gl, []. split_and!; (done || lia). }
  destruct (int_of line) as [choice|].
  2:{ exists (Failed BadInteger), gl, rest. simpl.
      split_and!; (done || lia). }
  simpl in Hlen.
  destruct (choice =? 1)%Z.
  { destruct rest as [|api_key rest']; simpl.
    - exists (Failed EndOfInput), gl, []. simpl. split_and!; (done || lia).
    - destruct (IH (set_key (Some api_key) gl) rest')
        as (o & gl' & r & -> & ? & ? & ?); [simpl in Hlen; lia|done|].
      exists o, gl', r. simpl. split_and!; [done|done|lia|lia]. }
  destruct (choice =? 2)%Z.
  { pose proof (configureScrape_keeps_ok gl rest Hok) as (Hok' & _ & Hl & Hd).
    destruct (configureScrape int_of cpu_count gl rest) as [[[|e] gl1] rest1];
      simpl in Hok', Hl, Hd.
    - destruct (IH gl1 rest1) as (o & gl' & r & -> & ? & ? & ?); [lia|done|].
      exists o, gl', r. split_and!; [done|done|lia|lia].
    - exists (Failed e), gl1, rest1. split_and!; [done|done|lia|done]. }
  destruct (choice =? 3)%Z.
  { exists Done, gl, rest. simpl. split_and!; (done || lia). }
  destruct (IH gl rest) as (o & gl' & r & -> & ? & ? & ?); [lia|done|].
  exists o, gl', r. simpl. split_and!; [done|done|lia|lia].
Qed.

(** How the menus end, and that they only read on. *)
Lemma scrape_type_menu_ending gl inp :
  let r := scrape_type_menu int_of gl inp in
  console_ending cpu_count r.1.1 ∧ r.2 `suffix_of` inp.
Proof.
  unfold console_ending. induction inp as [|line rest IH]; simpl.
  { split; [auto|done]. }
  destruct (int_of line); simpl; [|split; [auto|by apply suffix_cons_r]].
  repeat (destruct (_ =? _)%Z; simpl;
          [split; [auto|by apply suffix_cons_r]|]).
  destruct IH. split; [done|by apply suffix_cons_r].
Qed.

Lemma pano_menu_ending gl inp :
  let r := pano_menu int_of gl inp in
  console_ending cpu_count r.1.1 ∧ r.2 `suffix_of` inp.
Proof.
  unfold console_ending. induction inp as [|line rest IH]; simpl.
  { split; [auto|done]. }
  destruct (int_of line); simpl; [|split; [auto|by apply suffix_cons_r]].
  repeat (destruct (_ =? _)%Z; simpl;
          [split; [auto|by apply suffix_cons_r]|]).
  destruct IH. split; [done|by apply suffix_cons_r].
Qed.

Lemma samples_menu_ending gl inp :
  let r := samples_menu int_of gl inp in
  console_ending cpu_count r.1.1 ∧ r.2 `suffix_of` inp.
Proof.
  unfold console_ending. induction inp as [|line rest IH]; simpl.
  { split; [auto|done]. }
  destruct (int_of line); simpl; [|split; [auto|by apply suffix_cons_r]].
  destruct (_ >? _)%Z; simpl; [split; [auto|by apply suffix_cons_r]|].
  destruct IH. split; [done|by apply suffix_cons_r].
Qed.

Lemma workers_menu_ending gl inp :
  let r := workers_menu int_of cpu_count gl inp in
  console_ending cpu_count r.1.1 ∧ r.2 `suffix_of` inp.
Proof.
  unfold console_ending. induction inp as [|line rest IH]; simpl.
  { split; [auto|done]. }
  destruct (int_of line); simpl; [|split; [auto|by apply suffix_cons_r]].
  destruct IH as [IH1 IH2].
  destruct (_ <=? _)%Z; simpl; [|split; [done|by apply suffix_cons_r]].
  destruct cpu_count as [cpus|] eqn:Hcpu; simpl.
  - destruct (_ <=? _)%Z; simpl; split;
      first [by apply suffix_cons_r|auto].
  - split; [auto|by apply suffix_cons_r].
Qed.

Lemma configureScrape_ending gl inp :
  let r := configureScrape int_of cpu_count gl inp in
  console_ending cpu_count r.1.1 ∧ r.2 `suffix_of` inp.
Proof.
  unfold configureScrape.
  pose proof (scrape_type_menu_ending gl inp) as [E1 S1].
  destruct (scrape_type_menu int_of gl inp) as [[o1 gl1] inp1].
  simpl in E1, S1. destruct o1; cbn [and_then]; [|done].
  pose proof (pano_menu_ending gl1 inp1) as [E2 S2].
  destruct (pano_menu int_of gl1 inp1) as [[o2 gl2] inp2].
  simpl in E2, S2. destruct o2; cbn [and_then];
    [|split; [done|by etrans]].
  pose proof (samples_menu_ending gl2 inp2) as [E3 S3].
  destruct (samples_menu int_of gl2 inp2) as [[o3 gl3] inp3].
  simpl in E3, S3. destruct o3; cbn [and_then];
    [|split; [done|by do 2 (etrans; [|done])]].
  pose proof (workers_menu_ending gl3 inp3) as [E4 S4].
  split; [done|]. by do 3 (etrans; [|done]).
Qed.

(** A configuration that returns has read at least a line. *)
Lemma configureScrape_reads gl inp :
  let r := configureScrape int_of cpu_count gl inp in
  r.1.1 = Done → (length r.2 < length inp)%nat.
Proof.
  unfold configureScrape.
  pose proof (scrape_type_menu_keeps gl inp) as K1.
  destruct (scrape_type_menu int_of gl inp) as [[o1 gl1] inp1].
  destruct K1 as (_ & L1 & _). simpl in L1.
  destruct o1; cbn [and_then]; [|done]. specialize (L1 eq_refl).
  pose proof (pano_menu_keeps gl1 inp1) as K2.
  destruct (pano_menu int_of gl1 inp1) as [[o2 gl2] inp2].
  destruct K2 as (L2 & _). simpl in L2.
  destruct o2; cbn [and_then]; [|done].
  pose proof (samples_menu_keeps gl2 inp2) as K3.
  destruct (samples_menu int_of gl2 inp2) as [[o3 gl3] inp3].
  destruct K3 as (L3 & _). simpl in L3.
  destruct o3; cbn [and_then]; [|done].
  pose proof (workers_menu_keeps gl3 inp3) as (L4 & _).
  simpl. intros _. lia.
Qed.

Lemma elem_of_suffix (l k : list string) x : l `suffix_of` k → x ∈ l → x ∈ k.
Proof. intros [pre ->] Hin. apply elem_of_app. by right. Qed.

(** The loop of the settings menu ends on any finite input. *)
Lemma settings_loop_session fuel gl inp :
  (length inp < fuel)%nat →
  ∃ o gl' rest,
    settings_loop int_of cpu_count fuel gl inp = Some (o, gl', rest) ∧
    console_ending cpu_count o ∧
    rest `suffix_of` inp ∧
    (o = Done → ∃ line, line ∈ inp ∧ int_of line = Some 3%Z) ∧
    (config_ok gl → config_ok gl').
Proof.
  revert gl inp. induction fuel as [|fuel IH]; intros gl inp Hlen; [lia|].
  unfold console_ending in *.
  destruct inp as [|line rest]; simpl.
  { exists (Failed EndOfInput), gl, []. split_and!; auto; done. }
  destruct (int_of line) as [choice|] eqn:Hline.
  2:{ exists (Failed BadInteger), gl, rest.
      split_and!; auto; [by apply suffix_cons_r|done]. }
  simpl in Hlen.
  destruct (Z.eqb_spec choice 1) as [_|_].
  { destruct rest as [|api_key rest']; simpl.
    - exists (Failed EndOfInput), gl, []. split_and!; auto; [by apply suffix_nil|done].
    - destruct (IH (set_key (Some api_key) gl) rest')
        as (o & gl' & r & -> & E & Su & D & Ok); [simpl in Hlen; lia|].
      exists o, gl', r. split_and!; [done|done| | |done].
      + by do 2 apply suffix_cons_r.
      + intros Hd. destruct (D Hd) as (l & Hin & Hl). exists l.
        split; [|done]. by do 2 right. }
  destruct (Z.eqb_spec choice 2) as [_|_].
  { pose proof (configureScrape_ending gl rest) as [E1 S1].
    pose proof (configureScrape_keeps_ok gl rest) as K.
    pose proof (configureScrape_reads gl rest) as R.
    destruct (configureScrape int_of cpu_count gl rest) as [[[|e] gl1] rest1];
      simpl in E1, S1, K, R.
    - assert (Hl : (length rest1 < length rest)%nat) by (by apply R).
      destruct (IH gl1 rest1) as (o & gl' & r & -> & E & Su & D & Ok); [lia|].
      exists o, gl', r. split_and!; [done|done| | |].
      + apply suffix_cons_r. by etrans.
      + intros Hd. destruct (D Hd) as (l & Hin & Hl'). exists l.
        split; [|done]. right. by eapply elem_of_suffix.
      + intros Hok. apply Ok. by destruct (K Hok).
    - exists (Failed e), gl1, rest1. split_and!; [done|done| |done|].
      + by apply suffix_cons_r.
      + intros Hok. by destruct (K Hok). }
  destruct (Z.eqb_spec choice 3) as [->|_].
  { exists Done, gl, rest. split_and!; auto; [by apply suffix_cons_r|].
    intros _. exists line. split; [by left|done]. }
  destruct (IH gl rest) as (o & gl' & r & -> & E & Su & D & Ok); [lia|].
  exists o, gl', r. split_and!; [done|done| | |done].
  + by apply suffix_cons_r.
  + intros Hd. destruct (D Hd) as (l & Hin & Hl). exists l.
    split; [|done]. by right.
Qed.

(** X11: a session of the settings menu on any finite input comes to an
    end. It returns only when the choice 3 was typed; otherwise it ends by
    the exception of [input] at the end of the input, by that of [int] on a
    line that is no integer, or, only where [os.cpu_count()] is [None], by
    the [TypeError] of the comparison with it. It reads on and never back.
    Whichever way it ends, also with the configuration abandoned half-way,
    settings that could run a scrape before still can after: the number of
    locations and the number of threads stay positive. *)
Theorem settings_session_ends gl inp :
  ∃ o gl' rest,
    settings int_of cpu_count gl inp = Some (o, gl', rest) ∧
    (o = Done ∨ o = Failed EndOfInput ∨ o = Failed BadInteger ∨
     (o = Failed CpuCountUnknown ∧ cpu_count = None)) ∧
    (o = Done → ∃ line, line ∈ inp ∧ int_of line = Some 3%Z) ∧
    rest `suffix_of` inp ∧
    (config_ok gl → config_ok gl').
Proof.
  destruct (settings_loop_session (S (length inp)) gl inp ltac:(lia))
    as (o & gl' & rest & H & E & Su & D & Ok).
  by exists o, gl', rest.
Qed.

(** X12: where [os.cpu_count()] is [None], [configureScrape] cannot be
    completed: whatever is typed, it ends with an exception, and the number
    of threads stays what it was. *)
Theorem configureScrape_needs_cpu_count gl inp :
  cpu_count = None →
  let r := configureScrape int_of cpu_count gl inp in
  r.1.1 ≠ Done ∧ num_workers r.1.2 = num_workers gl.
Proof.
  intros Hcpu r. subst r. unfold configureScrape.
  pose proof (scrape_type_menu_keeps gl inp) as K1.
  destruct (scrape_type_menu int_of gl inp) as [[o1 gl1] inp1].
  destruct K1 as (_ & _ & _ & _ & _ & _ & Hw1). simpl in Hw1.
  specialize (Hw1 eq_refl).
  destruct o1; cbn [and_then]; [|simpl; split; [done|congruence]].
  pose proof (pano_menu_keeps gl1 inp1) as K2.
  destruct (pano_menu int_of gl1 inp1) as [[o2 gl2] inp2].
  destruct K2 as (_ & _ & _ & _ & _ & _ & Hw2). simpl in Hw2.
  specialize (Hw2 eq_refl).
  destruct o2; cbn [and_then]; [|simpl; split; [done|congruence]].
  pose proof (samples_menu_keeps gl2 inp2) as K3.
  destruct (samples_menu int_of gl2 inp2) as [[o3 gl3] inp3].
  destruct K3 as (_ & _ & _ & _ & _ & _ & Hw3). simpl in Hw3.
  specialize (Hw3 eq_refl).
  destruct o3; cbn [and_then]; [|simpl; split; [done|congruence]].
  destruct (workers_menu_value gl3 inp3) as [Vd Vf].
  assert (Hnd : (workers_menu int_of cpu_count gl3 inp3).1.1 ≠ Done).
  { intros Hd. destruct (Vd Hd) as (cpus & Hc & _). congruence. }
  split; [done|]. rewrite (Vf Hnd). congruence.
Qed.

End ConsoleProps.

Lemma configureScrape_returns_valid_witness :
  configureScrape int_example (Some 8%Z) gl_example ["7"; "2"; "2"; "0"; "-25"; "99"; "4"]
    = (Done, Globals (Some "KEY") 1 25 false 4, []) ∧
  (0 < samples_per_country (Globals (Some "KEY") 1 25 false 4))%Z.
Proof.
  split; [reflexivity|].
  apply (configureScrape_returns_valid int_example (Some 8%Z) gl_example
           ["7"; "2"; "2"; "0"; "-25"; "99"; "4"] _ [] eq_refl).
Defined.

Lemma configureScrape_needs_cpu_count_witness :
  (configureScrape int_example None gl_example ["1"; "1"; "5"; "2"]).1.1 ≠ Done.
Proof.
  apply (configureScrape_needs_cpu_count int_example None gl_example
           ["1"; "1"; "5"; "2"] eq_refl).
Defined.

(** A session of the settings menu: a new key, then the configuration, then
    back. *)
Example settings_session :
  settings int_example (Some 8%Z) (initial_globals None)
    ["1"; "SECRET"; "2"; "2"; "3"; "12"; "16"; "3"; "3"; "left over"]
  = Some (Done, Globals (Some "SECRET") 1 12 true 3, ["left over"]).
Proof. reflexivity. Qed.

(** A line that is no integer ends the configuration with what was set so
    far. *)
Example configureScrape_bad_line :
  configureScrape int_example (Some 8%Z) gl_example ["2"; "2"; "ten"; "4"]
  = (Failed BadInteger, Globals (Some "KEY") 1 400 false 5, ["4"]).
Proof. reflexivity. Qed.

(** ** The scrape as the menu starts it *)

Section MainProps.

Variable py_str : pyval -> string.
Variable strip : string -> string.
Variable idx : region_index.
Variable mkdir_ok : string -> bool.

#[local] Abbreviation scrape gl c w st :=
  (scrape_country py_str idx mkdir_ok gl c w st).
#[local] Abbreviation batch gl cs i ws st :=
  (scrape_batch py_str idx mkdir_ok gl cs i ws st).

(** The loop with the state agrees with the loop of the driver. *)
Lemma rounds_state_agrees fuel round gl g total save_dir rngs world st :
  rounds py_str fuel round gl g total save_dir rngs world st
  = (fun r : res stop_reason * driver_state =>
       match r.1 with
       | Ret why => Ret (why, r.2)
       | Raise e => Raise e
       end) <$> rounds_state py_str fuel round gl g total save_dir rngs world st.
Proof.
  revert round st. induction fuel as [|fuel IH]; intros round st; [done|].
  simpl. destruct (round_step _ _ _ _ _ _ _ _); [done|apply IH|done].
Qed.

Lemma rounds_state_grows fuel round gl g total save_dir rngs world st r st' :
  rounds_state py_str fuel round gl g total save_dir rngs world st
    = Some (r, st') →
  grows_by save_dir st st'.
Proof.
  revert round st. induction fuel as [|fuel IH]; intros round st; [done|].
  simpl.
  destruct (round_step _ _ _ _ _ _ _ st) as [w|st1|e] eqn:Hstep.
  - intros [= <- <-]. apply grows_by_refl.
  - intros Hloop. eapply grows_by_trans; [|by eapply IH].
    destruct (step_continue _ _ _ _ _ _ _ _ _ Hstep)
      as (_ & _ & n2d & p & pts & _ & _ & ->).
    apply dispatch_grows.
  - intros [= <- <-]. apply grows_by_refl.
Qed.

(** What the scrape of one country does to the state of [main]. *)
Lemma scrape_country_effect gl c w st o st' :
  scrape gl c w st = Some (o, st') →
  m_cache st' = (if o is Done
                 then snd (load_shapefile_for_country idx c (sw_rd w) (m_cache st))
                 else m_cache st) ∧
  m_paths st ⊆ m_paths st' ∧
  (o = Done → os_path_join DownLoc c ∈ m_paths st') ∧
  ∃ added evs,
    m_image_list st' = m_image_list st ++ added ∧
    m_trace st' = m_trace st ++ evs ∧
    Forall (fun md =>
              FileWritten (os_path_join (os_path_join DownLoc c)
                             (md_filename md)) ∈ evs) added.
Proof.
  unfold scrape_country.
  destruct (bool_decide _ && negb _) eqn:Hmk.
  { intros [= <- <-]. split_and!; [done|done|done|].
    exists [], []. by rewrite !app_nil_r. }
  unfold download_state.
  destruct (load_shapefile_for_country idx c (sw_rd w) (m_cache st))
    as [[g|e] cache'] eqn:Hload.
  - destruct (rounds_state _ _ _ _ _ _ _ _ _ _) as [[r dst]|] eqn:Hr; [|done].
    intros [= <- <-]. simpl.
    apply rounds_state_grows in Hr as (added & evs & Hl & _ & Ht & Hw).
    simpl in Hl, Ht. split_and!; [done| | |].
    + case_bool_decide; set_solver.
    + intros _. case_bool_decide as Hin; [set_solver|done].
    + exists added, evs. by rewrite Hl, Ht.
  - intros [= <- <-]. simpl. split_and!; [done| | |].
    + case_bool_decide; set_solver.
    + intros _. case_bool_decide as Hin; [set_solver|done].
    + exists [], []. by rewrite !app_nil_r.
Qed.

(** What the loop over the countries of the file does to the state. *)
Lemma scrape_batch_effect gl cs i ws st o st' :
  batch gl cs i ws st = Some (o, st') →
  m_paths st ⊆ m_paths st' ∧
  (o = Done → ∀ c, c ∈ cs → os_path_join DownLoc c ∈ m_paths st') ∧
  (cache_inv (m_cache st) → cache_inv (m_cache st')) ∧
  ∃ added evs,
    m_image_list st' = m_image_list st ++ added ∧
    m_trace st' = m_trace st ++ evs ∧
    Forall (fun md =>
              ∃ c, c ∈ cs ∧
                FileWritten (os_path_join (os_path_join DownLoc c)
                               (md_filename md)) ∈ evs) added.
Proof.
  revert i st. induction cs as [|c cs IH]; intros i st; simpl.
  { intros [= <- <-]. split_and!; [done|by intros _ c ?%elem_of_nil|done|].
    exists [], []. by rewrite !app_nil_r. }
  destruct (scrape gl c (ws i) st) as [[o1 st1]|] eqn:H1; [|done].
  apply scrape_country_effect in H1
    as (Hc1 & Hp1 & Hd1 & added1 & evs1 & Hl1 & Ht1 & Hw1).
  assert (Hinv1 : cache_inv (m_cache st) → cache_inv (m_cache st1)).
  { intros Hinv. rewrite Hc1. destruct o1; [|done].
    by apply load_inv. }
  destruct o1 as [|e].
  - intros H2. apply IH in H2
      as (Hp2 & Hd2 & Hinv2 & added2 & evs2 & Hl2 & Ht2 & Hw2).
    split_and!.
    + set_solver.
    + intros Ho c' [->|Hin]%elem_of_cons; [|by apply Hd2].
      apply Hp2, Hd1. done.
    + auto.
    + exists (added1 ++ added2), (evs1 ++ evs2).
      rewrite Hl2, Ht2, Hl1, Ht1, <- !app_assoc. split_and!; [done|done|].
      apply Forall_app. split.
      * eapply Forall_impl; [exact Hw1|]. intros md Hmd. exists c.
        split; [apply list_elem_of_here|]. apply elem_of_app. by left.
      * eapply Forall_impl; [exact Hw2|]. intros md (c' & Hc' & Hmd).
        exists c'. split; [by apply list_elem_of_further|].
        apply elem_of_app. by right.
  - intros [= <- <-]. split_and!; [done|done|done|].
    exists added1, evs1. split_and!; [done|done|].
    eapply Forall_impl; [exact Hw1|]. intros md Hmd. exists c.
    split; [apply list_elem_of_here|done].
Qed.

(** What a call of [main] does to the state. *)
Lemma main_effect gl inp file ws st o st' inp' :
  main py_str strip idx mkdir_ok gl inp file ws st = Some (o, st', inp') →
  m_paths st ⊆ m_paths st' ∧
  (cache_inv (m_cache st) → cache_inv (m_cache st')) ∧
  ∃ evs,
    m_trace st' = m_trace st ++ evs ∧
    Forall (fun md =>
              ∃ c, FileWritten (os_path_join (os_path_join DownLoc c)
                                  (md_filename md)) ∈ evs)
      (m_image_list st').
Proof.
  unfold main. destruct (scrape_type gl =? 1)%Z.
  - destruct file as [lines|].
    + destruct (batch gl (strip <$> lines) 0%nat ws _) as [[o1 st1]|] eqn:Hb;
        [|done].
      intros [= <- <- <-].
      apply scrape_batch_effect in Hb
        as (Hp & _ & Hinv & added & evs & Hl & Ht & Hw).
      simpl in *. split_and!; [done|done|]. exists evs. split; [done|].
      rewrite Hl. simpl. eapply Forall_impl; [exact Hw|].
      intros md (c & _ & Hmd). by exists c.
    + intros [= <- <- <-]. simpl. split_and!; [done|done|].
      exists []. by rewrite app_nil_r.
  - destruct inp as [|c rest].
    + intros [= <- <- <-]. simpl. split_and!; [done|done|].
      exists []. by rewrite app_nil_r.
    + destruct (scrape gl c (ws 0%nat) _) as [[o1 st1]|] eqn:Hs; [|done].
      intros [= <- <- <-].
      apply scrape_country_effect in Hs
        as (Hc & Hp & _ & added & evs & Hl & Ht & Hw).
      simpl in *. split_and!; [done| |].
      * intros Hinv. rewrite Hc. destruct o1; [|done].
        by apply load_inv.
      * exists evs. split; [done|]. rewrite Hl. simpl.
        eapply Forall_impl; [exact Hw|]. intros md Hmd. by exists c.
Qed.



(** X15. A country that is in no region: [main] makes its directory,
    swallows the error of the driver, and returns normally without a
    request, a write or a read of a shapefile. *)
Theorem main_unknown_country gl c rest file ws st :
  scrape_type gl ≠ 1%Z →
  region_of idx c = None →
  mkdir_ok (os_path_join DownLoc c) = true →
  main py_str strip idx mkdir_ok gl (c :: rest) file ws st
  = Some (Done,
          MainState (m_cache st) [] ({[os_path_join DownLoc c]} ∪ m_paths st)
            (m_trace st),
          rest).
Proof.
  intros Hty Hreg Hmk. unfold main.
  destruct (Z.eqb_spec (scrape_type gl) 1) as [|_]; [done|].
  unfold scrape_country, download_state. simpl. rewrite Hmk. simpl.
  rewrite andb_false_r.
  assert (Hload : ∀ rd cache,
    load_shapefile_for_country idx c rd cache
    = (Raise (CountryNotFound c), cache)).
  { intros rd cache. unfold load_shapefile_for_country.
    clear -Hreg. induction idx as [|[region countries] items IH]; [done|].
    simpl in *. case_bool_decide; [done|]. by apply IH. }
  rewrite Hload. simpl. rewrite app_nil_r. do 3 f_equal.
  case_bool_decide as Hin; [done|]. f_equal. set_solver.
Qed.

End MainProps.

(** ** The main menu *)

Section SessionProps.

Variable int_of : string -> option Z.
Variable cpu_count : option Z.
Variable py_str : pyval -> string.
Variable strip : string -> string.
Variable idx : region_index.
Variable mkdir_ok : string -> bool.

#[local] Abbreviation menu_loop :=
  (start_menu_loop int_of cpu_count py_str strip idx mkdir_ok).

(** The settings menu never takes a key away. *)
Lemma settings_loop_key fuel gl inp o gl' rest :
  settings_loop int_of cpu_count fuel gl inp = Some (o, gl', rest) →
  key gl' = None → key gl = None.
Proof.
  revert gl inp. induction fuel as [|fuel IH]; intros gl inp; [done|].
  destruct inp as [|line inp]; simpl; [by intros [= <- <- <-]|].
  destruct (int_of line) as [choice|]; [|by intros [= <- <- <-]].
  destruct (choice =? 1)%Z.
  { destruct inp as [|api_key inp]; simpl; [by intros [= <- <- <-]|].
    intros Hloop Hk. by apply (IH _ _ Hloop) in Hk. }
  destruct (choice =? 2)%Z.
  { pose proof (scrape_type_menu_keeps int_of gl inp) as K1.
    unfold configureScrape.
    destruct (scrape_type_menu int_of gl inp) as [[o1 gl1] inp1].
    destruct K1 as (_ & _ & Hk1 & _). simpl in Hk1.
    assert (Hkey : ∀ r : console_result,
      r = and_then (o1, gl1, inp1) (fun gl1 inp1 =>
            and_then (pano_menu int_of gl1 inp1) (fun gl2 inp2 =>
            and_then (samples_menu int_of gl2 inp2) (fun gl3 inp3 =>
            workers_menu int_of cpu_count gl3 inp3))) →
      key r.1.2 = key gl).
    { intros r ->. destruct o1; cbn [and_then]; [|done].
      pose proof (pano_menu_keeps int_of gl1 inp1) as K2.
      destruct (pano_menu int_of gl1 inp1) as [[o2 gl2] inp2].
      destruct K2 as (_ & _ & Hk2 & _). simpl in Hk2.
      destruct o2; cbn [and_then]; [|simpl; congruence].
      pose proof (samples_menu_keeps int_of gl2 inp2) as K3.
      destruct (samples_menu int_of gl2 inp2) as [[o3 gl3] inp3].
      destruct K3 as (_ & _ & Hk3 & _). simpl in Hk3.
      destruct o3; cbn [and_then]; [|simpl; congruence].
      pose proof (workers_menu_keeps int_of cpu_count gl3 inp3)
        as (_ & _ & Hk4 & _).
      congruence. }
    specialize (Hkey _ eq_refl).
    destruct (and_then _ _) as [[[|e] gl2] inp2]; simpl in Hkey.
    - intros Hloop Hk. apply (IH _ _ Hloop) in Hk. congruence.
    - intros [= <- <- <-]. congruence. }
  destruct (choice =? 3)%Z; [by intros [= <- <- <-]|].
  apply IH.
Qed.

(** Without a key, nothing the menu does touches the cache, the ledger, the
    file system or the network. *)
Lemma menu_loop_no_key fuel run sw gl inp st o gl' st' inp' :
  menu_loop fuel run sw gl inp st = Some (o, gl', st', inp') →
  key gl' = None →
  st' = st ∧ key gl = None.
Proof.
  revert run gl inp st.
  induction fuel as [|fuel IH]; intros run gl inp st; [done|].
  destruct inp as [|line inp]; simpl; [by intros [= <- <- <- <-]|].
  destruct (int_of line) as [choice|]; [|by intros [= <- <- <- <-]].
  destruct (choice =? 1)%Z.
  { destruct (settings int_of cpu_count gl inp) as [[[[|e] gl1] inp1]|] eqn:Hs;
      [| |done].
    - intros Hloop Hk. destruct (IH _ _ _ _ Hloop Hk) as [-> Hk1].
      split; [done|]. by eapply settings_loop_key.
    - intros [= <- <- <- <-] Hk. split; [done|]. by eapply settings_loop_key. }
  destruct (choice =? 2)%Z.
  { unfold start, verify_config.
    destruct (key gl) as [k|] eqn:Hkey.
    - destruct (main _ _ _ _ _ _ _ _ _) as [[[[|e] st1] inp1]|]; [| |done].
      + intros Hloop Hk. destruct (IH _ _ _ _ Hloop Hk) as [_ Hk1]. congruence.
      + intros [= <- <- <- <-] Hk. congruence.
    - intros Hloop Hk. by destruct (IH _ _ _ _ Hloop Hk) as [-> _]. }
  destruct (choice =? 3)%Z; [by intros [= <- <- <- <-]|].
  apply IH.
Qed.

(** The menu keeps the invariant of the cache. *)
Lemma menu_loop_cache_inv fuel run sw gl inp st o gl' st' inp' :
  menu_loop fuel run sw gl inp st = Some (o, gl', st', inp') →
  cache_inv (m_cache st) → cache_inv (m_cache st').
Proof.
  revert run gl inp st.
  induction fuel as [|fuel IH]; intros run gl inp st; [done|].
  destruct inp as [|line inp]; simpl; [by intros [= <- <- <- <-]|].
  destruct (int_of line) as [choice|]; [|by intros [= <- <- <- <-]].
  destruct (choice =? 1)%Z.
  { destruct (settings int_of cpu_count gl inp) as [[[[|e] gl1] inp1]|];
      [| |done].
    - apply IH.
    - by intros [= <- <- <- <-]. }
  destruct (choice =? 2)%Z.
  { unfold start. destruct (verify_config gl).
    - destruct (main _ _ _ _ _ _ _ _ _) as [[[o1 st1] inp1]|] eqn:Hm; [|done].
      apply main_effect in Hm as (_ & Hinv & _).
      destruct o1.
      + intros Hloop ?. eapply IH; [exact Hloop|]. auto.
      + intros [= <- <- <- <-]. done.
    - apply IH. }
  destruct (choice =? 3)%Z; [by intros [= <- <- <- <-]|].
  apply IH.
Qed.

(** X16. A session that ends without an API key has done nothing: however
    often a scrape was started, the cache is empty, nothing was requested or
    written, and no directory was made. *)
Theorem session_without_key_does_nothing maps_api_key paths sw inp
    o gl' st' inp' :
  start_menu int_of cpu_count py_str strip idx mkdir_ok maps_api_key paths sw inp
    = Some (o, gl', st', inp') →
  key gl' = None →
  st' = MainState cache_init [] paths [].
Proof.
  intros Hm Hk. by destruct (menu_loop_no_key _ _ _ _ _ _ _ _ _ _ Hm Hk).
Qed.

(** X17. Over a whole session of the menu, with any number of scrapes and
    countries, the shapefile of a region is read with success at most
    once. *)
Theorem session_reads_each_region_once maps_api_key paths sw inp
    o gl' st' inp' region :
  start_menu int_of cpu_count py_str strip idx mkdir_ok maps_api_key paths sw inp
    = Some (o, gl', st', inp') →
  (successful_loads region (m_cache st') ≤ 1)%nat.
Proof.
  intros Hm. apply cache_inv_loads_le.
  eapply menu_loop_cache_inv; [exact Hm|]. apply cache_inv_init.
Qed.

End SessionProps.



Lemma main_unknown_country_witness :
  main str_example strip_example idx_example (fun _ => true) gl_example
    ["Mordor"] None (fun _ => sw_example) (MainState cache_init [] ∅ [])
  = Some (Done,
          MainState cache_init [] ({[os_path_join DownLoc "Mordor"]} ∪ ∅) [],
          []).
Proof.
  apply (main_unknown_country str_example strip_example idx_example
           (fun _ => true) gl_example "Mordor" [] None (fun _ => sw_example)
           (MainState cache_init [] ∅ []));
    [vm_compute; discriminate|reflexivity|reflexivity].
Defined.

Lemma session_without_key_does_nothing_witness :
  ∃ gl' st',
    start_menu int_example (Some 4%Z) str_example strip_example idx_example
      (fun _ => true) None ∅ session_example ["2"; "0"; "2"; "3"]
    = Some (Done, gl', st', []) ∧
    st' = MainState cache_init [] ∅ [].
Proof.
  do 2 eexists. split; [vm_compute; reflexivity|].
  apply (session_without_key_does_nothing int_example (Some 4%Z) str_example
           strip_example idx_example (fun _ => true) None ∅ session_example
           ["2"; "0"; "2"; "3"] Done (initial_globals None) _ []);
    [vm_compute; reflexivity|reflexivity].
Defined.

Lemma session_reads_each_region_once_witness :
  ∃ gl' st',
    start_menu int_example (Some 4%Z) str_example strip_example idx_example
      (fun _ => true) None ∅ session_example
      ["1"; "1"; "KEY"; "2"; "2"; "3"; "2"; "1"; "3"; "2"; "2"; "3"]
    = Some (Done, gl', st', []) ∧
    (successful_loads "Region 4" (m_cache st') ≤ 1)%nat.
Proof.
  do 2 eexists. split; [vm_compute; reflexivity|].
  apply (session_reads_each_region_once int_example (Some 4%Z) str_example
           strip_example idx_example (fun _ => true) None ∅ session_example
           ["1"; "1"; "KEY"; "2"; "2"; "3"; "2"; "1"; "3"; "2"; "2"; "3"]
           Done
           (set_workers 1 (set_samples 2 (set_scrape_type 1
              (set_key (Some "KEY") (initial_globals None)))))
           _ [] "Region 4").
  vm_compute; reflexivity.
Defined.

(** The session of the last witness: the key is set, two locations per
    country are asked for, the file of countries is scraped twice. France
    is served both times, from one read of its shapefile: eight files are
    written, and the ledger holds the four of the second scrape. The other
    two lines leave a directory and nothing else. *)
Example session_twice :
  let r := start_menu int_example (Some 4%Z) str_example strip_example
             idx_example (fun _ => true) None ∅ session_example
             ["1"; "1"; "KEY"; "2"; "2"; "3"; "2"; "1"; "3"; "2"; "2"; "3"] in
  (fun st => (length (loads (m_cache st)), length (m_image_list st),
              length (writes (m_trace st)), size (m_paths st)))
    <$> (snd <$> (fst <$> r))
  = Some (1%nat, 4%nat, 8%nat, 3%nat).
Proof. vm_compute. reflexivity. Qed.

(** ** A session without shapefiles *)

Section NoShapefiles.

Variable int_of : string -> option Z.
Variable cpu_count : option Z.
Variable py_str : pyval -> string.
Variable strip : string -> string.
Variable idx : region_index.
Variable mkdir_ok : string -> bool.

(** With an empty cache and no source that can be read, every country
    raises, and the cache stays empty. *)
Lemma load_unreadable c rd st :
  (∀ path, rd path = None) →
  gdf_cache st = ∅ →
  ∃ e st1,
    load_shapefile_for_country idx c rd st = (Raise e, st1) ∧
    gdf_cache st1 = ∅.
Proof.
  intros Hrd Hc. unfold load_shapefile_for_country.
  induction idx as [|[region countries] items IH]; simpl.
  { by exists (CountryNotFound c), st. }
  case_bool_decide; [|done].
  unfold load_region. rewrite Hc, lookup_empty.
  destruct (region_shp_paths !! region) as [p|];
    [|by exists (ShapefilePathNotFound region), st].
  destruct (str_truthy p); [|by exists (ShapefilePathNotFound region), st].
  rewrite Hrd. by eexists _, _.
Qed.

Lemma scrape_country_unreadable gl c w st :
  (∀ path, sw_rd w path = None) →
  gdf_cache (m_cache st) = ∅ →
  ∃ o st1,
    scrape_country py_str idx mkdir_ok gl c w st = Some (o, st1) ∧
    gdf_cache (m_cache st1) = ∅ ∧
    m_trace st1 = m_trace st ∧ m_image_list st1 = m_image_list st.
Proof.
  intros Hrd Hc. unfold scrape_country.
  destruct (bool_decide _ && negb _); [by eexists _, _|].
  unfold download_state.
  destruct (load_unreadable c (sw_rd w) (m_cache st) Hrd Hc)
    as (e & st1 & -> & Hc1).
  eexists _, _. split; [done|]. simpl. by rewrite app_nil_r.
Qed.

Lemma scrape_batch_unreadable gl cs i ws st :
  (∀ i path, sw_rd (ws i) path = None) →
  gdf_cache (m_cache st) = ∅ →
  ∃ o st1,
    scrape_batch py_str idx mkdir_ok gl cs i ws st = Some (o, st1) ∧
    gdf_cache (m_cache st1) = ∅ ∧
    m_trace st1 = m_trace st ∧ m_image_list st1 = m_image_list st.
Proof.
  intros Hrd. revert i st. induction cs as [|c cs IH]; intros i st Hc; simpl.
  { by eexists _, _. }
  destruct (scrape_country_unreadable gl c (ws i) st (Hrd i) Hc)
    as (o & st1 & -> & Hc1 & Ht1 & Hl1).
  destruct o as [|e]; [|by eexists _, _].
  destruct (IH (S i) st1 Hc1) as (o2 & st2 & -> & Hc2 & Ht2 & Hl2).
  eexists _, _. split; [done|]. split_and!; congruence.
Qed.

Lemma main_unreadable gl inp file ws st :
  (∀ i path, sw_rd (ws i) path = None) →
  gdf_cache (m_cache st) = ∅ →
  ∃ o st1 inp1,
    main py_str strip idx mkdir_ok gl inp file ws st = Some (o, st1, inp1) ∧
    gdf_cache (m_cache st1) = ∅ ∧
    m_trace st1 = m_trace st ∧ m_image_list st1 = [] ∧
    (length inp1 ≤ length inp)%nat.
Proof.
  intros Hrd Hc. unfold main. destruct (scrape_type gl =? 1)%Z.
  - destruct file as [lines|]; [|by eexists _, _, _].
    destruct (scrape_batch_unreadable gl (strip <$> lines) 0%nat ws
                (MainState (m_cache st) [] (m_paths st) (m_trace st)) Hrd Hc)
      as (o & st1 & -> & ? & ? & ?).
    by eexists _, _, _.
  - destruct inp as [|c rest]; [by eexists _, _, _|].
    destruct (scrape_country_unreadable gl c (ws 0%nat)
                (MainState (m_cache st) [] (m_paths st) (m_trace st))
                (Hrd 0%nat) Hc)
      as (o & st1 & -> & ? & ? & ?).
    eexists _, _, _. split; [done|]. simpl. split_and!; (done || lia).
Qed.

Lemma menu_loop_unreadable fuel run sw gl inp st :
  (∀ run i path, sw_rd (s_worlds sw run i) path = None) →
  (length inp < fuel)%nat →
  config_ok gl →
  gdf_cache (m_cache st) = ∅ →
  m_image_list st = [] →
  ∃ o gl' st' inp',
    start_menu_loop int_of cpu_count py_str strip idx mkdir_ok
      fuel run sw gl inp st = Some (o, gl', st', inp') ∧
    m_trace st' = m_trace st ∧ m_image_list st' = [].
Proof.
  intros Hrd. revert run gl inp st.
  induction fuel as [|fuel IH]; intros run gl inp st Hlen Hok Hc Hl; [lia|].
  destruct inp as [|line inp]; simpl; [by eexists _, _, _, _|].
  destruct (int_of line) as [choice|]; [|by eexists _, _, _, _].
  simpl in Hlen.
  destruct (choice =? 1)%Z.
  { destruct (settings_loop_ends int_of cpu_count (S (length inp)) gl inp
                ltac:(lia) Hok) as (o & gl1 & inp1 & Hs & Hok1 & Hlen1 & _).
    unfold settings. rewrite Hs. destruct o as [|e]; [|by eexists _, _, _, _].
    apply IH; [lia|done|done|done]. }
  destruct (choice =? 2)%Z.
  { unfold start. destruct (verify_config gl); [|apply IH; (done || lia)].
    destruct (main_unreadable gl inp (s_file sw run) (s_worlds sw run) st
                (Hrd run) Hc) as (o & st1 & inp1 & -> & Hc1 & Ht1 & Hl1 & Hlen1).
    destruct o as [|e]; [|by eexists _, _, _, _].
    destruct (IH (S run) gl inp1 st1) as (o2 & gl2 & st2 & inp2 & -> & Ht2 & Hl2);
      [lia|done|done|done|].
    eexists _, _, _, _. split; [done|]. split; congruence. }
  destruct (choice =? 3)%Z; [by eexists _, _, _, _|].
  apply IH; (done || lia).
Qed.

(** X18. Where no shapefile can be read, a session of the menu on any
    finite input comes to an end, and whatever was typed, it has made no
    request, written no file and left the ledger empty. *)
Theorem session_without_shapefiles maps_api_key paths sw inp :
  (∀ run i path, sw_rd (s_worlds sw run i) path = None) →
  ∃ o gl' st' inp',
    start_menu int_of cpu_count py_str strip idx mkdir_ok maps_api_key paths
      sw inp = Some (o, gl', st', inp') ∧
    m_trace st' = [] ∧ m_image_list st' = [].
Proof.
  intros Hrd. unfold start_menu.
  apply (menu_loop_unreadable _ _ sw _ inp (MainState cache_init [] paths []));
    [done|lia|by split|done|done].
Qed.

End NoShapefiles.

(** A world in which no shapefile is found. *)
Lemma session_without_shapefiles_witness :
  ∃ o gl' st' inp',
    start_menu int_example (Some 4%Z) str_example strip_example idx_example
      (fun _ => true) (Some "KEY") ∅
      (SessionWorld (fun _ => Some lines_example)
         (fun _ _ => ScrapeWorld rd_down (fun _ _ => 0%nat) world_ok 5))
      ["2"; "France"; "2"; "Spain"; "3"]
    = Some (o, gl', st', inp') ∧
    m_trace st' = [] ∧ m_image_list st' = [].
Proof.
  apply (session_without_shapefiles int_example (Some 4%Z) str_example
           strip_example idx_example (fun _ => true) (Some "KEY") ∅
           (SessionWorld (fun _ => Some lines_example)
              (fun _ _ => ScrapeWorld rd_down (fun _ _ => 0%nat) world_ok 5))
           ["2"; "France"; "2"; "Spain"; "3"]).
  intros run i path. reflexivity.
Defined.
